(** * A shallow embedding of the bingo hub (WebSocket server) and its
      admin / signaling controllers.

    The embedded sources are

    - [src/unnamed/part_000], first document: [backend/server.ts]
      (module [Server] below);
    - [src/utilshelpers.ts], second document: the server variant that
      checks admin tokens on every command (module [TokenServer]);
    - [src/admin.ts] (module [Admin]) and [src/signaling.ts]
      (module [Signaling]).

    Modelling decisions, all visible in the definitions:

    - a JavaScript [Map] keeps its keys in insertion order, and both
      [find] and [forEach] observe that order, so maps are association
      lists with the [Map] update discipline (module [JsMap]);
    - a [WebSocket] object is a handle compared by identity ([===]); its
      [readyState] and whether [send] raises are facts of the
      environment ([World]);
    - [Date.now()], [Math.random()] and [generateToken()] are read from an
      [Oracle] handed to each handler;
    - a number read from an envelope is any double [JSON.parse] can
      give, whole or not, held exactly (module [Num]);
    - a handler is a computation in a small state-and-exception monad
      over the hub state; every call of [socket.send] is recorded, in
      order, in the [wire] component;
    - [console.log] and [console.error] have no effect on the state or on
      the wire and are left out. *)

From Stdlib Require Import List String Ascii ZArith NArith Bool Lia DecimalString.
Import ListNotations.
Open Scope string_scope.
Open Scope Z_scope.

(* ================================================================== *)
(** * Insertion-ordered maps with string keys (JavaScript [Map]) *)
(* ================================================================== *)

Module JsMap.

Section WithValue.
Context {V : Type}.

Definition t : Type := list (string * V).

Definition empty : t := [].

(** [m.get(k)] *)
Fixpoint get (k : string) (m : t) : option V :=
  match m with
  | [] => None
  | (k', v) :: m' => if String.eqb k k' then Some v else get k m'
  end.

(** [m.set(k, v)]: an existing key keeps its place in the iteration
    order and gets the new value, a new key goes last. *)
Fixpoint set (k : string) (v : V) (m : t) : t :=
  match m with
  | [] => [(k, v)]
  | (k', v') :: m' =>
      if String.eqb k k' then (k', v) :: m' else (k', v') :: set k v m'
  end.

(** [m.delete(k)] *)
Fixpoint delete (k : string) (m : t) : t :=
  match m with
  | [] => []
  | (k', v') :: m' =>
      if String.eqb k k' then m' else (k', v') :: delete k m'
  end.

(** [m.size] *)
Definition size (m : t) : nat := List.length m.

(** [Array.from(m.values())] and [Array.from(m.keys())] *)
Definition values (m : t) : list V := map snd m.
Definition keys (m : t) : list string := map fst m.

(** [Array.from(m.values()).find(p)] *)
Definition findValue (p : V -> bool) (m : t) : option V :=
  List.find p (values m).

(** [Array.from(m.entries()).find(([_, v]) => p(v))?.[0]] *)
Definition findKey (p : V -> bool) (m : t) : option string :=
  option_map fst (List.find (fun e => p (snd e)) m).

(** The object returned by [find] is the one stored in the map, so an
    assignment to one of its fields updates the first entry that
    satisfies [p], in place. *)
Fixpoint mutateFirst (p : V -> bool) (f : V -> V) (m : t) : t :=
  match m with
  | [] => []
  | (k, v) :: m' =>
      if p v then (k, f v) :: m' else (k, v) :: mutateFirst p f m'
  end.

(** [m.forEach((v, k) => { if (p(v, k)) m.delete(k) })]: an entry that
    is deleted while it is visited does not disturb the iteration. *)
Definition sweep (p : string -> V -> bool) (m : t) : t :=
  List.filter (fun e => negb (p (fst e) (snd e))) m.

End WithValue.

Arguments t : clear implicits.

End JsMap.

(* ================================================================== *)
(** * Data model *)
(* ================================================================== *)

(** A [WebSocket] object, known by its identity. *)
Definition WebSocket : Type := nat.

Inductive ReadyState : Type := CONNECTING | OPEN | CLOSING | CLOSED.

Definition isOpen (r : ReadyState) : bool :=
  match r with OPEN => true | _ => false end.

(** What the transport does, outside the control of the hub. *)
Record World : Type := {
  readyState : WebSocket -> ReadyState;
  sendThrows : WebSocket -> bool
}.

Inductive Status : Type := online | offline.

(** [interface User] *)
Record User : Type := {
  id : string;
  username : string;
  socket : WebSocket;
  ip : string;
  status : Status;
  isAdmin : bool;
  token : option string;
  lastSeen : Z
}.

(** The values of [adminTokens] *)
Record TokenData : Type := {
  userId : string;
  expires : Z
}.

(** A JavaScript number is an IEEE-754 double.  Every finite double is a
    whole multiple of the smallest positive one, 2^-1074, and two doubles
    compare ([>=], [<=]) and are equal ([includes]) as these multiples do;
    the infinities, which [JSON.parse] gives for literals such as
    [1e400], lie beyond every finite double.  A number is held as that
    multiple, so that the comparisons of the code are those of [Z]:
    [Num.ofInt 7] is 7 and [Num.halves 15] is 7.5.  [NaN] does not come
    out of [JSON.parse], and [-0] is [0] for every operation the code
    applies to a number. *)
Module Num.

Abbreviation t := Z (only parsing).

(** The number 1, in multiples of 2^-1074. *)
Definition one : t := 2 ^ 1074.

(** The integer [z] as a number. *)
Definition ofInt (z : Z) : t := z * one.

(** [z / 2] as a number. *)
Definition halves (z : Z) : t := z * 2 ^ 1073.

(** [Infinity]: above every finite double, the largest of which is
    below 2^1024. *)
Definition infinity : t := 2 ^ 2098.

(** [Number.isInteger(n)] *)
Definition isInteger (n : t) : bool :=
  (n mod one =? 0) && (Z.abs n <? infinity).

End Num.

Arguments Num.one : simpl never.
Arguments Num.ofInt : simpl never.
Arguments Num.halves : simpl never.
Arguments Num.infinity : simpl never.

(** [interface GameState] *)
Record GameState : Type := {
  active : bool;
  currentNumber : option Num.t;
  calledNumbers : list Num.t;
  players : list string;
  winner : option string
}.

(** The inbound envelope [data: any]: the fields the handlers read; a
    field that is absent reads as [undefined], here [None]. *)
Module Data.

(** [data.data] of an admin command.  The code only prints [amount], in
    a template literal; the field holds what the literal prints for the
    value, and is absent when the value is falsy or not there. *)
Record Payload : Type := {
  winner : option string;
  message : option string;
  amount : option string
}.

Record t : Type := {
  type : option string;
  userId : option string;
  username : option string;
  password : option string;
  token : option string;
  command : option string;
  data : option Payload;
  targetUserId : option string;
  number : option Num.t;
  pattern : option string
}.

End Data.

(** Truthiness of an optional string: [undefined] and [""] are falsy. *)
Definition truthy (o : option string) : bool :=
  match o with
  | Some s => negb (String.eqb s "")
  | None => false
  end.

(** [o || d] on strings *)
Definition orElse (o : option string) (d : string) : string :=
  match o with
  | Some s => if String.eqb s "" then d else s
  | None => d
  end.

(** An entry of a [users_list] message *)
Record UserInfo : Type := {
  info_id : string;
  info_username : string;
  info_status : Status;
  info_ip : string;
  info_isAdmin : option bool
}.

(** [interface RTCSignal] of the signaling controller; [sdp] and
    [candidate] are opaque payloads. *)
Inductive SignalType : Type := offer | answer | candidate.

Record RTCSignal : Type := {
  signalType : SignalType;
  sdp : option string;
  iceCandidate : option string;
  target : string;
  source : string
}.

(** The objects handed to [JSON.stringify] and sent *)
Inductive Message : Type :=
| Connected (message : string) (timestamp : Z)
| Welcome (message userId : string) (gameState : GameState)
| ErrorMsg (message : string)
| AuthResponse (success : bool) (token : option string) (message : string)
| CommandResponse (success : bool) (message : string)
| UsersList (users : list UserInfo)
| GameStateMsg (state : GameState)
| Broadcast (message : string) (timestamp : Z)
| NumberCalled (number : Num.t) (calledNumbers : list Num.t)
| WinnerAnnounced (id username pattern : string)
| StatsUpdate (totalUsers : nat) (activeGames : Z) (totalRevenue : Z)
    (timestamp : option Z)
| RtcForward (data : Data.t) (fromUserId : option string)
    (* [{...data, fromUserId}]: the fields of [data] as they came, and
       [fromUserId], which [JSON.stringify] leaves out when undefined *)
| RtcSignalMsg (signal : RTCSignal).

(** The sources of time and randomness of one handler run. *)
Record Oracle : Type := {
  now : Z;                (* Date.now() *)
  random1 : string;       (* first Math.random().toString(36) *)
  random2 : string;       (* second Math.random().toString(36) *)
  newToken : string       (* generateToken() *)
}.

(** The whole mutable state of the hub, and the wire. *)
Record Hub : Type := {
  users : JsMap.t User;
  adminTokens : JsMap.t TokenData;
  gameState : GameState;
  wire : list (WebSocket * Message)
}.

Definition initialGame : GameState :=
  {| active := false; currentNumber := None; calledNumbers := [];
     players := []; winner := None |}.

Definition initialHub : Hub :=
  {| users := JsMap.empty; adminTokens := JsMap.empty;
     gameState := initialGame; wire := [] |}.

Definition withUsers (f : JsMap.t User -> JsMap.t User) (h : Hub) : Hub :=
  {| users := f (users h); adminTokens := adminTokens h;
     gameState := gameState h; wire := wire h |}.

Definition withTokens (f : JsMap.t TokenData -> JsMap.t TokenData)
    (h : Hub) : Hub :=
  {| users := users h; adminTokens := f (adminTokens h);
     gameState := gameState h; wire := wire h |}.

Definition withGame (f : GameState -> GameState) (h : Hub) : Hub :=
  {| users := users h; adminTokens := adminTokens h;
     gameState := f (gameState h); wire := wire h |}.

Definition withWire (f : list (WebSocket * Message) -> list (WebSocket * Message))
    (h : Hub) : Hub :=
  {| users := users h; adminTokens := adminTokens h;
     gameState := gameState h; wire := f (wire h) |}.

(** [24 * 60 * 60 * 1000] *)
Definition DAY_MS : Z := 24 * 60 * 60 * 1000.

Definition ADMIN_PASSWORD : string := "we17me78".

(** [password === ADMIN_PASSWORD] *)
Definition verifyAdminPassword (password : option string) : bool :=
  match password with
  | Some p => String.eqb p ADMIN_PASSWORD
  | None => false
  end.

(** Decimal rendering of [Date.now()], a whole number of milliseconds,
    inside a template literal. *)
Definition show (z : Z) : string := NilZero.string_of_int (Z.to_int z).

Definition dquote : string := String (ascii_of_nat 34) EmptyString.

(** The characters that open the two broadcast texts of
    [handleAdminCommand], as the UTF-8 bytes of the literals in the
    source: U+F8FF U+00FC U+00E9 U+00E2 before [Winner announced], and
    U+F8FF U+00FC U+00ED U+221E before [Prize pool updated]. *)
Definition utf8 (bytes : list nat) : string :=
  fold_right (fun b s => String (ascii_of_nat b) s) EmptyString bytes.
Definition winnerMark : string :=
  utf8 [239; 163; 191; 195; 188; 195; 169; 195; 162]%nat.
Definition prizeMark : string :=
  utf8 [239; 163; 191; 195; 188; 195; 173; 226; 136; 158]%nat.

(** [n.toString(radix)] for a natural number: the digits, the most
    significant first, [0-9] then [a-z]; the fuel is the number of bits
    of [n], which bounds the number of digits. *)
Definition digitChar (d : N) : ascii :=
  if (d <? 10)%N then ascii_of_N (48 + d) else ascii_of_N (87 + d).

Fixpoint toStringFuel (fuel : nat) (radix n : N) (acc : string) : string :=
  match fuel with
  | O => acc
  | S fuel' =>
      let acc' := String (digitChar (n mod radix)%N) acc in
      if (n <? radix)%N then acc'
      else toStringFuel fuel' radix (n / radix)%N acc'
  end.

Definition toString (radix n : N) : string :=
  toStringFuel (S (N.to_nat (N.log2 n))) radix n "".

(** [s.padStart(len, c)] *)
Fixpoint repeatChar (n : nat) (c : ascii) : string :=
  match n with
  | O => ""
  | S n' => String c (repeatChar n' c)
  end.

Definition padStart (len : nat) (c : ascii) (s : string) : string :=
  repeatChar (len - String.length s) c ++ s.

(** [byte => byte.toString(16).padStart(2, '0')] *)
Definition byteHex (byte : N) : string :=
  padStart 2 "0"%char (toString 16 byte).

(** [Array.from(array, byte => ...).join('')] *)
Definition hexOfBytes (array : list N) : string :=
  String.concat "" (map byteHex array).

(* ================================================================== *)
(** * Effects: state, wire and exceptions *)
(* ================================================================== *)

Inductive Outcome (A : Type) : Type :=
| Returned (a : A)
| Threw.
Arguments Returned {A} a.
Arguments Threw {A}.

Definition M (A : Type) : Type := Hub -> Outcome A * Hub.

Definition ret {A : Type} (a : A) : M A := fun h => (Returned a, h).

Definition bind {A B : Type} (m : M A) (k : A -> M B) : M B :=
  fun h =>
    match m h with
    | (Returned a, h') => k a h'
    | (Threw, h') => (Threw, h')
    end.

Declare Scope hub_scope.
Delimit Scope hub_scope with hub.
Notation "x <- c1 ;; c2" := (bind c1 (fun x => c2))
  (at level 61, c1 at next level, right associativity) : hub_scope.
Notation "c1 ;; c2" := (bind c1 (fun _ => c2))
  (at level 61, right associativity) : hub_scope.
Open Scope hub_scope.

Definition gets {A : Type} (f : Hub -> A) : M A := fun h => (Returned (f h), h).

Definition modify (f : Hub -> Hub) : M unit := fun h => (Returned tt, f h).

(** [try { body } catch (error) { console.error(...) }] *)
Definition tryCatch (body : M unit) : M unit :=
  fun h =>
    match body h with
    | (Returned a, h') => (Returned a, h')
    | (Threw, h') => (Returned tt, h')
    end.

(** [xs.forEach(f)] *)
Fixpoint forEach {A : Type} (xs : list A) (f : A -> M unit) : M unit :=
  match xs with
  | [] => ret tt
  | x :: xs' => f x ;; forEach xs' f
  end.

(** [switch (x) { case k: body; break; ... default: body }] on a string *)
Definition isCase (x : option string) (k : string) : bool :=
  match x with
  | Some s => String.eqb s k
  | None => false
  end.

Fixpoint switch {A : Type} (x : option string) (cases : list (string * A))
    (default : A) : A :=
  match cases with
  | [] => default
  | (k, body) :: rest => if isCase x k then body else switch x rest default
  end.

(** The final state and the outcome of a run. *)
Definition exec {A : Type} (m : M A) (h : Hub) : Hub := snd (m h).
Definition outcome {A : Type} (m : M A) (h : Hub) : Outcome A := fst (m h).

(** The calls of [send] a run adds to the wire. *)
Definition sentBy {A : Type} (m : M A) (h : Hub) : list (WebSocket * Message) :=
  skipn (List.length (wire h)) (wire (exec m h)).

Section Transport.
Variable w : World.

(** [socket.send(JSON.stringify(msg))]: the call is put on the wire,
    and raises when the transport says so. *)
Definition send (s : WebSocket) (msg : Message) : M unit :=
  fun h =>
    let h' := withWire (fun l => (l ++ [(s, msg)])%list) h in
    if sendThrows w s then (Threw, h') else (Returned tt, h').

Definition socketOpen (s : WebSocket) : bool := isOpen (readyState w s).

(** The calls of [send] that did not raise. *)
Definition delivered (l : list (WebSocket * Message)) : list (WebSocket * Message) :=
  filter (fun e => negb (sendThrows w (fst e))) l.

End Transport.

(* ================================================================== *)
(** * Code the two server variants have in common, word for word *)
(* ================================================================== *)

(** [u.socket === socket] *)
Definition onSocket (sock : WebSocket) (u : User) : bool :=
  Nat.eqb (socket u) sock.

(** The assignments to [gameState] of the admin commands [start_game],
    [pause_game] and [reset_game] *)
Definition startGame (g : GameState) : GameState :=
  {| active := true; currentNumber := None; calledNumbers := [];
     players := players g; winner := None |}.

Definition pauseGame (g : GameState) : GameState :=
  {| active := false; currentNumber := currentNumber g;
     calledNumbers := calledNumbers g; players := players g;
     winner := winner g |}.

Definition resetGame (g : GameState) : GameState :=
  {| active := false; currentNumber := None; calledNumbers := [];
     players := players g; winner := None |}.

Definition commandName (data : Data.t) : string :=
  match Data.command data with Some c => c | None => "undefined" end.

(** [data.data?.f || d] *)
Definition payloadField (data : Data.t) (f : Data.Payload -> option string)
    (d : string) : string :=
  match Data.data data with
  | Some p => orElse (f p) d
  | None => d
  end.

(** [data.data?.amount || 0], as a template literal prints it *)
Definition payloadAmount (data : Data.t) : string :=
  match Data.data data with
  | Some p => match Data.amount p with Some a => a | None => "0" end
  | None => "0"
  end.

(** [users.get(data.targetUserId)] *)
Definition getUser (key : option string) (h : Hub) : option User :=
  match key with
  | Some k => JsMap.get k (users h)
  | None => None
  end.

(** [calledNumbers.includes(number)] *)
Definition includes (l : list Num.t) (n : Num.t) : bool :=
  existsb (Z.eqb n) l.

(** [calledNumbers.push(number); currentNumber = number] *)
Definition callNumber (n : Num.t) (g : GameState) : GameState :=
  {| active := active g; currentNumber := Some n;
     calledNumbers := (calledNumbers g ++ [n])%list; players := players g;
     winner := winner g |}.

(** [gameState.winner = user.id] *)
Definition setWinner (who : string) (g : GameState) : GameState :=
  {| active := active g; currentNumber := currentNumber g;
     calledNumbers := calledNumbers g; players := players g;
     winner := Some who |}.


(** What can happen to the hub: a socket opens ([onopen]), a message
    arrives on it ([onmessage]), it closes ([onclose]), or one of the
    timers fires. *)
Inductive Event : Type :=
| Opened (sock : WebSocket)
| Inbound (sock : WebSocket) (data : Data.t) (ip_ : string)
| Closed (sock : WebSocket)
| PresenceTimer
| TokenTimer
| TempUserTimer.

(* ================================================================== *)
(** * [backend/server.ts] (src/unnamed/part_000, first document) *)
(* ================================================================== *)

Module Server.

Section Handlers.
Variable w : World.
Variable o : Oracle.

(** [id.startsWith('temp_')] *)
Definition isTemp (userId : string) : bool := String.prefix "temp_" userId.

(** [function generateToken()]; [array] is the content of the
    [Uint8Array(32)] after [crypto.getRandomValues]. *)
Definition generateToken (array : list N) : string :=
  hexOfBytes array ++ "_" ++ toString 36 (Z.to_N (now o)).

(** [function broadcastToAll(message)] *)
Definition broadcastToAll (message : Message) : M unit :=
  us <- gets (fun h => JsMap.values (users h)) ;;
  forEach us (fun user =>
    if socketOpen w (socket user)
    then tryCatch (send w (socket user) message)
    else ret tt).

Definition toInfo (user : User) : UserInfo :=
  {| info_id := id user; info_username := username user;
     info_status := status user; info_ip := ip user;
     info_isAdmin := Some (isAdmin user) |}.

(** The [userList] computed by [broadcastUserList] and [sendUserList] *)
Definition userList (h : Hub) : list UserInfo :=
  map toInfo
    (filter (fun user => negb (isTemp (id user))) (JsMap.values (users h))).

(** [function broadcastUserList()] *)
Definition broadcastUserList : M unit :=
  l <- gets userList ;;
  broadcastToAll (UsersList l).

(** [function sendUserList(socket)] *)
Definition sendUserList (sock : WebSocket) : M unit :=
  l <- gets userList ;;
  send w sock (UsersList l).

(** [function broadcastGameState()] *)
Definition broadcastGameState : M unit :=
  g <- gets gameState ;;
  broadcastToAll (GameStateMsg g).

(** [function broadcastMessage(message)] *)
Definition broadcastMessage (message : string) : M unit :=
  broadcastToAll (Broadcast message (now o)).

(** [function calculateRevenue()] *)
Definition calculateRevenue (h : Hub) : Z :=
  Z.of_nat
    (List.length
       (filter (fun user => negb (isTemp (id user))) (JsMap.values (users h))))
  * 25.

(** [function handleGetStats(socket)] *)
Definition handleGetStats (sock : WebSocket) : M unit :=
  revenue <- gets calculateRevenue ;;
  h <- gets (fun h => h) ;;
  send w sock
    (StatsUpdate (JsMap.size (users h))
       (if active (gameState h) then 1 else 0) revenue (Some (now o))) ;;
  sendUserList sock.

(** [function handleUserJoin(socket, data, ip)] *)
Definition handleUserJoin (sock : WebSocket) (data : Data.t) (ip_ : string)
  : M unit :=
  let userId_ :=
    orElse (Data.userId data)
      ("user_" ++ show (now o) ++ "_" ++ substring 2 7 (random1 o)) in
  let username_ :=
    orElse (Data.username data)
      ("Player_" ++ substring 2 3 (random2 o)) in
  let user :=
    {| id := userId_; username := username_; socket := sock; ip := ip_;
       status := online; isAdmin := false; token := None;
       lastSeen := now o |} in
  modify (withUsers (JsMap.set userId_ user)) ;;
  g <- gets gameState ;;
  send w sock (Welcome "Welcome to Assefa Digital Bingo!" userId_ g) ;;
  broadcastUserList.

(** [function handleAdminAuth(socket, data)] *)
Definition handleAdminAuth (sock : WebSocket) (data : Data.t) : M unit :=
  if verifyAdminPassword (Data.password data) then
    let token_ := newToken o in
    let userId_ := "admin_" ++ show (now o) in
    existingUserId <- gets (fun h => JsMap.findKey (onSocket sock) (users h)) ;;
    (match existingUserId with
     | Some k => if truthy (Some k)
                 then modify (withUsers (JsMap.delete k))
                 else ret tt
     | None => ret tt
     end) ;;
    let adminUser :=
      {| id := userId_; username := "Admin"; socket := sock; ip := "admin";
         status := online; isAdmin := true; token := Some token_;
         lastSeen := now o |} in
    modify (withUsers (JsMap.set userId_ adminUser)) ;;
    modify (withTokens
              (JsMap.set token_
                 {| userId := id adminUser; expires := now o + DAY_MS |})) ;;
    send w sock
      (AuthResponse true (Some token_) "Authentication successful") ;;
    handleGetStats sock
  else
    send w sock (AuthResponse false None "Invalid password").

(** The [switch (data.command)] of [handleAdminCommand] *)
Definition runCommand (sock : WebSocket) (data : Data.t) : M unit :=
  switch (Data.command data)
    [ ("start_game",
        modify (withGame startGame) ;; broadcastGameState);
      ("pause_game",
        modify (withGame pauseGame) ;; broadcastGameState);
      ("reset_game",
        modify (withGame resetGame) ;; broadcastGameState);
      ("announce_winner",
        let winnerName := payloadField data Data.winner "Anonymous" in
        broadcastMessage
          (winnerMark ++ " Winner announced: " ++ winnerName ++ "!"));
      ("broadcast_message",
        broadcastMessage (payloadField data Data.message "Admin broadcast"));
      ("update_prize_pool",
        broadcastMessage
          (prizeMark ++ " Prize pool updated to " ++ payloadAmount data
             ++ " ETB"));
      ("get_users", sendUserList sock) ]
    (ret tt).

(** [function handleAdminCommand(socket, data)] *)
Definition handleAdminCommand (sock : WebSocket) (data : Data.t) : M unit :=
  user <- gets (fun h => JsMap.findValue (onSocket sock) (users h)) ;;
  match user with
  | Some u =>
      if isAdmin u then
        runCommand sock data ;;
        send w sock
          (CommandResponse true
             ("Command " ++ dquote ++ commandName data ++ dquote
                ++ " executed successfully"))
      else
        send w sock (CommandResponse false "Unauthorized - Not an admin")
  | None =>
      send w sock (CommandResponse false "Unauthorized - Not an admin")
  end.

(** [function handleRTCMessage(socket, data)] *)
Definition handleRTCMessage (sock : WebSocket) (data : Data.t) : M unit :=
  targetUser <- gets (getUser (Data.targetUserId data)) ;;
  match targetUser with
  | Some target =>
      if socketOpen w (socket target) then
        fromUserId <- gets (fun h => JsMap.findKey (onSocket sock) (users h)) ;;
        send w (socket target) (RtcForward data fromUserId)
      else ret tt
  | None => ret tt
  end.

(** [function handleCallNumber(socket, data)] *)
Definition handleCallNumber (sock : WebSocket) (data : Data.t) : M unit :=
  g <- gets gameState ;;
  if negb (active g) then ret tt
  else
    match Data.number data with
    | Some number_ =>
        if (Num.ofInt 1 <=? number_) && (number_ <=? Num.ofInt 90)
           && negb (includes (calledNumbers g) number_)
        then
          modify (withGame (callNumber number_)) ;;
          g' <- gets gameState ;;
          broadcastToAll (NumberCalled number_ (calledNumbers g'))
        else ret tt
    | None => ret tt
    end.

(** [function handleMarkNumber(socket, data)] *)
Definition handleMarkNumber (sock : WebSocket) (data : Data.t) : M unit :=
  ret tt.

(** [function handleAnnounceWin(socket, data)] *)
Definition handleAnnounceWin (sock : WebSocket) (data : Data.t) : M unit :=
  user <- gets (fun h => JsMap.findValue (onSocket sock) (users h)) ;;
  match user, Data.pattern data with
  | Some u, Some pat =>
      if truthy (Some pat) then
        modify (withGame (setWinner (id u))) ;;
        broadcastToAll (WinnerAnnounced (id u) (username u) pat)
      else ret tt
  | _, _ => ret tt
  end.

(** [function handleWebSocketMessage(socket, data, ip)] *)
Definition handleWebSocketMessage (sock : WebSocket) (data : Data.t)
    (ip_ : string) : M unit :=
  switch (Data.type data)
    [ ("user_join", handleUserJoin sock data ip_);
      ("admin_auth", handleAdminAuth sock data);
      ("get_stats", handleGetStats sock);
      ("admin_command", handleAdminCommand sock data);
      ("rtc_offer", handleRTCMessage sock data);
      ("rtc_answer", handleRTCMessage sock data);
      ("ice_candidate", handleRTCMessage sock data);
      ("call_number", handleCallNumber sock data);
      ("mark_number", handleMarkNumber sock data);
      ("announce_win", handleAnnounceWin sock data);
      ("client_connected",
        let tempId :=
          "temp_" ++ show (now o) ++ "_" ++ substring 2 7 (random1 o) in
        let tempUser :=
          {| id := tempId; username := "Guest"; socket := sock; ip := ip_;
             status := online; isAdmin := false; token := None;
             lastSeen := now o |} in
        modify (withUsers (JsMap.set tempId tempUser))) ]
    (send w sock (ErrorMsg "Unknown message type")).

(** [socket.onmessage]: whatever the handler raises is caught. *)
Definition onmessage (sock : WebSocket) (data : Data.t) (ip_ : string)
  : M unit :=
  tryCatch (handleWebSocketMessage sock data ip_).

(** [function handleDisconnection(socket)]; the presence broadcast is
    deferred by [setTimeout] and is a run of [broadcastUserList] of its
    own. *)
Definition handleDisconnection (sock : WebSocket) : M unit :=
  userId_ <- gets (fun h => JsMap.findKey (onSocket sock) (users h)) ;;
  match userId_ with
  | Some k => if truthy (Some k)
              then modify (withUsers (JsMap.delete k))
              else ret tt
  | None => ret tt
  end.

(** The body of the first [setInterval]: expired tokens are removed. *)
Definition sweepTokens : M unit :=
  modify (withTokens (JsMap.sweep (fun _ value => expires value <? now o))).

(** The body of the second [setInterval]: idle temporary users. *)
Definition sweepTempUsers : M unit :=
  modify (withUsers
            (JsMap.sweep (fun userId_ user =>
               isTemp userId_ && (5 * 60 * 1000 <? now o - lastSeen user)))).

(** [socket.onopen] *)
Definition onopen (sock : WebSocket) : M unit :=
  send w sock
    (Connected "Connected to Assefa Digital Bingo Server" (now o)).

(** One event, handled to completion. *)
Definition step (e : Event) : M unit :=
  match e with
  | Opened sock => onopen sock
  | Inbound sock data ip_ => onmessage sock data ip_
  | Closed sock => handleDisconnection sock
  | PresenceTimer => broadcastUserList
  | TokenTimer => sweepTokens
  | TempUserTimer => sweepTempUsers
  end.

End Handlers.

(** A history of the hub: the events in the order they are handled, each
    with the world and the oracle of its instant. *)
Fixpoint run (history : list (World * Oracle * Event)) (h : Hub) : Hub :=
  match history with
  | [] => h
  | (w, o, e) :: rest => run rest (exec (step w o e) h)
  end.

End Server.

(* ================================================================== *)
(** * The token-checking server (src/utilshelpers.ts, second document) *)
(* ================================================================== *)

Module TokenServer.

Section Handlers.
Variable w : World.
Variable o : Oracle.

(** [function generateToken()]; [uuid] is what [crypto.randomUUID()]
    gives. *)
Definition generateToken (uuid : string) : string :=
  uuid ++ "_" ++ toString 36 (Z.to_N (now o)).

(** [function broadcastToAll(message)]: no [try] around [send] here. *)
Definition broadcastToAll (message : Message) : M unit :=
  us <- gets (fun h => JsMap.values (users h)) ;;
  forEach us (fun user =>
    if socketOpen w (socket user)
    then send w (socket user) message
    else ret tt).

Definition toInfo (user : User) : UserInfo :=
  {| info_id := id user; info_username := username user;
     info_status := status user; info_ip := ip user;
     info_isAdmin := None |}.

Definition userList (h : Hub) : list UserInfo :=
  map toInfo (JsMap.values (users h)).

(** [function broadcastUserList()] *)
Definition broadcastUserList : M unit :=
  l <- gets userList ;;
  broadcastToAll (UsersList l).

(** [function sendUserList(socket)] *)
Definition sendUserList (sock : WebSocket) : M unit :=
  l <- gets userList ;;
  send w sock (UsersList l).

(** [function broadcastGameState()] *)
Definition broadcastGameState : M unit :=
  g <- gets gameState ;;
  broadcastToAll (GameStateMsg g).

(** [function broadcastMessage(message)] *)
Definition broadcastMessage (message : string) : M unit :=
  broadcastToAll (Broadcast message (now o)).

(** [function calculateRevenue()] *)
Definition calculateRevenue (h : Hub) : Z :=
  Z.of_nat (JsMap.size (users h)) * 25.

(** [function handleGetStats(socket, data)] *)
Definition handleGetStats (sock : WebSocket) (data : Data.t) : M unit :=
  h <- gets (fun h => h) ;;
  send w sock
    (StatsUpdate (JsMap.size (users h))
       (if active (gameState h) then 1 else 0) (calculateRevenue h) None).

(** [function handleUserJoin(socket, data, ip)] *)
Definition handleUserJoin (sock : WebSocket) (data : Data.t) (ip_ : string)
  : M unit :=
  let userId_ :=
    orElse (Data.userId data)
      ("user_" ++ show (now o) ++ "_" ++ substring 2 9 (random1 o)) in
  let username_ :=
    orElse (Data.username data)
      ("Player_" ++ substring 2 5 (random2 o)) in
  let user :=
    {| id := userId_; username := username_; socket := sock; ip := ip_;
       status := online; isAdmin := false; token := None;
       lastSeen := now o |} in
  modify (withUsers (JsMap.set userId_ user)) ;;
  g <- gets gameState ;;
  send w sock (Welcome "Welcome to Assefa Digital Bingo!" userId_ g) ;;
  broadcastUserList.

(** [adminUser.isAdmin = true; adminUser.token = token] *)
Definition upgrade (token_ : string) (u : User) : User :=
  {| id := id u; username := username u; socket := socket u; ip := ip u;
     status := status u; isAdmin := true; token := Some token_;
     lastSeen := lastSeen u |}.

(** [function handleAdminAuth(socket, data)] *)
Definition handleAdminAuth (sock : WebSocket) (data : Data.t) : M unit :=
  if verifyAdminPassword (Data.password data) then
    let token_ := newToken o in
    let userId_ := "admin_" ++ show (now o) in
    found <- gets (fun h => JsMap.findValue (onSocket sock) (users h)) ;;
    adminUser <-
      (match found with
       | None =>
           let fresh :=
             {| id := userId_; username := "Admin"; socket := sock;
                ip := "admin"; status := online; isAdmin := true;
                token := Some token_; lastSeen := now o |} in
           modify (withUsers (JsMap.set userId_ fresh)) ;;
           ret fresh
       | Some u =>
           modify (withUsers
                     (JsMap.mutateFirst (onSocket sock) (upgrade token_))) ;;
           ret (upgrade token_ u)
       end) ;;
    modify (withTokens
              (JsMap.set token_
                 {| userId := id adminUser; expires := now o + DAY_MS |})) ;;
    send w sock
      (AuthResponse true (Some token_) "Authentication successful")
  else
    send w sock (AuthResponse false None "Invalid password").

(** [adminTokens.get(data.token)] *)
Definition getToken (key : option string) (h : Hub) : option TokenData :=
  match key with
  | Some k => JsMap.get k (adminTokens h)
  | None => None
  end.

(** The [switch (data.command)] of [handleAdminCommand] *)
Definition runCommand (sock : WebSocket) (data : Data.t) : M unit :=
  switch (Data.command data)
    [ ("start_game",
        modify (withGame startGame) ;; broadcastGameState);
      ("pause_game",
        modify (withGame pauseGame) ;; broadcastGameState);
      ("reset_game",
        modify (withGame resetGame) ;; broadcastGameState);
      ("announce_winner", ret tt);
      ("broadcast_message",
        broadcastMessage (payloadField data Data.message "Admin broadcast"));
      ("update_prize_pool", ret tt);
      ("get_users", sendUserList sock) ]
    (ret tt).

(** [function handleAdminCommand(socket, data)] *)
Definition handleAdminCommand (sock : WebSocket) (data : Data.t) : M unit :=
  tokenData <- gets (getToken (Data.token data)) ;;
  match tokenData with
  | None =>
      send w sock (CommandResponse false "Invalid or expired token")
  | Some td =>
      if expires td <? now o then
        send w sock (CommandResponse false "Invalid or expired token")
      else
        adminUser <- gets (fun h => JsMap.get (userId td) (users h)) ;;
        match adminUser with
        | None => send w sock (CommandResponse false "Unauthorized")
        | Some u =>
            if negb (isAdmin u) then
              send w sock (CommandResponse false "Unauthorized")
            else
              runCommand sock data ;;
              send w sock
                (CommandResponse true
                   ("Command " ++ dquote ++ commandName data ++ dquote
                      ++ " executed"))
        end
  end.

(** [function handleRTCMessage(socket, data)] *)
Definition handleRTCMessage (sock : WebSocket) (data : Data.t) : M unit :=
  targetUser <- gets (getUser (Data.targetUserId data)) ;;
  match targetUser with
  | Some target =>
      if socketOpen w (socket target) then
        fromUserId <- gets (fun h => JsMap.findKey (onSocket sock) (users h)) ;;
        send w (socket target) (RtcForward data fromUserId)
      else ret tt
  | None => ret tt
  end.

(** [function handleCallNumber(socket, data)] *)
Definition handleCallNumber (sock : WebSocket) (data : Data.t) : M unit :=
  g <- gets gameState ;;
  if negb (active g) then ret tt
  else
    match Data.number data with
    | Some number_ =>
        if (Num.ofInt 1 <=? number_) && (number_ <=? Num.ofInt 90)
           && negb (includes (calledNumbers g) number_)
        then
          modify (withGame (callNumber number_)) ;;
          g' <- gets gameState ;;
          broadcastToAll (NumberCalled number_ (calledNumbers g'))
        else ret tt
    | None => ret tt
    end.

(** [function handleMarkNumber(socket, data)] *)
Definition handleMarkNumber (sock : WebSocket) (data : Data.t) : M unit :=
  ret tt.

(** [function handleAnnounceWin(socket, data)] *)
Definition handleAnnounceWin (sock : WebSocket) (data : Data.t) : M unit :=
  user <- gets (fun h => JsMap.findValue (onSocket sock) (users h)) ;;
  match user, Data.pattern data with
  | Some u, Some pat =>
      if truthy (Some pat) then
        modify (withGame (setWinner (id u))) ;;
        broadcastToAll (WinnerAnnounced (id u) (username u) pat)
      else ret tt
  | _, _ => ret tt
  end.

(** [async function handleWebSocketMessage(socket, data, ip)] *)
Definition handleWebSocketMessage (sock : WebSocket) (data : Data.t)
    (ip_ : string) : M unit :=
  switch (Data.type data)
    [ ("user_join", handleUserJoin sock data ip_);
      ("admin_auth", handleAdminAuth sock data);
      ("get_stats", handleGetStats sock data);
      ("admin_command", handleAdminCommand sock data);
      ("rtc_offer", handleRTCMessage sock data);
      ("rtc_answer", handleRTCMessage sock data);
      ("ice_candidate", handleRTCMessage sock data);
      ("call_number", handleCallNumber sock data);
      ("mark_number", handleMarkNumber sock data);
      ("announce_win", handleAnnounceWin sock data) ]
    (ret tt).

(** [socket.onmessage] *)
Definition onmessage (sock : WebSocket) (data : Data.t) (ip_ : string)
  : M unit :=
  tryCatch (handleWebSocketMessage sock data ip_).

(** [function handleDisconnection(socket)] *)
Definition handleDisconnection (sock : WebSocket) : M unit :=
  userId_ <- gets (fun h => JsMap.findKey (onSocket sock) (users h)) ;;
  match userId_ with
  | Some k => if truthy (Some k)
              then modify (withUsers (JsMap.delete k)) ;; broadcastUserList
              else ret tt
  | None => ret tt
  end.

(** The body of the [setInterval]: expired tokens are removed. *)
Definition sweepTokens : M unit :=
  modify (withTokens (JsMap.sweep (fun _ value => expires value <? now o))).

(** One event, handled to completion; in this variant [onopen] only
    logs, and there is no deferred presence broadcast and no sweep of
    temporary users. *)
Definition step (e : Event) : M unit :=
  match e with
  | Inbound sock data ip_ => onmessage sock data ip_
  | Closed sock => handleDisconnection sock
  | TokenTimer => sweepTokens
  | Opened _ | PresenceTimer | TempUserTimer => ret tt
  end.

End Handlers.

Fixpoint run (history : list (World * Oracle * Event)) (h : Hub) : Hub :=
  match history with
  | [] => h
  | (w, o, e) :: rest => run rest (exec (step w o e) h)
  end.

End TokenServer.

(* ================================================================== *)
(** * [class AdminController] (src/admin.ts) *)
(* ================================================================== *)

Module Admin.

(** [private adminUsers = new Set<string>()], in insertion order *)
Record AdminController : Type := {
  adminUsers : list string
}.

Definition create : AdminController := {| adminUsers := [] |}.

Record AuthResult : Type := {
  success : bool;
  token : option string
}.

(** [authenticate(password)]; [uuid] is what [crypto.randomUUID()]
    gives. *)
Definition authenticate (self : AdminController) (uuid : string)
    (password : string) : AuthResult :=
  if String.eqb password "we17me78"
  then {| success := true; token := Some uuid |}
  else {| success := false; token := None |}.

(** [verifyToken(token)] *)
Definition verifyToken (self : AdminController) (token_ : string) : bool :=
  true.

Definition has (self : AdminController) (userId_ : string) : bool :=
  existsb (String.eqb userId_) (adminUsers self).

(** [isAdmin(userId)] *)
Definition isAdmin (self : AdminController) (userId_ : string) : bool :=
  has self userId_.

(** [grantAdmin(userId)] *)
Definition grantAdmin (self : AdminController) (userId_ : string)
  : AdminController :=
  if has self userId_ then self
  else {| adminUsers := (adminUsers self ++ [userId_])%list |}.

(** [revokeAdmin(userId)] *)
Definition revokeAdmin (self : AdminController) (userId_ : string)
  : AdminController :=
  {| adminUsers :=
       filter (fun u => negb (String.eqb userId_ u)) (adminUsers self) |}.

(** [getAdminStats()] *)
Record AdminStats : Type := {
  totalAdmins : nat;
  adminUsersList : list string
}.

Definition getAdminStats (self : AdminController) : AdminStats :=
  {| totalAdmins := List.length (adminUsers self);
     adminUsersList := adminUsers self |}.

End Admin.

(* ================================================================== *)
(** * [class SignalingController] (src/signaling.ts) *)
(* ================================================================== *)

Module Signaling.

(** [private connections = new Map<string, WebSocket>()] *)
Record SignalingController : Type := {
  connections : JsMap.t WebSocket
}.

(** [handleSignal(ws, signal)], as the list of its calls of [send].
    In [{type: 'rtc_signal', ...signal}] the spread comes last, so
    the [type] of the signal wins and the object sent has the fields
    of [signal], nothing more. *)
Definition handleSignal (w : World) (self : SignalingController)
    (ws : WebSocket) (signal : RTCSignal) : list (WebSocket * Message) :=
  match JsMap.get (target signal) (connections self) with
  | Some targetWs =>
      if socketOpen w targetWs then [(targetWs, RtcSignalMsg signal)] else []
  | None => []
  end.

(** [registerConnection(userId, ws)] *)
Definition registerConnection (self : SignalingController)
    (userId_ : string) (ws : WebSocket) : SignalingController :=
  {| connections := JsMap.set userId_ ws (connections self) |}.

(** [unregisterConnection(userId)] *)
Definition unregisterConnection (self : SignalingController)
    (userId_ : string) : SignalingController :=
  {| connections := JsMap.delete userId_ (connections self) |}.

(** [getConnectedUsers()] *)
Definition getConnectedUsers (self : SignalingController) : list string :=
  JsMap.keys (connections self).

End Signaling.

(* ================================================================== *)
(** * Regular expressions *)
(* ================================================================== *)

(** The regular expressions of the sources use character classes,
    concatenation and [+] only; a literal is embedded as a term of
    [Regex.t] and run by derivatives.  A string is its sequence of
    characters. *)
Module Regex.

Inductive t : Type :=
| Empty
| Eps
| Class (p : ascii -> bool)
| Seq (r1 r2 : t)
| Alt (r1 r2 : t)
| Star (r : t).

(** [r+] *)
Definition Plus (r : t) : t := Seq r (Star r).

(** a single character, as in [@] *)
Definition Chr (c : ascii) : t := Class (Ascii.eqb c).

Fixpoint nullable (r : t) : bool :=
  match r with
  | Empty => false
  | Eps => true
  | Class _ => false
  | Seq r1 r2 => nullable r1 && nullable r2
  | Alt r1 r2 => nullable r1 || nullable r2
  | Star _ => true
  end.

Fixpoint deriv (c : ascii) (r : t) : t :=
  match r with
  | Empty => Empty
  | Eps => Empty
  | Class p => if p c then Eps else Empty
  | Seq r1 r2 =>
      if nullable r1
      then Alt (Seq (deriv c r1) r2) (deriv c r2)
      else Seq (deriv c r1) r2
  | Alt r1 r2 => Alt (deriv c r1) (deriv c r2)
  | Star r1 => Seq (deriv c r1) (Star r1)
  end.

Fixpoint matches (r : t) (s : list ascii) : bool :=
  match s with
  | [] => nullable r
  | c :: s' => matches (deriv c r) s'
  end.

(** [/^r$/.test(s)] *)
Definition testAnchored (r : t) (s : string) : bool :=
  matches r (list_ascii_of_string s).

(** [/r/.test(s)]: some part of [s] matches. *)
Definition test (r : t) (s : string) : bool :=
  let any := Star (Class (fun _ => true)) in
  matches (Seq any (Seq r any)) (list_ascii_of_string s).

(** The strings a regular expression denotes. *)
Inductive Lang : t -> list ascii -> Prop :=
| LEps : Lang Eps []
| LClass p c : p c = true -> Lang (Class p) [c]
| LSeq r1 r2 s1 s2 : Lang r1 s1 -> Lang r2 s2 -> Lang (Seq r1 r2) (s1 ++ s2)
| LAltL r1 r2 s : Lang r1 s -> Lang (Alt r1 r2) s
| LAltR r1 r2 s : Lang r2 s -> Lang (Alt r1 r2) s
| LStarNil r : Lang (Star r) []
| LStarCons r s1 s2 :
    Lang r s1 -> Lang (Star r) s2 -> Lang (Star r) (s1 ++ s2).

End Regex.

(** Character classes, on the code of the character. *)
Definition inRange (lo hi : nat) (c : ascii) : bool :=
  (lo <=? nat_of_ascii c)%nat && (nat_of_ascii c <=? hi)%nat.

(** [A-Z], [a-z], [\d] *)
Definition isUpper : ascii -> bool := inRange 65 90.
Definition isLower : ascii -> bool := inRange 97 122.
Definition isDigit : ascii -> bool := inRange 48 57.

(** [\s], among the characters below 256: tab, line feed, vertical tab,
    form feed, carriage return, space and no-break space. *)
Definition isSpace (c : ascii) : bool :=
  inRange 9 13 c || Nat.eqb (nat_of_ascii c) 32 || Nat.eqb (nat_of_ascii c) 160.

(* ================================================================== *)
(** * [class AuthUtils] (src/utilsauth.ts) *)
(* ================================================================== *)

Module AuthUtils.

(** [static validatePassword(password)] *)
Definition validatePassword (password : string) : bool :=
  (8 <=? String.length password)%nat
  && Regex.test (Regex.Class isUpper) password
  && Regex.test (Regex.Class isLower) password
  && Regex.test (Regex.Class isDigit) password.

(** [static generateSessionToken()]; [array] is the content of the
    [Uint8Array(32)] after [crypto.getRandomValues]. *)
Definition generateSessionToken (array : list N) : string :=
  hexOfBytes array.

End AuthUtils.

(* ================================================================== *)
(** * [class Helpers] (src/utilshelpers.ts, first document) *)
(* ================================================================== *)

Module Helpers.

(** [[^\s@]] *)
Definition plain (c : ascii) : bool :=
  negb (isSpace c || Ascii.eqb c "@").

(** [/^[^\s@]+@[^\s@]+\.[^\s@]+$/] *)
Definition emailRegex : Regex.t :=
  Regex.Seq (Regex.Plus (Regex.Class plain))
    (Regex.Seq (Regex.Chr "@")
       (Regex.Seq (Regex.Plus (Regex.Class plain))
          (Regex.Seq (Regex.Chr ".")
             (Regex.Plus (Regex.Class plain))))).

(** [static validateEmail(email)] *)
Definition validateEmail (email : string) : bool :=
  Regex.testAnchored emailRegex email.

End Helpers.

(* ================================================================== *)
(** * Vocabulary of the statements *)
(* ================================================================== *)

(** [P] is an invariant of the computation [m], whether it returns or
    raises. *)
Definition Inv {A : Type} (P : Hub -> Prop) (m : M A) : Prop :=
  forall h, P h -> P (exec m h).

(** The invariant of the game: the called numbers are distinct, each
    within 1..90, and the current number, when there is one, is the
    number called last. *)
Definition gameInv (g : GameState) : Prop :=
  NoDup (calledNumbers g) /\
  Forall (fun n => Num.ofInt 1 <= n <= Num.ofInt 90) (calledNumbers g) /\
  (forall c, currentNumber g = Some c ->
             exists before, calledNumbers g = (before ++ [c])%list).

(** The registry is keyed by the identity of its sessions, one entry per
    key. *)
Definition usersOk (m : JsMap.t User) : Prop :=
  NoDup (JsMap.keys m) /\ Forall (fun e => fst e = id (snd e)) m.

(** What a broadcast of [msg] puts on the wire: one [send] per session
    whose socket is open, in the order of the registry. *)
Definition fanout (w : World) (msg : Message) (m : JsMap.t User)
  : list (WebSocket * Message) :=
  map (fun u => (socket u, msg))
      (filter (fun u => socketOpen w (socket u)) (JsMap.values m)).

(** A session the broadcast can reach: its socket is open and [send]
    does not raise on it. *)
Definition reachable (w : World) (u : User) : bool :=
  socketOpen w (socket u) && negb (sendThrows w (socket u)).

Definition isCommandResponse (ok : bool) (e : WebSocket * Message) : bool :=
  match snd e with
  | CommandResponse b _ => Bool.eqb b ok
  | _ => false
  end.

(** The game after [handleCallNumber], as a function of the game before. *)
Definition calledAfter (n : Num.t) (g : GameState) : GameState :=
  if active g && (Num.ofInt 1 <=? n) && (n <=? Num.ofInt 90) && negb (includes (calledNumbers g) n)
  then callNumber n g
  else g.

(** ** Sample envelopes, worlds and histories, for the instances *)

Definition joinMsg (userId_ : string) : Data.t :=
  {| Data.type := Some "user_join"; Data.userId := Some userId_;
     Data.username := None; Data.password := None; Data.token := None;
     Data.command := None; Data.data := None; Data.targetUserId := None;
     Data.number := None; Data.pattern := None |}.

Definition authMsg (password_ : string) : Data.t :=
  {| Data.type := Some "admin_auth"; Data.userId := None;
     Data.username := None; Data.password := Some password_;
     Data.token := None; Data.command := None; Data.data := None;
     Data.targetUserId := None; Data.number := None; Data.pattern := None |}.

Definition commandMsg (token_ : option string) (command_ : string) : Data.t :=
  {| Data.type := Some "admin_command"; Data.userId := None;
     Data.username := None; Data.password := None; Data.token := token_;
     Data.command := Some command_; Data.data := None;
     Data.targetUserId := None; Data.number := None; Data.pattern := None |}.

Definition callMsg (n : Num.t) : Data.t :=
  {| Data.type := Some "call_number"; Data.userId := None;
     Data.username := None; Data.password := None; Data.token := None;
     Data.command := None; Data.data := None; Data.targetUserId := None;
     Data.number := Some n; Data.pattern := None |}.

Definition winMsg (pattern_ : option string) : Data.t :=
  {| Data.type := Some "announce_win"; Data.userId := None;
     Data.username := None; Data.password := None; Data.token := None;
     Data.command := None; Data.data := None; Data.targetUserId := None;
     Data.number := None; Data.pattern := pattern_ |}.

Definition offerMsg (target_ : string) : Data.t :=
  {| Data.type := Some "rtc_offer"; Data.userId := None;
     Data.username := None; Data.password := None; Data.token := None;
     Data.command := None; Data.data := None;
     Data.targetUserId := Some target_; Data.number := None;
     Data.pattern := None |}.

(** Every socket open, no [send] raises. *)
Definition calm : World :=
  {| readyState := fun _ => OPEN; sendThrows := fun _ => false |}.

(** Socket 2 is open and [send] raises on it. *)
Definition faulty2 : World :=
  {| readyState := fun _ => OPEN; sendThrows := fun s => Nat.eqb s 2 |}.

(** Socket 2 is closed. *)
Definition closed2 : World :=
  {| readyState := fun s => if Nat.eqb s 2 then CLOSED else OPEN;
     sendThrows := fun _ => false |}.

Definition oracleAt (t : Z) (token_ : string) : Oracle :=
  {| now := t; random1 := "0.k3j5h2x9qa7"; random2 := "0.z8y7w6v5u4t";
     newToken := token_ |}.

(** alice joins on socket 1. *)
Definition aliceJoined : Hub :=
  Server.run
    [(calm, oracleAt 1000 "", Inbound 1%nat (joinMsg "alice") "10.0.0.1")]
    initialHub.

(** alice, bob and carol join on sockets 1, 2 and 3. *)
Definition threeJoined : Hub :=
  Server.run
    [(calm, oracleAt 1000 "", Inbound 1%nat (joinMsg "alice") "10.0.0.1");
     (calm, oracleAt 1001 "", Inbound 2%nat (joinMsg "bob") "10.0.0.2");
     (calm, oracleAt 1002 "", Inbound 3%nat (joinMsg "carol") "10.0.0.3")]
    initialHub.

(** The session object [handleUserJoin] of [server.ts] builds. *)
Definition joinedUser (o : Oracle) (sock : WebSocket) (data : Data.t)
    (ip_ : string) : User :=
  {| id := orElse (Data.userId data)
             ("user_" ++ show (now o) ++ "_" ++ substring 2 7 (random1 o));
     username := orElse (Data.username data)
                   ("Player_" ++ substring 2 3 (random2 o));
     socket := sock; ip := ip_; status := online; isAdmin := false;
     token := None; lastSeen := now o |}.

(** The session object [handleAdminAuth] builds, in both variants. *)
Definition adminSession (o : Oracle) (sock : WebSocket) : User :=
  {| id := "admin_" ++ show (now o); username := "Admin"; socket := sock;
     ip := "admin"; status := online; isAdmin := true;
     token := Some (newToken o); lastSeen := now o |}.

(** The guards of [handleAdminCommand] in the token-checking variant: the
    message of the rejection, or [None] when the command goes through. *)
Definition tokenVerdict (o : Oracle) (data : Data.t) (h : Hub) : option string :=
  match TokenServer.getToken (Data.token data) h with
  | None => Some "Invalid or expired token"
  | Some td =>
      if expires td <? now o then Some "Invalid or expired token"
      else
        match JsMap.get (userId td) (users h) with
        | None => Some "Unauthorized"
        | Some u => if isAdmin u then None else Some "Unauthorized"
        end
  end.

(** The admin command is executed and acknowledged. *)
Definition executes (w : World) (o : Oracle) (sock : WebSocket)
    (data : Data.t) (h : Hub) : Prop :=
  TokenServer.handleAdminCommand w o sock data h =
  (TokenServer.runCommand w o sock data ;;
   send w sock
     (CommandResponse true
        ("Command " ++ dquote ++ commandName data ++ dquote ++ " executed")))
    h.

(** The admin command is answered with a refusal, and nothing else
    happens. *)
Definition rejects (w : World) (o : Oracle) (sock : WebSocket)
    (data : Data.t) (h : Hub) (why : string) : Prop :=
  TokenServer.handleAdminCommand w o sock data h =
  send w sock (CommandResponse false why) h.

(** A command without a valid admin authorization, in the words of the
    specification: the token is missing, unknown, expired, or its owner
    is not a registered admin session. *)
Inductive Unauthorized (o : Oracle) (data : Data.t) (h : Hub) : Prop :=
| TokenMissing :
    Data.token data = None -> Unauthorized o data h
| TokenUnknown t :
    Data.token data = Some t -> JsMap.get t (adminTokens h) = None ->
    Unauthorized o data h
| TokenExpired t td :
    Data.token data = Some t -> JsMap.get t (adminTokens h) = Some td ->
    expires td < now o ->
    Unauthorized o data h
| NoAdminSession t td :
    Data.token data = Some t -> JsMap.get t (adminTokens h) = Some td ->
    (forall u, JsMap.get (userId td) (users h) = Some u -> isAdmin u = false) ->
    Unauthorized o data h.

(** alice joins on socket 1 of the token-checking server and signs in as
    admin twice, getting the tokens t1 and then t2. *)
Definition twiceAuthenticated : Hub :=
  TokenServer.run
    [(calm, oracleAt 1000 "", Inbound 1%nat (joinMsg "alice") "10.0.0.1");
     (calm, oracleAt 2000 "t1", Inbound 1%nat (authMsg "we17me78") "10.0.0.1");
     (calm, oracleAt 3000 "t2", Inbound 1%nat (authMsg "we17me78") "10.0.0.1")]
    initialHub.

(** alice joins on socket 1 of [server.ts] and signs in as admin. *)
Definition aliceAdmin : Hub :=
  Server.run
    [(calm, oracleAt 1000 "", Inbound 1%nat (joinMsg "alice") "10.0.0.1");
     (calm, oracleAt 2000 "t1", Inbound 1%nat (authMsg "we17me78") "10.0.0.1")]
    initialHub.

(** The token [t] opens [handleAdminCommand] at every instant up to the
    deadline and is refused at every instant after it, whoever sends the
    command and whatever the command is. *)
Definition validUntil (w : World) (t : string) (deadline : Z) (h : Hub) : Prop :=
  forall (o : Oracle) (sock : WebSocket) (cmd : Data.t),
    Data.token cmd = Some t ->
    (now o <= deadline -> executes w o sock cmd h) /\
    (deadline < now o -> rejects w o sock cmd h "Invalid or expired token").

(** alice signs in on [server.ts]; more than a day later the token
    timer fires. *)
Definition aliceAdminNextDay : Hub :=
  Server.run [(calm, oracleAt 90000000 "", TokenTimer)] aliceAdmin.

(** The same three joins on the token-checking server. *)
Definition threeJoinedT : Hub :=
  TokenServer.run
    [(calm, oracleAt 1000 "", Inbound 1%nat (joinMsg "alice") "10.0.0.1");
     (calm, oracleAt 1001 "", Inbound 2%nat (joinMsg "bob") "10.0.0.2");
     (calm, oracleAt 1002 "", Inbound 3%nat (joinMsg "carol") "10.0.0.3")]
    initialHub.

(** The guest session of the sample joins on [server.ts]. *)
Definition guest (userId_ : string) (sock : WebSocket) (ip_ : string)
    (joinedAt : Z) : User :=
  {| id := userId_; username := "Player_z8y"; socket := sock; ip := ip_;
     status := online; isAdmin := false; token := None;
     lastSeen := joinedAt |}.

(** alice signs in on [server.ts] and starts the game. *)
Definition gameStarted : Hub :=
  Server.run
    [(calm, oracleAt 3000 "",
      Inbound 1%nat (commandMsg None "start_game") "10.0.0.1")]
    aliceAdmin.

(** The two invariants, as properties of the hub. *)
Definition gameOk (h : Hub) : Prop := gameInv (gameState h).

Definition registryOk (h : Hub) : Prop := usersOk (users h).

(** ** Vocabulary for the utilities *)

(** Every character of the string is in the class [[^\s@]]. *)
Definition allPlain (s : string) : Prop :=
  Forall (fun c => Helpers.plain c = true) (list_ascii_of_string s).

(** The number of occurrences of a character. *)
Definition countChar (c : ascii) (s : string) : nat :=
  count_occ ascii_dec (list_ascii_of_string s) c.

(** The value of a digit and of a digit string, for reading back what
    [toString] wrote. *)
Definition digitVal (c : ascii) : N :=
  let n := N_of_ascii c in
  if (n <? 58)%N then (n - 48)%N else (n - 87)%N.

Definition valueOf (radix : N) (digits : string) : N :=
  fold_left (fun v c => (v * radix + digitVal c)%N)
    (list_ascii_of_string digits) 0%N.

(** Reading back the bytes of a hexadecimal string, two digits at a
    time. *)
Fixpoint bytesOfHex (fuel : nat) (s : string) : list N :=
  match fuel, s with
  | S fuel', String c1 (String c2 rest) =>
      (digitVal c1 * 16 + digitVal c2)%N :: bytesOfHex fuel' rest
  | _, _ => []
  end.

(** The bytes: the numbers below 256. *)
Definition allBytes (array : list N) : Prop :=
  Forall (fun b => (b < 256)%N) array.

(** ** Vocabulary for the rest of the servers *)

(** The message types that [handleWebSocketMessage] of [server.ts] has a
    case for. *)
Definition knownTypes : list string :=
  ["user_join"; "admin_auth"; "get_stats"; "admin_command"; "rtc_offer";
   "rtc_answer"; "ice_candidate"; "call_number"; "mark_number";
   "announce_win"; "client_connected"].

(** The commands that [handleAdminCommand] has a case for. *)
Definition knownCommands : list string :=
  ["start_game"; "pause_game"; "reset_game"; "announce_winner";
   "broadcast_message"; "update_prize_pool"; "get_users"].

(** What an admin command does to the game. *)
Definition commandEffect (command : option string) (g : GameState)
  : GameState :=
  switch command
    [ ("start_game", startGame g);
      ("pause_game", pauseGame g);
      ("reset_game", resetGame g) ]
    g.

(** A session carries a token exactly when it is an admin session. *)
Definition sessionOk (u : User) : Prop :=
  isAdmin u = true <-> token u <> None.

Definition sessionsOk (h : Hub) : Prop :=
  Forall (fun e => sessionOk (snd e)) (users h).

(** The envelope of a client that has connected but not joined. *)
Definition connectedMsg : Data.t :=
  {| Data.type := Some "client_connected"; Data.userId := None;
     Data.username := None; Data.password := None; Data.token := None;
     Data.command := None; Data.data := None; Data.targetUserId := None;
     Data.number := None; Data.pattern := None |}.

(** An envelope of a type the hub does not know. *)
Definition pingMsg : Data.t :=
  {| Data.type := Some "ping"; Data.userId := None;
     Data.username := None; Data.password := None; Data.token := None;
     Data.command := None; Data.data := None; Data.targetUserId := None;
     Data.number := None; Data.pattern := None |}.

(** The events that lead to [gameStarted], and the calls of 1, 1.5, 2,
    ..., 90 after them. *)
Definition startHistory : list (World * Oracle * Event) :=
  [(calm, oracleAt 1000 "", Inbound 1%nat (joinMsg "alice") "10.0.0.1");
   (calm, oracleAt 2000 "t1", Inbound 1%nat (authMsg "we17me78") "10.0.0.1");
   (calm, oracleAt 3000 "",
    Inbound 1%nat (commandMsg None "start_game") "10.0.0.1")].

Definition halfCalls : list (World * Oracle * Event) :=
  map (fun i => (calm, oracleAt 4000 "",
                 Inbound 1%nat (callMsg (Num.halves (Z.of_nat i))) "10.0.0.1"))
    (seq 2 179).

(** The identity [owner] is registered, as an admin session. *)
Definition adminRegistered (owner : string) (h : Hub) : bool :=
  match JsMap.get owner (users h) with
  | Some a => isAdmin a
  | None => false
  end.

(** No event of the history draws the token [t] from [generateToken]
    again. *)
Definition notReissued (t : string) (history : list (World * Oracle * Event))
  : Prop :=
  Forall (fun ev => newToken (snd (fst ev)) <> t) history.

(** Every event of the history happens at the deadline or before. *)
Definition noLaterThan (deadline : Z)
    (history : list (World * Oracle * Event)) : Prop :=
  Forall (fun ev => now (snd (fst ev)) <= deadline) history.

(* ================================================================== *)
(** * Facts about the maps *)
(* ================================================================== *)

Section JsMapFacts.
Context {V : Type}.
Implicit Types (m : JsMap.t V) (k : string) (v : V).

Lemma get_set_same k v m : JsMap.get k (JsMap.set k v m) = Some v.
Proof.
  induction m as [|[k' v'] m IH]; simpl.
  - now rewrite String.eqb_refl.
  - destruct (String.eqb k k') eqn:E; simpl; rewrite E; auto.
Qed.

Lemma get_set_other k k' v m :
  k' <> k -> JsMap.get k' (JsMap.set k v m) = JsMap.get k' m.
Proof.
  intros Hne. induction m as [|[k0 v0] m IH]; simpl.
  - destruct (String.eqb_spec k' k); congruence.
  - destruct (String.eqb_spec k k0) as [->|Hk]; simpl.
    + destruct (String.eqb_spec k' k0); congruence.
    + now rewrite IH.
Qed.

Lemma keys_set_present k v m :
  JsMap.get k m <> None -> JsMap.keys (JsMap.set k v m) = JsMap.keys m.
Proof.
  induction m as [|[k0 v0] m IH]; simpl; intros H.
  - congruence.
  - destruct (String.eqb_spec k k0) as [->|Hk]; simpl; auto.
    f_equal. apply IH, H.
Qed.

Lemma keys_set_absent k v m :
  JsMap.get k m = None ->
  JsMap.keys (JsMap.set k v m) = (JsMap.keys m ++ [k])%list.
Proof.
  induction m as [|[k0 v0] m IH]; simpl; intros H; auto.
  destruct (String.eqb_spec k k0) as [->|Hk]; simpl; [congruence|].
  f_equal. apply IH, H.
Qed.

Lemma get_None_keys k m : JsMap.get k m = None <-> ~ In k (JsMap.keys m).
Proof.
  induction m as [|[k0 v0] m IH]; simpl.
  - tauto.
  - destruct (String.eqb_spec k k0) as [->|Hk].
    + split; [discriminate | intros H; exfalso; apply H; auto].
    + rewrite IH. split; intros H; [intros [?|?]; [congruence|tauto] | tauto].
Qed.

Lemma keys_delete_subset k k' m :
  In k' (JsMap.keys (JsMap.delete k m)) -> In k' (JsMap.keys m).
Proof.
  induction m as [|[k0 v0] m IH]; simpl; auto.
  destruct (String.eqb k k0); simpl; tauto.
Qed.

Lemma entries_delete_subset k e m :
  In e (JsMap.delete k m) -> In e m.
Proof.
  induction m as [|[k0 v0] m IH]; simpl; auto.
  destruct (String.eqb k k0); simpl; tauto.
Qed.

Lemma NoDup_keys_set k v m :
  NoDup (JsMap.keys m) -> NoDup (JsMap.keys (JsMap.set k v m)).
Proof.
  intros H. destruct (JsMap.get k m) eqn:E.
  - rewrite keys_set_present; [exact H | congruence].
  - rewrite keys_set_absent by exact E.
    apply NoDup_app; [exact H | repeat constructor; simpl; tauto |].
    intros x Hx [<-|[]]. now apply get_None_keys in E.
Qed.

Lemma NoDup_keys_delete k m :
  NoDup (JsMap.keys m) -> NoDup (JsMap.keys (JsMap.delete k m)).
Proof.
  induction m as [|[k0 v0] m IH]; simpl; intros H; auto.
  inversion H; subst.
  destruct (String.eqb k k0); simpl; auto.
  constructor; auto. intros Hin. now apply keys_delete_subset in Hin.
Qed.

Lemma entries_set k v e m :
  In e (JsMap.set k v m) -> e = (k, v) \/ In e m.
Proof.
  induction m as [|[k0 v0] m IH]; simpl.
  - intros [<-|[]]; auto.
  - destruct (String.eqb_spec k k0) as [->|Hk]; simpl.
    + intros [<-|H]; auto.
    + intros [<-|H]; auto. destruct (IH H); auto.
Qed.

Lemma keys_mutateFirst (p : V -> bool) (f : V -> V) m :
  JsMap.keys (JsMap.mutateFirst p f m) = JsMap.keys m.
Proof.
  induction m as [|[k0 v0] m IH]; simpl; auto.
  destruct (p v0); simpl; congruence.
Qed.

(** [find] and the in-place update agree on the entry they pick. *)
Lemma mutateFirst_split (p : V -> bool) (f : V -> V) m v :
  JsMap.findValue p m = Some v ->
  exists l1 k l2,
    m = (l1 ++ (k, v) :: l2)%list /\
    JsMap.mutateFirst p f m = (l1 ++ (k, f v) :: l2)%list /\
    forallb (fun e => negb (p (snd e))) l1 = true /\
    p v = true.
Proof.
  unfold JsMap.findValue, JsMap.values.
  induction m as [|[k0 v0] m IH]; simpl; [discriminate|].
  destruct (p v0) eqn:E.
  - intros [= <-]. exists [], k0, m. simpl. auto.
  - intros H. destruct (IH H) as (l1 & k & l2 & -> & Hm & Hl1 & Hp).
    exists ((k0, v0) :: l1), k, l2. simpl. rewrite Hm, E, Hl1. auto.
Qed.

Lemma findValue_findKey_None (p : V -> bool) m :
  JsMap.findValue p m = None <-> JsMap.findKey p m = None.
Proof.
  unfold JsMap.findValue, JsMap.findKey, JsMap.values.
  induction m as [|[k0 v0] m IH]; simpl; [tauto|].
  destruct (p v0); simpl; [split; discriminate | exact IH].
Qed.

Lemma get_middle l1 k v l2 :
  ~ In k (JsMap.keys l1) ->
  JsMap.get k (l1 ++ (k, v) :: l2)%list = Some v.
Proof.
  induction l1 as [|[k0 v0] l1 IH]; simpl; intros H.
  - now rewrite String.eqb_refl.
  - destruct (String.eqb_spec k k0) as [->|Hk]; [tauto|].
    apply IH. tauto.
Qed.

Lemma sweep_get (p : string -> V -> bool) k v m :
  JsMap.get k m = Some v -> p k v = false ->
  JsMap.get k (JsMap.sweep p m) = Some v.
Proof.
  unfold JsMap.sweep.
  induction m as [|[k0 v0] m IH]; simpl; [discriminate|].
  destruct (String.eqb_spec k k0) as [->|Hk].
  - intros [= ->] Hp. rewrite Hp. simpl. now rewrite String.eqb_refl.
  - intros H Hp. destruct (p k0 v0); simpl; auto.
    destruct (String.eqb_spec k k0); [congruence | auto].
Qed.

Lemma sweep_entries (p : string -> V -> bool) e m :
  In e (JsMap.sweep p m) -> In e m /\ p (fst e) (snd e) = false.
Proof.
  unfold JsMap.sweep. rewrite filter_In.
  intros [H1 H2]. split; auto. now apply negb_true_iff.
Qed.

Lemma NoDup_keys_sweep (p : string -> V -> bool) m :
  NoDup (JsMap.keys m) -> NoDup (JsMap.keys (JsMap.sweep p m)).
Proof.
  unfold JsMap.sweep, JsMap.keys.
  induction m as [|[k0 v0] m IH]; simpl; intros H; auto.
  inversion H; subst.
  destruct (p k0 v0); simpl; auto.
  constructor; auto.
  intros Hin. apply in_map_iff in Hin as ([k1 v1] & Hk & Hin).
  apply filter_In in Hin as [Hin _]. simpl in Hk; subst.
  apply H2. apply in_map_iff. now exists (k0, v1).
Qed.

End JsMapFacts.

(* ================================================================== *)
(** * Facts about the monad *)
(* ================================================================== *)

Lemma hub_eta h :
  {| users := users h; adminTokens := adminTokens h;
     gameState := gameState h; wire := wire h |} = h.
Proof. now destruct h. Qed.

Lemma run_bind {A B : Type} (m : M A) (k : A -> M B) h :
  bind m k h =
  match m h with
  | (Returned a, h') => k a h'
  | (Threw, h') => (Threw, h')
  end.
Proof. reflexivity. Qed.

Lemma exec_bind_returned {A B : Type} (m : M A) (k : A -> M B) h a h' :
  m h = (Returned a, h') -> exec (bind m k) h = exec (k a) h'.
Proof. unfold exec, bind. now intros ->. Qed.

(** What [try]/[catch] leaves of the state is what its body leaves. *)
Lemma exec_tryCatch (m : M unit) h : exec (tryCatch m) h = exec m h.
Proof. unfold exec, tryCatch. now destruct (m h) as [[a|] h1]. Qed.

Lemma sentBy_app {A : Type} (m : M A) h l :
  wire (exec m h) = (wire h ++ l)%list -> sentBy m h = l.
Proof.
  unfold sentBy. intros ->.
  rewrite skipn_app, skipn_all, Nat.sub_diag. reflexivity.
Qed.

Section InvariantRules.
Variable P : Hub -> Prop.

Lemma Inv_ret {A : Type} (a : A) : Inv P (ret a).
Proof. intros h Hh. exact Hh. Qed.

Lemma Inv_gets {A : Type} (f : Hub -> A) : Inv P (gets f).
Proof. intros h Hh. exact Hh. Qed.

Lemma Inv_modify (f : Hub -> Hub) :
  (forall h, P h -> P (f h)) -> Inv P (modify f).
Proof. intros Hf h Hh. apply Hf, Hh. Qed.

Lemma Inv_bind {A B : Type} (m : M A) (k : A -> M B) :
  Inv P m -> (forall a, Inv P (k a)) -> Inv P (bind m k).
Proof.
  intros Hm Hk h Hh. specialize (Hm h Hh).
  unfold exec, bind in *. destruct (m h) as [[a|] h1]; simpl in *.
  - apply Hk, Hm.
  - exact Hm.
Qed.

Lemma Inv_tryCatch (m : M unit) : Inv P m -> Inv P (tryCatch m).
Proof.
  intros Hm h Hh. specialize (Hm h Hh).
  unfold exec, tryCatch in *. now destruct (m h) as [[a|] h1].
Qed.

Lemma Inv_forEach {A : Type} (xs : list A) (f : A -> M unit) :
  (forall x, Inv P (f x)) -> Inv P (forEach xs f).
Proof.
  intros Hf. induction xs as [|x xs IH]; simpl.
  - apply Inv_ret.
  - apply Inv_bind; auto.
Qed.

Lemma Inv_switch {A : Type} x (cases : list (string * M A)) (default : M A) :
  Forall (fun c => Inv P (snd c)) cases -> Inv P default ->
  Inv P (switch x cases default).
Proof.
  intros Hc Hd. induction Hc as [|[k body] rest Hb _ IH]; simpl; auto.
  destruct (isCase x k); auto.
Qed.

Lemma Inv_if {A : Type} (b : bool) (m1 m2 : M A) :
  Inv P m1 -> Inv P m2 -> Inv P (if b then m1 else m2).
Proof. now destruct b. Qed.

(** [P] does not look at the wire. *)
Hypothesis P_wire : forall f h, P h -> P (withWire f h).

Lemma Inv_send w s msg : Inv P (send w s msg).
Proof.
  intros h Hh. unfold exec, send.
  destruct (sendThrows w s); simpl; now apply P_wire.
Qed.

End InvariantRules.

(* ================================================================== *)
(** * Broadcasting *)
(* ================================================================== *)

Lemma withWire_nil h : withWire (fun l => (l ++ [])%list) h = h.
Proof. unfold withWire. rewrite app_nil_r. apply hub_eta. Qed.

Lemma withWire_app a b h :
  withWire (fun l => (l ++ b)%list) (withWire (fun l => (l ++ a)%list) h)
  = withWire (fun l => (l ++ a ++ b)%list) h.
Proof. unfold withWire; simpl. now rewrite app_assoc. Qed.

Lemma run_send w s msg h :
  send w s msg h =
  (if sendThrows w s then Threw else Returned tt,
   withWire (fun l => (l ++ [(s, msg)])%list) h).
Proof. unfold send. now destruct (sendThrows w s). Qed.

Lemma run_try_send w s msg h :
  tryCatch (send w s msg) h =
  (Returned tt, withWire (fun l => (l ++ [(s, msg)])%list) h).
Proof. unfold tryCatch. rewrite run_send. now destruct (sendThrows w s). Qed.

(** The loop of [Server.broadcastToAll], from any state: it goes through
    the whole list. *)
Lemma Server_forEach_send w msg (us : list User) h :
  forEach us
    (fun user =>
       if socketOpen w (socket user)
       then tryCatch (send w (socket user) msg)
       else ret tt) h
  = (Returned tt,
     withWire
       (fun l =>
          (l ++ map (fun u => (socket u, msg))
             (filter (fun u => socketOpen w (socket u)) us))%list) h).
Proof.
  revert h. induction us as [|u us IH]; intros h; simpl.
  - now rewrite withWire_nil.
  - rewrite run_bind.
    destruct (socketOpen w (socket u)) eqn:E.
    + rewrite run_try_send, IH. simpl. now rewrite withWire_app.
    + unfold ret. now rewrite IH.
Qed.

Lemma Server_broadcastToAll_run w msg h :
  Server.broadcastToAll w msg h
  = (Returned tt, withWire (fun l => (l ++ fanout w msg (users h))%list) h).
Proof.
  unfold Server.broadcastToAll. rewrite run_bind. unfold gets.
  apply Server_forEach_send.
Qed.

(** The loop of [TokenServer.broadcastToAll] goes through the whole list
    when no open socket raises. *)
Lemma TokenServer_forEach_send w msg (us : list User) h :
  Forall (fun u => socketOpen w (socket u) = true ->
                   sendThrows w (socket u) = false) us ->
  forEach us
    (fun user =>
       if socketOpen w (socket user)
       then send w (socket user) msg
       else ret tt) h
  = (Returned tt,
     withWire
       (fun l =>
          (l ++ map (fun u => (socket u, msg))
             (filter (fun u => socketOpen w (socket u)) us))%list) h).
Proof.
  intros Hus. revert h. induction Hus as [|u us Hu _ IH]; intros h; simpl.
  - now rewrite withWire_nil.
  - rewrite run_bind.
    destruct (socketOpen w (socket u)) eqn:E.
    + rewrite run_send, Hu by reflexivity.
      rewrite IH. simpl. now rewrite withWire_app.
    + unfold ret. now rewrite IH.
Qed.

(** Without the [try], the first open socket that raises ends the loop:
    the sessions behind it are not served. *)
Lemma TokenServer_forEach_abort w msg (u : User) (us : list User) h :
  socketOpen w (socket u) = true -> sendThrows w (socket u) = true ->
  forEach (u :: us)
    (fun user =>
       if socketOpen w (socket user)
       then send w (socket user) msg
       else ret tt) h
  = (Threw, withWire (fun l => (l ++ [(socket u, msg)])%list) h).
Proof.
  intros Ho Ht. simpl. rewrite run_bind, Ho, run_send, Ht. reflexivity.
Qed.

Lemma delivered_fanout w msg (m : JsMap.t User) :
  delivered w (fanout w msg m)
  = map (fun u => (socket u, msg)) (filter (reachable w) (JsMap.values m)).
Proof.
  unfold delivered, fanout, reachable.
  induction (JsMap.values m) as [|u us IH]; simpl; auto.
  destruct (socketOpen w (socket u)); simpl; auto.
  destruct (sendThrows w (socket u)); simpl; auto.
  now rewrite IH.
Qed.

Lemma filter_all {A : Type} (p : A -> bool) (l : list A) :
  Forall (fun x => p x = true) l -> filter p l = l.
Proof.
  induction 1 as [|x l Hx _ IH]; simpl; auto. now rewrite Hx, IH.
Qed.

Lemma TokenServer_broadcastToAll_healthy w msg h :
  Forall (fun u => socketOpen w (socket u) = true ->
                   sendThrows w (socket u) = false) (JsMap.values (users h)) ->
  TokenServer.broadcastToAll w msg h
  = (Returned tt, withWire (fun l => (l ++ fanout w msg (users h))%list) h).
Proof.
  intros H. unfold TokenServer.broadcastToAll. rewrite run_bind. unfold gets.
  now apply TokenServer_forEach_send.
Qed.

(** Without the [try], the loop gets as far as the first open socket on
    which [send] raises. *)
Lemma TokenServer_forEach_upto w msg (l1 : list User) (u : User)
    (l2 : list User) h :
  Forall (fun x => reachable w x = true) l1 ->
  socketOpen w (socket u) = true -> sendThrows w (socket u) = true ->
  forEach (l1 ++ u :: l2)%list
    (fun user =>
       if socketOpen w (socket user)
       then send w (socket user) msg
       else ret tt) h
  = (Threw,
     withWire
       (fun l => (l ++ map (fun x => (socket x, msg)) (l1 ++ [u]))%list) h).
Proof.
  intros Hl Ho Ht. revert h.
  induction Hl as [|x l1 Hx _ IH]; intros h.
  - now apply TokenServer_forEach_abort.
  - unfold reachable in Hx. apply andb_prop in Hx as [Hxo Hxt].
    apply negb_true_iff in Hxt.
    cbn [app forEach]. rewrite run_bind, Hxo, run_send, Hxt, IH.
    now rewrite withWire_app.
Qed.

Lemma delivered_app w l1 l2 :
  delivered w (l1 ++ l2)%list = (delivered w l1 ++ delivered w l2)%list.
Proof. unfold delivered. apply filter_app. Qed.

Lemma delivered_one w s msg :
  sendThrows w s = true -> delivered w [(s, msg)] = [].
Proof. intros Ht. unfold delivered. simpl. now rewrite Ht. Qed.

Lemma delivered_reachable w msg (l : list User) :
  Forall (fun x => reachable w x = true) l ->
  delivered w (map (fun x => (socket x, msg)) l)
  = map (fun x => (socket x, msg)) l.
Proof.
  unfold delivered. induction 1 as [|x l Hx _ IH]; simpl; [reflexivity|].
  unfold reachable in Hx. apply andb_prop in Hx as [_ Hxt].
  now rewrite Hxt, IH.
Qed.

(** C7.  [broadcastToAll] of [server.ts] serves every session but the
    bad one: in a registry of N sessions of which one has a socket that
    is not open, or on which [send] raises, while the other N-1 are open
    and healthy, the broadcast returns normally and the message is
    delivered to each of the other N-1 sessions, in registry order; the
    registry, the tokens and the game are untouched.  [broadcastToAll] of
    the token-checking variant does the same when the socket of the bad
    session is not open; when it is open and [send] raises on it, there
    is no [try] to catch it: the broadcast ends there with the
    exception, the sessions before the bad one have been served and
    those behind it are not. *)
Theorem broadcastToAll_isolates_failure
    (w : World) (msg : Message) (h : Hub)
    (before after : JsMap.t User) (k : string) (bad : User)
    (Hreg : users h = (before ++ (k, bad) :: after)%list)
    (Hbad : socketOpen w (socket bad) = false \/
            sendThrows w (socket bad) = true)
    (Hgood : Forall (fun e => reachable w (snd e) = true) (before ++ after)) :
  outcome (Server.broadcastToAll w msg) h = Returned tt /\
  delivered w (sentBy (Server.broadcastToAll w msg) h)
    = map (fun e => (socket (snd e), msg)) (before ++ after) /\
  List.length (delivered w (sentBy (Server.broadcastToAll w msg) h))
    = (JsMap.size (users h) - 1)%nat /\
  users (exec (Server.broadcastToAll w msg) h) = users h /\
  adminTokens (exec (Server.broadcastToAll w msg) h) = adminTokens h /\
  gameState (exec (Server.broadcastToAll w msg) h) = gameState h /\
  (socketOpen w (socket bad) = false ->
   outcome (TokenServer.broadcastToAll w msg) h = Returned tt /\
   delivered w (sentBy (TokenServer.broadcastToAll w msg) h)
     = map (fun e => (socket (snd e), msg)) (before ++ after)) /\
  (socketOpen w (socket bad) = true ->
   outcome (TokenServer.broadcastToAll w msg) h = Threw /\
   sentBy (TokenServer.broadcastToAll w msg) h
     = map (fun e => (socket (snd e), msg)) (before ++ [(k, bad)]) /\
   delivered w (sentBy (TokenServer.broadcastToAll w msg) h)
     = map (fun e => (socket (snd e), msg)) before).
Proof.
  assert (Hbad' : reachable w bad = false).
  { unfold reachable. destruct Hbad as [-> | ->]; auto using andb_false_r. }
  assert (Hfan : delivered w (fanout w msg (users h))
                 = map (fun e => (socket (snd e), msg)) (before ++ after)).
  { rewrite delivered_fanout, Hreg. unfold JsMap.values.
    rewrite map_app, filter_app. simpl. rewrite Hbad'.
    apply Forall_app in Hgood as [Hb Ha].
    rewrite !filter_all, <- map_app, map_map; auto.
    - apply Forall_map. exact Ha.
    - apply Forall_map. exact Hb. }
  assert (Hdel : delivered w (sentBy (Server.broadcastToAll w msg) h)
                 = map (fun e => (socket (snd e), msg)) (before ++ after)).
  { rewrite (sentBy_app _ _ (fanout w msg (users h))); [exact Hfan|].
    unfold exec. now rewrite Server_broadcastToAll_run. }
  unfold outcome, exec. rewrite Hdel.
  rewrite Server_broadcastToAll_run. simpl.
  split; [reflexivity|]. split; [reflexivity|].
  split.
  { rewrite Hreg. unfold JsMap.size.
    rewrite length_map, !length_app. simpl. lia. }
  do 3 (split; [reflexivity|]).
  split.
  - intros Hclosed.
    assert (Hrun : TokenServer.broadcastToAll w msg h
                   = (Returned tt,
                      withWire (fun l => (l ++ fanout w msg (users h))%list) h)).
    { apply TokenServer_broadcastToAll_healthy. rewrite Hreg.
      unfold JsMap.values. rewrite map_app. simpl.
      apply Forall_app in Hgood as [Hb Ha].
      apply Forall_app. split; [|constructor].
      - apply Forall_map. eapply Forall_impl; [|exact Hb].
        intros e He _. unfold reachable in He.
        apply andb_prop in He as [_ He]. now apply negb_true_iff.
      - intros Ho. congruence.
      - apply Forall_map. eapply Forall_impl; [|exact Ha].
        intros e He _. unfold reachable in He.
        apply andb_prop in He as [_ He]. now apply negb_true_iff. }
    rewrite Hrun. split; [reflexivity|].
    rewrite (sentBy_app _ _ (fanout w msg (users h))); [exact Hfan|].
    unfold exec. now rewrite Hrun.
  - intros Hopen.
    assert (Hthrows : sendThrows w (socket bad) = true).
    { destruct Hbad as [Hc|Ht]; [congruence|exact Ht]. }
    apply Forall_app in Hgood as [Hb _].
    assert (Hrun : TokenServer.broadcastToAll w msg h
                   = (Threw,
                      withWire
                        (fun l =>
                           (l ++ map (fun x => (socket x, msg))
                                   (map snd before ++ [bad]))%list) h)).
    { unfold TokenServer.broadcastToAll. rewrite run_bind. unfold gets.
      rewrite Hreg. unfold JsMap.values. rewrite map_app. simpl.
      apply TokenServer_forEach_upto; auto. now apply Forall_map. }
    assert (Hsent : sentBy (TokenServer.broadcastToAll w msg) h
                    = map (fun e => (socket (snd e), msg))
                        (before ++ [(k, bad)])).
    { rewrite (sentBy_app _ _ (map (fun x => (socket x, msg))
                                 (map snd before ++ [bad]))).
      - rewrite !map_app, map_map. reflexivity.
      - unfold exec. now rewrite Hrun. }
    rewrite Hrun. split; [reflexivity|]. split; [exact Hsent|].
    rewrite Hsent, map_app, delivered_app.
    change (map (fun e => (socket (snd e), msg)) [(k, bad)])
      with [(socket bad, msg)].
    rewrite (delivered_one w _ msg Hthrows), app_nil_r.
    rewrite <- (map_map snd (fun x => (socket x, msg))).
    apply delivered_reachable. now apply Forall_map.
Qed.

(* ================================================================== *)
(** * Invariants of the handlers *)
(* ================================================================== *)

Ltac inv_step :=
  match goal with
  | |- Inv _ (bind _ _) => apply Inv_bind; [|intros ?]
  | |- Inv _ (ret _) => apply Inv_ret
  | |- Inv _ (gets _) => apply Inv_gets
  | |- Inv _ (tryCatch _) => apply Inv_tryCatch
  | |- Inv _ (forEach _ _) => apply Inv_forEach; intros ?
  | |- Inv _ (send _ _ _) =>
      apply Inv_send; first [assumption | intros ? ? ?; assumption]
  | |- Inv _ (if _ then _ else _) => apply Inv_if
  | |- Inv _ (switch _ _ _) =>
      apply Inv_switch;
      [repeat (apply Forall_cons; [simpl|]); try apply Forall_nil|]
  | |- Inv _ (match ?x with _ => _ end) => destruct x
  end.

Ltac inv_auto := cbv zeta; repeat inv_step.

Lemma gameInv_initial : gameInv initialGame.
Proof.
  repeat split; simpl; [constructor | constructor | discriminate].
Qed.

Lemma gameInv_startGame g : gameInv (startGame g).
Proof.
  repeat split; simpl; [constructor | constructor | discriminate].
Qed.

Lemma gameInv_resetGame g : gameInv (resetGame g).
Proof.
  repeat split; simpl; [constructor | constructor | discriminate].
Qed.

Lemma gameInv_pauseGame g : gameInv g -> gameInv (pauseGame g).
Proof. intros H. exact H. Qed.

Lemma gameInv_setWinner who g : gameInv g -> gameInv (setWinner who g).
Proof. intros H. exact H. Qed.

Lemma includes_In l n : includes l n = true <-> In n l.
Proof.
  unfold includes. rewrite existsb_exists. split.
  - intros (x & Hx & E). apply Z.eqb_eq in E. now subst.
  - intros H. exists n. split; auto. apply Z.eqb_refl.
Qed.

Lemma includes_false l n : includes l n = false <-> ~ In n l.
Proof.
  rewrite <- includes_In. destruct (includes l n); split; congruence.
Qed.

(** The guarded [push] keeps the invariant: the check comes before the
    mutation. *)
Lemma gameInv_callNumber n g :
  Num.ofInt 1 <= n <= Num.ofInt 90 -> ~ In n (calledNumbers g) ->
  gameInv g -> gameInv (callNumber n g).
Proof.
  intros Hr Hn (Hd & Hf & Hc). repeat split; simpl.
  - apply NoDup_app; [exact Hd | repeat constructor; simpl; tauto |].
    intros x Hx [<-|[]]. contradiction.
  - apply Forall_app. split; auto.
  - intros c [= <-]. now exists (calledNumbers g).
Qed.

(** Talking does not disturb a property that does not look at the
    wire. *)
Section Talk.
Variables (w : World) (o : Oracle).
Variable P : Hub -> Prop.
Hypothesis P_wire : forall f h, P h -> P (withWire f h).

Lemma Server_broadcastToAll_Inv msg : Inv P (Server.broadcastToAll w msg).
Proof. unfold Server.broadcastToAll. inv_auto. Qed.

Lemma Server_broadcastUserList_Inv : Inv P (Server.broadcastUserList w).
Proof.
  unfold Server.broadcastUserList. inv_auto.
  apply Server_broadcastToAll_Inv.
Qed.

Lemma Server_sendUserList_Inv sock : Inv P (Server.sendUserList w sock).
Proof. unfold Server.sendUserList. inv_auto. Qed.

Lemma Server_handleGetStats_Inv sock : Inv P (Server.handleGetStats w o sock).
Proof.
  unfold Server.handleGetStats. inv_auto. apply Server_sendUserList_Inv.
Qed.

Lemma Server_handleRTCMessage_Inv sock data :
  Inv P (Server.handleRTCMessage w sock data).
Proof. unfold Server.handleRTCMessage. inv_auto. Qed.

Lemma TokenServer_broadcastToAll_Inv msg :
  Inv P (TokenServer.broadcastToAll w msg).
Proof. unfold TokenServer.broadcastToAll. inv_auto. Qed.

Lemma TokenServer_broadcastUserList_Inv : Inv P (TokenServer.broadcastUserList w).
Proof.
  unfold TokenServer.broadcastUserList. inv_auto.
  apply TokenServer_broadcastToAll_Inv.
Qed.

Lemma TokenServer_sendUserList_Inv sock : Inv P (TokenServer.sendUserList w sock).
Proof. unfold TokenServer.sendUserList. inv_auto. Qed.

Lemma TokenServer_handleGetStats_Inv sock data :
  Inv P (TokenServer.handleGetStats w sock data).
Proof. unfold TokenServer.handleGetStats. inv_auto. Qed.

Lemma TokenServer_handleRTCMessage_Inv sock data :
  Inv P (TokenServer.handleRTCMessage w sock data).
Proof. unfold TokenServer.handleRTCMessage. inv_auto. Qed.

End Talk.

Ltac talk :=
  first
    [ apply Server_broadcastToAll_Inv
    | apply Server_broadcastUserList_Inv
    | apply Server_sendUserList_Inv
    | apply Server_handleGetStats_Inv
    | apply Server_handleRTCMessage_Inv
    | apply TokenServer_broadcastToAll_Inv
    | apply TokenServer_broadcastUserList_Inv
    | apply TokenServer_sendUserList_Inv
    | apply TokenServer_handleGetStats_Inv
    | apply TokenServer_handleRTCMessage_Inv ];
  first [assumption | intros ? ? ?; assumption].

Section GameInvariant.
Variables (w : World) (o : Oracle).

Lemma Server_handleUserJoin_gameInv sock data ip_ :
  Inv gameOk (Server.handleUserJoin w o sock data ip_).
Proof.
  unfold Server.handleUserJoin. inv_auto.
  - apply Inv_modify. auto.
  - talk.
Qed.

Lemma Server_handleAdminAuth_gameInv sock data :
  Inv gameOk (Server.handleAdminAuth w o sock data).
Proof.
  unfold Server.handleAdminAuth. inv_auto;
    try (apply Inv_modify; now auto).
  talk.
Qed.

Lemma Server_runCommand_gameInv sock data :
  Inv gameOk (Server.runCommand w o sock data).
Proof.
  unfold Server.runCommand, Server.broadcastGameState,
    Server.broadcastMessage.
  inv_auto;
    try talk;
    try talk;
    apply Inv_modify; intros h Hh; unfold gameOk; simpl.
  - apply gameInv_startGame.
  - apply gameInv_pauseGame, Hh.
  - apply gameInv_resetGame.
Qed.

Lemma Server_handleAdminCommand_gameInv sock data :
  Inv gameOk (Server.handleAdminCommand w o sock data).
Proof.
  unfold Server.handleAdminCommand. inv_auto.
  apply Server_runCommand_gameInv.
Qed.

Lemma Server_handleAnnounceWin_gameInv sock data :
  Inv gameOk (Server.handleAnnounceWin w sock data).
Proof.
  unfold Server.handleAnnounceWin. inv_auto.
  - apply Inv_modify. intros h Hh. now apply gameInv_setWinner.
  - talk.
Qed.

(** What [handleCallNumber] does, in one equation. *)
Lemma Server_handleCallNumber_run sock data h :
  Server.handleCallNumber w sock data h =
  (Returned tt,
   match Data.number data with
   | Some n =>
       if active (gameState h) && (Num.ofInt 1 <=? n) && (n <=? Num.ofInt 90)
          && negb (includes (calledNumbers (gameState h)) n)
       then withWire
              (fun l =>
                 (l ++ fanout w
                    (NumberCalled n (calledNumbers (gameState h) ++ [n])%list)
                    (users h))%list)
              (withGame (callNumber n) h)
       else h
   | None => h
   end).
Proof.
  unfold Server.handleCallNumber. rewrite run_bind. unfold gets.
  destruct (active (gameState h)); simpl.
  2:{ unfold ret. now destruct (Data.number data). }
  destruct (Data.number data) as [n|]; [|reflexivity].
  destruct ((Num.ofInt 1 <=? n) && (n <=? Num.ofInt 90)
            && negb (includes (calledNumbers (gameState h)) n)); [|reflexivity].
  rewrite run_bind. unfold modify. rewrite run_bind.
  now rewrite Server_broadcastToAll_run.
Qed.

Lemma Server_handleCallNumber_gameInv sock data :
  Inv gameOk (Server.handleCallNumber w sock data).
Proof.
  intros h Hh. unfold exec. rewrite Server_handleCallNumber_run. simpl.
  destruct (Data.number data) as [n|]; [|exact Hh].
  destruct (active (gameState h) && (Num.ofInt 1 <=? n) && (n <=? Num.ofInt 90)
            && negb (includes (calledNumbers (gameState h)) n)) eqn:E;
    [|exact Hh].
  apply andb_prop in E as [E Hi]. apply andb_prop in E as [E H90].
  apply andb_prop in E as [_ H1].
  apply negb_true_iff, includes_false in Hi.
  unfold gameOk; simpl. apply gameInv_callNumber; auto. lia.
Qed.

Lemma Server_handleWebSocketMessage_gameInv sock data ip_ :
  Inv gameOk (Server.handleWebSocketMessage w o sock data ip_).
Proof.
  unfold Server.handleWebSocketMessage, Server.handleMarkNumber. inv_auto.
  - apply Server_handleUserJoin_gameInv.
  - apply Server_handleAdminAuth_gameInv.
  - talk.
  - apply Server_handleAdminCommand_gameInv.
  - talk.
  - talk.
  - talk.
  - apply Server_handleCallNumber_gameInv.
  - apply Server_handleAnnounceWin_gameInv.
  - apply Inv_modify. auto.
Qed.

Lemma Server_step_gameInv e : Inv gameOk (Server.step w o e).
Proof.
  destruct e; simpl.
  - unfold Server.onopen. inv_auto.
  - apply Inv_tryCatch, Server_handleWebSocketMessage_gameInv.
  - unfold Server.handleDisconnection. inv_auto. apply Inv_modify. auto.
  - talk.
  - apply Inv_modify. auto.
  - apply Inv_modify. auto.
Qed.

End GameInvariant.

(* ================================================================== *)
(** * Calling a number *)
(* ================================================================== *)

Lemma Server_handleCallNumber_game w sock data h n :
  Data.number data = Some n ->
  gameState (exec (Server.handleCallNumber w sock data) h)
  = calledAfter n (gameState h).
Proof.
  intros Hn. unfold exec, calledAfter.
  rewrite Server_handleCallNumber_run, Hn. simpl.
  now destruct (active (gameState h) && (Num.ofInt 1 <=? n) && (n <=? Num.ofInt 90)
                && negb (includes (calledNumbers (gameState h)) n)).
Qed.

Lemma calledAfter_cases n g :
  (active g = true /\ Num.ofInt 1 <= n <= Num.ofInt 90 /\ ~ In n (calledNumbers g) /\
   calledAfter n g = callNumber n g)
  \/
  ((active g = false \/ n < Num.ofInt 1 \/ Num.ofInt 90 < n \/ In n (calledNumbers g)) /\
   calledAfter n g = g).
Proof.
  unfold calledAfter.
  destruct (active g); simpl; [|right; auto].
  destruct (Z.leb_spec (Num.ofInt 1) n); simpl; [|right; auto].
  destruct (Z.leb_spec n (Num.ofInt 90)); simpl; [|right; auto].
  destruct (includes (calledNumbers g) n) eqn:E; simpl.
  - right. apply includes_In in E. auto.
  - left. apply includes_false in E. repeat split; auto.
Qed.

Lemma calledAfter_twice n g : calledAfter n (calledAfter n g) = calledAfter n g.
Proof.
  destruct (calledAfter_cases n g) as [(Ha & Hr & Hn & E) | (Hc & E)];
    rewrite E.
  - destruct (calledAfter_cases n (callNumber n g))
      as [(_ & _ & Hn' & _) | (_ & E')]; [|exact E'].
    exfalso. apply Hn'. simpl. apply in_or_app. right. simpl. auto.
  - now rewrite E.
Qed.



(** The invariant holds in every state the hub can reach. *)
Corollary game_invariant_reachable history :
  gameInv (gameState (Server.run history initialHub)).
Proof.
  assert (H : forall h, gameInv (gameState h) ->
                        gameInv (gameState (Server.run history h))).
  { induction history as [|[[w o] e] rest IH]; intros h Hh; simpl; auto.
    apply IH. now apply Server_step_gameInv. }
  apply H, gameInv_initial.
Qed.

(* ================================================================== *)
(** * Calling the same number again *)
(* ================================================================== *)

(** C2. [handleCallNumber] with number [n]: the list of called numbers
    changes only when the game is active, [n] is within 1..90 and [n]
    has not been called; a second call with the same [n] changes
    nothing, and after the two calls of an active game [n] is in the
    list exactly once; with [n] out of range, or while the game is not
    active, the list stays as it is. *)
Theorem callValue_guarded_and_idempotent
    (w : World) (sock : WebSocket) (data : Data.t) (h : Hub) (n : Num.t)
    (Hn : Data.number data = Some n)
    (Hdistinct : NoDup (calledNumbers (gameState h))) :
  let call := exec (Server.handleCallNumber w sock data) in
  (calledNumbers (gameState (call h)) <> calledNumbers (gameState h) ->
     active (gameState h) = true /\ Num.ofInt 1 <= n <= Num.ofInt 90 /\
     ~ In n (calledNumbers (gameState h))) /\
  calledNumbers (gameState (call (call h))) = calledNumbers (gameState (call h)) /\
  (active (gameState h) = true -> Num.ofInt 1 <= n <= Num.ofInt 90 ->
     count_occ Z.eq_dec (calledNumbers (gameState (call (call h)))) n = 1%nat) /\
  (n < Num.ofInt 1 \/ Num.ofInt 90 < n \/ active (gameState h) = false ->
     calledNumbers (gameState (call h)) = calledNumbers (gameState h)).
Proof.
  intros call. unfold call.
  rewrite !(Server_handleCallNumber_game _ _ _ _ n Hn), calledAfter_twice.
  destruct (calledAfter_cases n (gameState h))
    as [(Ha & Hr & Hnew & E) | (Hc & E)]; rewrite E.
  - repeat split; auto; try lia.
    + intros _ _. simpl. rewrite count_occ_app. simpl.
      destruct (Z.eq_dec n n) as [_|Hne]; [|congruence].
      apply (count_occ_not_In Z.eq_dec) in Hnew. rewrite Hnew. reflexivity.
    + intros [H|[H|H]]; [lia | lia | congruence].
  - repeat split; auto; try congruence.
    intros Ha Hr. destruct Hc as [Hc|[Hc|[Hc|Hc]]]; try congruence; try lia.
    now apply NoDup_count_occ'.
Qed.

(* ================================================================== *)
(** * Running the handlers of [server.ts] *)
(* ================================================================== *)

Lemma exec_modify_bind {B : Type} (f : Hub -> Hub) (k : unit -> M B) h :
  exec (bind (modify f) k) h = exec (k tt) (f h).
Proof. reflexivity. Qed.

(** A component that every intermediate state agrees on is the same at
    the end. *)
Lemma frame {A B : Type} (F : Hub -> B) (m : M A) :
  (forall x, Inv (fun h => F h = x) m) -> forall h, F (exec m h) = F h.
Proof. intros H h. now apply (H (F h) h). Qed.

(* ================================================================== *)
(** * Announcing a win *)
(* ================================================================== *)

Lemma Server_handleAnnounceWin_run w sock data h :
  Server.handleAnnounceWin w sock data h =
  (Returned tt,
   match JsMap.findValue (onSocket sock) (users h), Data.pattern data with
   | Some u, Some pat =>
       if truthy (Some pat)
       then withWire
              (fun l =>
                 (l ++ fanout w (WinnerAnnounced (id u) (username u) pat)
                    (users h))%list)
              (withGame (setWinner (id u)) h)
       else h
   | _, _ => h
   end).
Proof.
  unfold Server.handleAnnounceWin. rewrite run_bind. unfold gets.
  destruct (JsMap.findValue (onSocket sock) (users h)) as [u|];
    [|reflexivity].
  destruct (Data.pattern data) as [pat|]; [|reflexivity].
  destruct (truthy (Some pat)); [|reflexivity].
  rewrite run_bind. unfold modify.
  now rewrite Server_broadcastToAll_run.
Qed.

(** C9, as the code has it.  A sender whose socket is registered, sending
    [announce_win] with a pattern that is not empty: the winner becomes
    the identity of that session, whether the game is active or not and
    whatever numbers were called; nothing else of the game changes; the
    [winner_announced] message goes to every session with an open
    socket; the handler returns normally. *)
Theorem announceWin_sets_winner
    (w : World) (sock : WebSocket) (data : Data.t) (h : Hub)
    (u : User) (pat : string)
    (Hsender : JsMap.findValue (onSocket sock) (users h) = Some u)
    (Hpat : Data.pattern data = Some pat)
    (Hnonempty : pat <> "") :
  let announce := Server.handleAnnounceWin w sock data in
  gameState (exec announce h) = setWinner (id u) (gameState h) /\
  winner (gameState (exec announce h)) = Some (id u) /\
  sentBy announce h
    = fanout w (WinnerAnnounced (id u) (username u) pat) (users h) /\
  outcome announce h = Returned tt /\
  users (exec announce h) = users h /\
  adminTokens (exec announce h) = adminTokens h.
Proof.
  assert (Ht : truthy (Some pat) = true).
  { simpl. destruct (String.eqb_spec pat ""); [contradiction | reflexivity]. }
  intros announce. unfold announce, outcome.
  rewrite (sentBy_app _ _
             (fanout w (WinnerAnnounced (id u) (username u) pat) (users h))).
  2:{ unfold exec.
      now rewrite Server_handleAnnounceWin_run, Hsender, Hpat, Ht. }
  unfold exec.
  rewrite Server_handleAnnounceWin_run, Hsender, Hpat, Ht. simpl.
  repeat split.
Qed.

(** Without a pattern, or with the empty one, the handler does nothing:
    no winner, no message. *)
Lemma announceWin_needs_pattern w sock data h :
  truthy (Data.pattern data) = false ->
  Server.handleAnnounceWin w sock data h = (Returned tt, h).
Proof.
  intros Hp. rewrite Server_handleAnnounceWin_run.
  destruct (JsMap.findValue (onSocket sock) (users h)); [|reflexivity].
  destruct (Data.pattern data) as [pat|]; [|reflexivity].
  now rewrite Hp.
Qed.

(** C9 as stated fails: alice is registered on socket 1 and announces a
    win, once with no pattern and once with the empty pattern; no winner
    is set and nobody is told. *)
Lemma announceWin_not_unconditional :
  JsMap.findKey (onSocket 1%nat) (users aliceJoined) = Some "alice" /\
  winner (gameState
            (exec (Server.handleAnnounceWin calm 1%nat (winMsg None))
               aliceJoined)) = None /\
  sentBy (Server.handleAnnounceWin calm 1%nat (winMsg None)) aliceJoined = [] /\
  winner (gameState
            (exec (Server.handleAnnounceWin calm 1%nat (winMsg (Some "")))
               aliceJoined)) = None /\
  sentBy (Server.handleAnnounceWin calm 1%nat (winMsg (Some ""))) aliceJoined
    = [].
Proof. repeat split. Qed.

Lemma announceWin_sets_winner_witness :
  winner (gameState
            (exec (Server.handleAnnounceWin calm 1%nat (winMsg (Some "row")))
               aliceJoined)) = Some "alice".
Proof.
  refine (proj1 (proj2
    (announceWin_sets_winner calm 1%nat (winMsg (Some "row")) aliceJoined
       {| id := "alice"; username := "Player_z8y"; socket := 1%nat;
          ip := "10.0.0.1"; status := online; isAdmin := false;
          token := None; lastSeen := 1000 |}
       "row" _ _ _))).
  - reflexivity.
  - reflexivity.
  - discriminate.
Defined.

(* ================================================================== *)
(** * Joining *)
(* ================================================================== *)

Lemma Server_handleUserJoin_run w o sock data ip_ h :
  let user := joinedUser o sock data ip_ in
  let h1 := withUsers (JsMap.set (id user) user) h in
  let h2 :=
    withWire
      (fun l =>
         (l ++ [(sock, Welcome "Welcome to Assefa Digital Bingo!" (id user)
                         (gameState h))])%list) h1 in
  Server.handleUserJoin w o sock data ip_ h =
  if sendThrows w sock then (Threw, h2)
  else (Returned tt,
        withWire
          (fun l =>
             (l ++ fanout w (UsersList (Server.userList h1)) (users h1))%list)
          h2).
Proof.
  intros user h1 h2. unfold Server.handleUserJoin. cbv zeta.
  rewrite run_bind. unfold modify. rewrite run_bind. unfold gets.
  rewrite run_bind, run_send. fold user. fold h1. simpl gameState. fold h2.
  destruct (sendThrows w sock); [reflexivity|].
  unfold Server.broadcastUserList. rewrite run_bind. unfold gets.
  now rewrite Server_broadcastToAll_run.
Qed.

Lemma Server_handleUserJoin_users w o sock data ip_ h :
  users (exec (Server.handleUserJoin w o sock data ip_) h)
  = JsMap.set (id (joinedUser o sock data ip_)) (joinedUser o sock data ip_)
      (users h).
Proof.
  unfold exec. rewrite Server_handleUserJoin_run.
  now destruct (sendThrows w sock).
Qed.

(** C1, as the code has it.  A join under an identity that another
    socket already holds is not refused: the session registered under
    that identity is replaced by a new guest session on the joining
    socket (the last join wins) and the joiner is welcomed under that
    identity.  The registry keeps one session per identity, in the same
    order, and the sessions of the other identities are as before. *)
Theorem join_replaces_existing_session
    (w : World) (o : Oracle) (sock : WebSocket) (data : Data.t)
    (ip_ : string) (h : Hub) (k : string) (old : User)
    (Hid : Data.userId data = Some k)
    (Hk : k <> "")
    (Hold : JsMap.get k (users h) = Some old)
    (Hother : socket old <> sock) :
  let join := Server.handleUserJoin w o sock data ip_ in
  JsMap.get k (users (exec join h))
    = Some {| id := k;
              username := orElse (Data.username data)
                            ("Player_" ++ substring 2 3 (random2 o));
              socket := sock; ip := ip_; status := online; isAdmin := false;
              token := None; lastSeen := now o |} /\
  JsMap.get k (users (exec join h)) <> Some old /\
  JsMap.keys (users (exec join h)) = JsMap.keys (users h) /\
  (forall k', k' <> k ->
     JsMap.get k' (users (exec join h)) = JsMap.get k' (users h)) /\
  (exists rest,
     sentBy join h
     = (sock, Welcome "Welcome to Assefa Digital Bingo!" k (gameState h))
         :: rest).
Proof.
  intros join. unfold join.
  assert (Eid : id (joinedUser o sock data ip_) = k).
  { simpl. rewrite Hid. simpl.
    destruct (String.eqb_spec k ""); [contradiction | reflexivity]. }
  assert (Eu : joinedUser o sock data ip_
               = {| id := k;
                    username := orElse (Data.username data)
                                  ("Player_" ++ substring 2 3 (random2 o));
                    socket := sock; ip := ip_; status := online;
                    isAdmin := false; token := None; lastSeen := now o |}).
  { unfold joinedUser. f_equal. exact Eid. }
  rewrite Server_handleUserJoin_users, Eid, Eu.
  split; [apply get_set_same|].
  split; [rewrite get_set_same; intros [= <-]; now apply Hother|].
  split; [apply keys_set_present; congruence|].
  split; [intros k' Hk'; now apply get_set_other|].
  pose proof (Server_handleUserJoin_run w o sock data ip_ h) as Hrun.
  cbv zeta in Hrun. rewrite Eid in Hrun.
  destruct (sendThrows w sock).
  - exists []. apply sentBy_app. unfold exec. now rewrite Hrun.
  - eexists. apply sentBy_app. unfold exec. rewrite Hrun. simpl.
    rewrite <- app_assoc. reflexivity.
Qed.

(** C1 as stated fails: alice is registered on socket 1, which is open;
    a join as alice arrives on socket 2.  The handler returns normally,
    the newcomer is welcomed as alice, and the registry now binds alice
    to socket 2: the session on socket 1 is gone. *)
Lemma join_duplicate_identity_not_rejected :
  let join := Server.handleUserJoin calm (oracleAt 2000 "") 2%nat
                (joinMsg "alice") "10.0.0.2" in
  option_map socket (JsMap.get "alice" (users aliceJoined)) = Some 1%nat /\
  socketOpen calm 1%nat = true /\
  outcome join aliceJoined = Returned tt /\
  option_map socket (JsMap.get "alice" (users (exec join aliceJoined)))
    = Some 2%nat /\
  JsMap.findKey (onSocket 1%nat) (users (exec join aliceJoined)) = None /\
  hd_error (sentBy join aliceJoined)
    = Some (2%nat,
            Welcome "Welcome to Assefa Digital Bingo!" "alice" initialGame).
Proof. repeat split. Qed.

Lemma join_replaces_existing_session_witness :
  JsMap.keys
    (users
       (exec (Server.handleUserJoin calm (oracleAt 2000 "") 2%nat
                (joinMsg "alice") "10.0.0.2") aliceJoined))
  = ["alice"].
Proof.
  refine (proj1 (proj2 (proj2
    (join_replaces_existing_session calm (oracleAt 2000 "") 2%nat
       (joinMsg "alice") "10.0.0.2" aliceJoined "alice"
       {| id := "alice"; username := "Player_z8y"; socket := 1%nat;
          ip := "10.0.0.1"; status := online; isAdmin := false;
          token := None; lastSeen := 1000 |}
       _ _ _ _)))).
  - reflexivity.
  - discriminate.
  - reflexivity.
  - discriminate.
Defined.

(* ================================================================== *)
(** * The registry is keyed by identity *)
(* ================================================================== *)

Lemma usersOk_empty : usersOk JsMap.empty.
Proof. split; constructor. Qed.

Lemma usersOk_set u m : usersOk m -> usersOk (JsMap.set (id u) u m).
Proof.
  intros [Hd Hk]. split; [now apply NoDup_keys_set|].
  apply Forall_forall. intros e He.
  apply entries_set in He as [-> | He]; [reflexivity|].
  revert e He. now apply Forall_forall.
Qed.

Lemma usersOk_delete k m : usersOk m -> usersOk (JsMap.delete k m).
Proof.
  intros [Hd Hk]. split; [now apply NoDup_keys_delete|].
  apply Forall_forall. intros e He. apply entries_delete_subset in He.
  revert e He. now apply Forall_forall.
Qed.

Lemma usersOk_sweep p m : usersOk m -> usersOk (JsMap.sweep p m).
Proof.
  intros [Hd Hk]. split; [now apply NoDup_keys_sweep|].
  apply Forall_forall. intros e He. apply sweep_entries in He as [He _].
  revert e He. now apply Forall_forall.
Qed.

Lemma usersOk_mutateFirst p f m :
  (forall u, id (f u) = id u) ->
  usersOk m -> usersOk (JsMap.mutateFirst p f m).
Proof.
  intros Hf [Hd Hk]. split; [now rewrite keys_mutateFirst|].
  clear Hd. induction Hk as [|[k u] m Hu Hm IH]; simpl; [constructor|].
  destruct (p u); constructor; auto. simpl in *. now rewrite Hf.
Qed.

(** In a registry keyed by identity, the session [find] picks by socket
    is the one [get] returns for its identity. *)
Lemma usersOk_find_get p m u :
  usersOk m -> JsMap.findValue p m = Some u -> JsMap.get (id u) m = Some u.
Proof.
  intros [Hd Hk] Hfind.
  destruct (mutateFirst_split p (fun x => x) m u Hfind)
    as (l1 & k & l2 & -> & _ & _ & _).
  assert (Ek : k = id u).
  { rewrite Forall_forall in Hk. apply (Hk (k, u)).
    apply in_or_app. right. left. reflexivity. }
  subst k. apply get_middle.
  unfold JsMap.keys in Hd. rewrite map_app in Hd. simpl in Hd.
  apply NoDup_remove_2 in Hd. intros Hin. apply Hd.
  apply in_or_app. left. exact Hin.
Qed.

Lemma usersOk_find_get_mutated p f m u :
  (forall x, id (f x) = id x) ->
  usersOk m -> JsMap.findValue p m = Some u ->
  JsMap.get (id u) (JsMap.mutateFirst p f m) = Some (f u).
Proof.
  intros Hf [Hd Hk] Hfind.
  destruct (mutateFirst_split p f m u Hfind)
    as (l1 & k & l2 & -> & -> & _ & _).
  assert (Ek : k = id u).
  { rewrite Forall_forall in Hk. apply (Hk (k, u)).
    apply in_or_app. right. left. reflexivity. }
  subst k. apply get_middle.
  unfold JsMap.keys in Hd. rewrite map_app in Hd. simpl in Hd.
  apply NoDup_remove_2 in Hd. intros Hin. apply Hd.
  apply in_or_app. left. exact Hin.
Qed.

Lemma usersOk_findKey p m u :
  usersOk m -> JsMap.findValue p m = Some u ->
  JsMap.findKey p m = Some (id u).
Proof.
  intros [_ Hk]. unfold JsMap.findValue, JsMap.findKey, JsMap.values.
  induction Hk as [|[k v] m Hv _ IH]; simpl; [discriminate|].
  destruct (p v); simpl.
  - intros [= <-]. simpl in Hv. now subst.
  - exact IH.
Qed.

Section RegistryInvariant.
Variables (w : World) (o : Oracle).

Lemma TokenServer_handleAdminAuth_usersOk sock data :
  Inv registryOk (TokenServer.handleAdminAuth w o sock data).
Proof.
  unfold TokenServer.handleAdminAuth. inv_auto;
    try (apply Inv_modify; intros h Hh; unfold registryOk in *; simpl).
  - apply usersOk_mutateFirst; [reflexivity | exact Hh].
  - apply (usersOk_set
             {| id := "admin_" ++ show (now o); username := "Admin";
                socket := sock; ip := "admin"; status := online;
                isAdmin := true; token := Some (newToken o);
                lastSeen := now o |}), Hh.
  - exact Hh.
Qed.

Lemma TokenServer_handleUserJoin_usersOk sock data ip_ :
  Inv registryOk (TokenServer.handleUserJoin w o sock data ip_).
Proof.
  unfold TokenServer.handleUserJoin. inv_auto; [|talk].
  apply Inv_modify. intros h Hh. unfold registryOk in *; simpl.
  match goal with
  | |- usersOk (JsMap.set ?k ?u _) => apply (usersOk_set u), Hh
  end.
Qed.

Lemma TokenServer_handleAdminCommand_usersOk sock data :
  Inv registryOk (TokenServer.handleAdminCommand w o sock data).
Proof.
  unfold TokenServer.handleAdminCommand, TokenServer.runCommand,
    TokenServer.broadcastGameState, TokenServer.broadcastMessage.
  inv_auto; try talk; apply Inv_modify; auto.
Qed.

Lemma TokenServer_step_usersOk e : Inv registryOk (TokenServer.step w o e).
Proof.
  destruct e; simpl; try apply Inv_ret.
  - apply Inv_tryCatch.
    unfold TokenServer.handleWebSocketMessage, TokenServer.handleMarkNumber,
      TokenServer.handleCallNumber, TokenServer.handleAnnounceWin.
    inv_auto; try talk; try (apply Inv_modify; now auto).
    + apply TokenServer_handleUserJoin_usersOk.
    + apply TokenServer_handleAdminAuth_usersOk.
    + apply TokenServer_handleAdminCommand_usersOk.
  - unfold TokenServer.handleDisconnection. inv_auto; try talk.
    apply Inv_modify. intros h Hh. now apply usersOk_delete.
  - apply Inv_modify. auto.
Qed.

Lemma Server_step_usersOk e : Inv registryOk (Server.step w o e).
Proof.
  destruct e; simpl.
  - unfold Server.onopen. inv_auto.
  - apply Inv_tryCatch.
    unfold Server.handleWebSocketMessage, Server.handleMarkNumber,
      Server.handleCallNumber, Server.handleAnnounceWin,
      Server.handleAdminCommand, Server.runCommand,
      Server.broadcastGameState, Server.broadcastMessage,
      Server.handleUserJoin, Server.handleAdminAuth.
    inv_auto; try talk;
      apply Inv_modify; intros h Hh; unfold registryOk in *; simpl; auto;
      try (now apply usersOk_delete);
      match goal with
      | |- usersOk (JsMap.set ?k ?u _) => apply (usersOk_set u), Hh
      end.
  - unfold Server.handleDisconnection. inv_auto.
    apply Inv_modify. intros h Hh. now apply usersOk_delete.
  - talk.
  - apply Inv_modify. auto.
  - apply Inv_modify. intros h Hh. now apply usersOk_sweep.
Qed.

End RegistryInvariant.

(** Every state either server can reach has a registry keyed by
    identity, one session per identity. *)
Lemma usersOk_reachable :
  (forall history, usersOk (users (Server.run history initialHub))) /\
  (forall history, usersOk (users (TokenServer.run history initialHub))).
Proof.
  split; intros history.
  - assert (H : forall h, usersOk (users h) ->
                          usersOk (users (Server.run history h))).
    { induction history as [|[[w o] e] rest IH]; intros h Hh; simpl; auto.
      apply IH. now apply Server_step_usersOk. }
    apply H, usersOk_empty.
  - assert (H : forall h, usersOk (users h) ->
                          usersOk (users (TokenServer.run history h))).
    { induction history as [|[[w o] e] rest IH]; intros h Hh; simpl; auto.
      apply IH. now apply TokenServer_step_usersOk. }
    apply H, usersOk_empty.
Qed.

(* ================================================================== *)
(** * Relaying RTC envelopes *)
(* ================================================================== *)

Lemma Server_handleRTCMessage_run w sock data h :
  Server.handleRTCMessage w sock data h =
  match getUser (Data.targetUserId data) h with
  | Some t =>
      if socketOpen w (socket t)
      then send w (socket t)
             (RtcForward data (JsMap.findKey (onSocket sock) (users h))) h
      else (Returned tt, h)
  | None => (Returned tt, h)
  end.
Proof.
  unfold Server.handleRTCMessage. rewrite run_bind. unfold gets.
  destruct (getUser (Data.targetUserId data) h) as [t|]; [|reflexivity].
  destruct (socketOpen w (socket t)); reflexivity.
Qed.

Lemma sentBy_nothing {A : Type} (m : M A) h :
  wire (exec m h) = wire h -> sentBy m h = [].
Proof.
  intros H. apply sentBy_app. now rewrite app_nil_r.
Qed.

(** What [find] over the entries returns is the first entry that passes
    the test. *)
Lemma findKey_first {V : Type} (p : V -> bool) (m : JsMap.t V) k :
  JsMap.findKey p m = Some k ->
  exists before v after,
    m = (before ++ (k, v) :: after)%list /\ p v = true /\
    Forall (fun e => p (snd e) = false) before.
Proof.
  unfold JsMap.findKey.
  induction m as [|[k0 v0] m IH]; simpl; [discriminate|].
  destruct (p v0) eqn:E0; simpl.
  - intros [= <-]. now exists [], v0, m.
  - intros Hk. destruct (IH Hk) as (before & v & after & -> & Hp & Hb).
    exists ((k0, v0) :: before), v, after. repeat split; auto.
Qed.

Lemma findKey_none {V : Type} (p : V -> bool) (m : JsMap.t V) :
  JsMap.findKey p m = None -> Forall (fun e => p (snd e) = false) m.
Proof.
  unfold JsMap.findKey.
  induction m as [|[k0 v0] m IH]; simpl; [constructor|].
  destruct (p v0) eqn:E0; simpl; [discriminate|].
  intros Hk. constructor; auto.
Qed.

(** [SignalingController.handleSignal] forwards the signal as it came or
    drops it. *)
Lemma handleSignal_forward_or_drop w self ws signal :
  (forall targetWs,
      JsMap.get (target signal) (Signaling.connections self) = Some targetWs ->
      socketOpen w targetWs = true ->
      Signaling.handleSignal w self ws signal = [(targetWs, RtcSignalMsg signal)]) /\
  (JsMap.get (target signal) (Signaling.connections self) = None ->
   Signaling.handleSignal w self ws signal = []) /\
  (forall targetWs,
      JsMap.get (target signal) (Signaling.connections self) = Some targetWs ->
      socketOpen w targetWs = false ->
      Signaling.handleSignal w self ws signal = []).
Proof.
  unfold Signaling.handleSignal. repeat split.
  - intros t -> ->. reflexivity.
  - intros ->. reflexivity.
  - intros t -> ->. reflexivity.
Qed.

(** C6, as the code has it.  The relay of an RTC envelope ([rtc_offer],
    [rtc_answer], [ice_candidate]) by [handleRTCMessage]: when the
    target identity is registered and its socket is open, exactly one
    message is sent, to the target, and it is the envelope as it came
    with [fromUserId]; when the target is unknown or its socket is not
    open, nothing is sent to anyone, the sender included.  [fromUserId]
    is the key of the first entry of the registry whose session is on
    the sender's socket, and is absent when no session is on that
    socket; in a registry keyed by identity it is the identity of a
    session registered on the sender's socket.  The registry, the tokens
    and the game are untouched.  [SignalingController.handleSignal]
    forwards and drops in the same way but injects nothing: what it
    sends is the signal as it came, with the [source] its sender wrote,
    whatever socket it came from. *)
Theorem rtc_relay_or_silent_drop
    (w : World) (sock : WebSocket) (data : Data.t) (h : Hub) :
  let relay := Server.handleRTCMessage w sock data in
  let fromUserId := JsMap.findKey (onSocket sock) (users h) in
  (forall t,
      getUser (Data.targetUserId data) h = Some t ->
      socketOpen w (socket t) = true ->
      sentBy relay h = [(socket t, RtcForward data fromUserId)]) /\
  (getUser (Data.targetUserId data) h = None \/
   (exists t, getUser (Data.targetUserId data) h = Some t /\
              socketOpen w (socket t) = false) ->
   sentBy relay h = []) /\
  (forall me,
      fromUserId = Some me ->
      exists before u after,
        users h = (before ++ (me, u) :: after)%list /\
        socket u = sock /\
        Forall (fun e => socket (snd e) <> sock) before) /\
  (fromUserId = None ->
   Forall (fun e => socket (snd e) <> sock) (users h)) /\
  (forall me,
      usersOk (users h) ->
      fromUserId = Some me ->
      exists u, JsMap.get me (users h) = Some u /\
                id u = me /\ socket u = sock) /\
  (users (exec relay h) = users h /\
   adminTokens (exec relay h) = adminTokens h /\
   gameState (exec relay h) = gameState h) /\
  (forall (self : Signaling.SignalingController) (ws : WebSocket)
          (signal : RTCSignal),
      (forall targetWs,
          JsMap.get (target signal) (Signaling.connections self)
            = Some targetWs ->
          socketOpen w targetWs = true ->
          Signaling.handleSignal w self ws signal
          = [(targetWs, RtcSignalMsg signal)]) /\
      (JsMap.get (target signal) (Signaling.connections self) = None \/
       (exists targetWs,
          JsMap.get (target signal) (Signaling.connections self)
            = Some targetWs /\
          socketOpen w targetWs = false) ->
       Signaling.handleSignal w self ws signal = []) /\
      (forall ws',
          Signaling.handleSignal w self ws' signal
          = Signaling.handleSignal w self ws signal)).
Proof.
  intros relay fromUserId. unfold relay, fromUserId.
  assert (Hfirst : forall me,
            JsMap.findKey (onSocket sock) (users h) = Some me ->
            exists before u after,
              users h = (before ++ (me, u) :: after)%list /\
              socket u = sock /\
              Forall (fun e => socket (snd e) <> sock) before).
  { intros me Hme.
    destruct (findKey_first _ _ _ Hme) as (before & u & after & E & Hp & Hb).
    exists before, u, after. split; [exact E|]. split.
    - now apply Nat.eqb_eq.
    - eapply Forall_impl; [|exact Hb]. intros e He. now apply Nat.eqb_neq. }
  split; [|split; [|split; [|split; [|split; [|split]]]]].
  - intros t Ht Ho. apply sentBy_app. unfold exec.
    rewrite Server_handleRTCMessage_run, Ht, Ho, run_send. reflexivity.
  - intros Hdrop. apply sentBy_nothing. unfold exec.
    rewrite Server_handleRTCMessage_run.
    destruct Hdrop as [-> | (t & -> & ->)]; reflexivity.
  - exact Hfirst.
  - intros Hnone. eapply Forall_impl; [|exact (findKey_none _ _ Hnone)].
    intros e He. now apply Nat.eqb_neq.
  - intros me [Hd Hk] Hme.
    destruct (Hfirst me Hme) as (before & u & after & E & Hs & _).
    exists u. rewrite E in Hd, Hk |- *.
    split; [|split; [|exact Hs]].
    + apply get_middle. unfold JsMap.keys in Hd. rewrite map_app in Hd.
      simpl in Hd. apply NoDup_remove_2 in Hd.
      intros Hin. apply Hd. apply in_or_app. left. exact Hin.
    + apply Forall_app in Hk as [_ Hk]. inversion Hk; subst. simpl in *.
      congruence.
  - repeat split; apply frame; intros x; talk.
  - intros self ws signal.
    destruct (handleSignal_forward_or_drop w self ws signal)
      as (Hfwd & Hnone & Hclosed).
    split; [exact Hfwd|]. split; [|reflexivity].
    intros [Hn | (targetWs & Hg & Hc)]; [now apply Hnone|].
    now apply (Hclosed targetWs).
Qed.

(** The relay of the token-checking variant is the same function. *)
Remark TokenServer_handleRTCMessage_same w sock data :
  TokenServer.handleRTCMessage w sock data = Server.handleRTCMessage w sock data.
Proof. reflexivity. Qed.

(** C6 as stated fails where it says that the identity of the sender is
    injected.  In [handleRTCMessage] a sender without a session is
    relayed all the same, and no [fromUserId] goes with the envelope:
    socket 9, on which nobody is registered, sends an offer to bob.  In
    [handleSignal] no identity is injected at all: alice is connected
    on socket 1 and bob on socket 2; an offer for bob that names mallory
    as its source reaches bob with that source, whether it comes from
    alice's socket or from a socket that nobody is registered on. *)
Lemma relay_without_sender_identity :
  let self :=
    Signaling.registerConnection
      (Signaling.registerConnection
         {| Signaling.connections := JsMap.empty |} "alice" 1%nat)
      "bob" 2%nat in
  let signal :=
    {| signalType := offer; sdp := Some "v=0"; iceCandidate := None;
       target := "bob"; source := "mallory" |} in
  sentBy (Server.handleRTCMessage calm 9%nat (offerMsg "bob")) threeJoined
    = [(2%nat, RtcForward (offerMsg "bob") None)] /\
  JsMap.findKey (fun ws => Nat.eqb ws 1) (Signaling.connections self)
    = Some "alice" /\
  Signaling.handleSignal calm self 1%nat signal
    = [(2%nat, RtcSignalMsg signal)] /\
  Signaling.handleSignal calm self 3%nat signal
    = [(2%nat, RtcSignalMsg signal)] /\
  source signal <> "alice".
Proof. repeat split. discriminate. Qed.

(* ================================================================== *)
(** * Signing in as admin *)
(* ================================================================== *)

Lemma exec_gets_bind {A B : Type} (f : Hub -> A) (k : A -> M B) h :
  exec (bind (gets f) k) h = exec (k (f h)) h.
Proof. reflexivity. Qed.

Lemma get_delete_same {V : Type} k (m : JsMap.t V) :
  NoDup (JsMap.keys m) -> JsMap.get k (JsMap.delete k m) = None.
Proof.
  induction m as [|[k0 v0] m IH]; simpl; intros Hd; auto.
  inversion Hd; subst.
  destruct (String.eqb_spec k k0) as [->|Hk]; simpl.
  - now apply get_None_keys.
  - destruct (String.eqb_spec k k0); [contradiction | auto].
Qed.

Lemma get_delete_other {V : Type} k k' (m : JsMap.t V) :
  k' <> k -> JsMap.get k' (JsMap.delete k m) = JsMap.get k' m.
Proof.
  intros Hne. induction m as [|[k0 v0] m IH]; simpl; auto.
  destruct (String.eqb_spec k k0) as [->|Hk]; simpl.
  - destruct (String.eqb_spec k' k0); [contradiction | reflexivity].
  - now rewrite IH.
Qed.

(** The sign-in of the token-checking variant, with the right password
    and a session already registered on the socket. *)
Lemma TokenServer_handleAdminAuth_existing w o sock data h u :
  verifyAdminPassword (Data.password data) = true ->
  JsMap.findValue (onSocket sock) (users h) = Some u ->
  TokenServer.handleAdminAuth w o sock data h =
  send w sock
    (AuthResponse true (Some (newToken o)) "Authentication successful")
    {| users :=
         JsMap.mutateFirst (onSocket sock)
           (TokenServer.upgrade (newToken o)) (users h);
       adminTokens :=
         JsMap.set (newToken o)
           {| userId := id u; expires := now o + DAY_MS |} (adminTokens h);
       gameState := gameState h;
       wire := wire h |}.
Proof.
  intros Hpw Hfind. unfold TokenServer.handleAdminAuth.
  rewrite Hpw. cbv zeta. rewrite run_bind. unfold gets. rewrite Hfind.
  reflexivity.
Qed.

(** The same, with no session registered on the socket. *)
Lemma TokenServer_handleAdminAuth_fresh w o sock data h :
  verifyAdminPassword (Data.password data) = true ->
  JsMap.findValue (onSocket sock) (users h) = None ->
  TokenServer.handleAdminAuth w o sock data h =
  send w sock
    (AuthResponse true (Some (newToken o)) "Authentication successful")
    {| users :=
         JsMap.set (id (adminSession o sock)) (adminSession o sock) (users h);
       adminTokens :=
         JsMap.set (newToken o)
           {| userId := id (adminSession o sock); expires := now o + DAY_MS |}
           (adminTokens h);
       gameState := gameState h;
       wire := wire h |}.
Proof.
  intros Hpw Hfind. unfold TokenServer.handleAdminAuth.
  rewrite Hpw. cbv zeta. rewrite run_bind. unfold gets. rewrite Hfind.
  reflexivity.
Qed.

(** The sign-in of [server.ts]: registry, tokens and game afterwards. *)
Lemma Server_handleAdminAuth_state w o sock data h :
  verifyAdminPassword (Data.password data) = true ->
  let cleared :=
    match JsMap.findKey (onSocket sock) (users h) with
    | Some k => if truthy (Some k) then JsMap.delete k (users h) else users h
    | None => users h
    end in
  users (exec (Server.handleAdminAuth w o sock data) h)
    = JsMap.set (id (adminSession o sock)) (adminSession o sock) cleared /\
  adminTokens (exec (Server.handleAdminAuth w o sock data) h)
    = JsMap.set (newToken o)
        {| userId := id (adminSession o sock); expires := now o + DAY_MS |}
        (adminTokens h) /\
  gameState (exec (Server.handleAdminAuth w o sock data) h) = gameState h.
Proof.
  intros Hpw cleared. unfold Server.handleAdminAuth.
  rewrite Hpw. cbv zeta. rewrite exec_gets_bind.
  set (tail := fun _ : unit => bind (modify _) _).
  assert (Htail : forall h0,
    users (exec (tail tt) h0)
      = JsMap.set (id (adminSession o sock)) (adminSession o sock) (users h0) /\
    adminTokens (exec (tail tt) h0)
      = JsMap.set (newToken o)
          {| userId := id (adminSession o sock); expires := now o + DAY_MS |}
          (adminTokens h0) /\
    gameState (exec (tail tt) h0) = gameState h0).
  { intros h0. unfold tail. rewrite !exec_modify_bind.
    repeat split;
      (etransitivity; [apply frame; intros x; inv_auto; talk | reflexivity]). }
  unfold cleared.
  destruct (JsMap.findKey (onSocket sock) (users h)) as [k|].
  - destruct (truthy (Some k)).
    + rewrite exec_modify_bind. exact (Htail (withUsers (JsMap.delete k) h)).
    + exact (Htail h).
  - exact (Htail h).
Qed.

(** C8, as the code has it.  A sign-in with the right password on a
    socket that already has a session [u].  In the token-checking variant
    (utilshelpers.ts) no session is created or removed: the registry is
    the same sequence of sessions, with [u] in its place and under its
    identity, its [isAdmin] set and the new token attached, every other
    field and every other session as before; the token is recorded for
    the identity of [u], with a life of 24 hours.  In [server.ts] the
    session [u] is removed and a new admin session takes its place on
    the socket, under the identity [admin_<now>], with the name Admin;
    the token is recorded for that new identity.  The sessions of all
    other identities stay as they are, a further session of the same
    socket among them. *)
Theorem authenticate_on_existing_session
    (w : World) (o : Oracle) (sock : WebSocket) (data : Data.t) (h : Hub)
    (u : User)
    (Hpw : verifyAdminPassword (Data.password data) = true)
    (Hok : usersOk (users h))
    (Hfind : JsMap.findValue (onSocket sock) (users h) = Some u)
    (Hid : id u <> "") :
  (let auth := TokenServer.handleAdminAuth w o sock data in
   let upgraded :=
     {| id := id u; username := username u; socket := socket u; ip := ip u;
        status := status u; isAdmin := true; token := Some (newToken o);
        lastSeen := lastSeen u |} in
   (exists before after,
       users h = (before ++ (id u, u) :: after)%list /\
       users (exec auth h) = (before ++ (id u, upgraded) :: after)%list) /\
   JsMap.keys (users (exec auth h)) = JsMap.keys (users h) /\
   JsMap.findValue (onSocket sock) (users (exec auth h)) = Some upgraded /\
   adminTokens (exec auth h)
     = JsMap.set (newToken o)
         {| userId := id u; expires := now o + DAY_MS |} (adminTokens h) /\
   gameState (exec auth h) = gameState h /\
   sentBy auth h
     = [(sock, AuthResponse true (Some (newToken o))
                 "Authentication successful")])
  /\
  (let auth := Server.handleAdminAuth w o sock data in
   users (exec auth h)
     = JsMap.set (id (adminSession o sock)) (adminSession o sock)
         (JsMap.delete (id u) (users h)) /\
   JsMap.get (id (adminSession o sock)) (users (exec auth h))
     = Some (adminSession o sock) /\
   (id u <> id (adminSession o sock) ->
    JsMap.get (id u) (users (exec auth h)) = None) /\
   (forall k, k <> id u -> k <> id (adminSession o sock) ->
    JsMap.get k (users (exec auth h)) = JsMap.get k (users h)) /\
   adminTokens (exec auth h)
     = JsMap.set (newToken o)
         {| userId := id (adminSession o sock); expires := now o + DAY_MS |}
         (adminTokens h) /\
   gameState (exec auth h) = gameState h).
Proof.
  split.
  - cbv zeta.
    pose proof (TokenServer_handleAdminAuth_existing w o sock data h u Hpw Hfind)
      as Hrun.
    rewrite run_send in Hrun.
    destruct (mutateFirst_split (onSocket sock)
                (TokenServer.upgrade (newToken o)) (users h) u Hfind)
      as (before & k & after & Hm & Hm' & Hbefore & Hp).
    assert (Ek : k = id u).
    { destruct Hok as [_ Hk]. rewrite Forall_forall in Hk.
      apply (Hk (k, u)). rewrite Hm. apply in_or_app. right. now left. }
    subst k. unfold exec. rewrite Hrun. simpl.
    split; [exists before, after; split; [exact Hm | exact Hm']|].
    split; [apply keys_mutateFirst|].
    split.
    { rewrite Hm'. unfold JsMap.findValue, JsMap.values.
      rewrite map_app. simpl.
      clear - Hbefore Hp. induction before as [|[k0 v0] before IH]; simpl.
      - unfold onSocket in *. simpl. now rewrite Hp.
      - simpl in Hbefore. apply andb_prop in Hbefore as [Hn Hb].
        apply negb_true_iff in Hn. rewrite Hn. now apply IH. }
    split; [reflexivity|].
    split; [reflexivity|].
    apply sentBy_app. unfold exec. rewrite Hrun. reflexivity.
  - cbv zeta.
    destruct (Server_handleAdminAuth_state w o sock data h Hpw)
      as (Hu & Ht & Hg).
    rewrite (usersOk_findKey _ _ _ Hok Hfind) in Hu.
    assert (Htr : truthy (Some (id u)) = true).
    { simpl. destruct (String.eqb_spec (id u) ""); [contradiction|reflexivity]. }
    rewrite Htr in Hu. rewrite Hu, Ht, Hg.
    repeat split.
    + apply get_set_same.
    + intros Hne. rewrite get_set_other by exact Hne.
      apply get_delete_same. apply Hok.
    + intros k Hku Hka. rewrite get_set_other by exact Hka.
      now apply get_delete_other.
Qed.

(** C8 as stated fails on [server.ts]: alice is registered on socket 1
    and signs in there.  Afterwards there is no session alice; the
    session on socket 1 is a new one, admin_2000, named Admin. *)
Lemma authenticate_replaces_session :
  let auth := Server.handleAdminAuth calm (oracleAt 2000 "t1") 1%nat
                (authMsg "we17me78") in
  JsMap.keys (users aliceJoined) = ["alice"] /\
  JsMap.findKey (onSocket 1%nat) (users aliceJoined) = Some "alice" /\
  JsMap.keys (users (exec auth aliceJoined)) = ["admin_2000"] /\
  JsMap.get "alice" (users (exec auth aliceJoined)) = None /\
  option_map username
    (JsMap.findValue (onSocket 1%nat) (users (exec auth aliceJoined)))
    = Some "Admin" /\
  option_map ip
    (JsMap.findValue (onSocket 1%nat) (users (exec auth aliceJoined)))
    = Some "admin".
Proof. repeat split. Qed.

Lemma authenticate_on_existing_session_witness :
  JsMap.keys
    (users (exec (TokenServer.handleAdminAuth calm (oracleAt 2000 "t1") 1%nat
                    (authMsg "we17me78")) aliceJoined))
  = ["alice"] /\
  JsMap.keys
    (users (exec (Server.handleAdminAuth calm (oracleAt 2000 "t1") 1%nat
                    (authMsg "we17me78")) aliceJoined))
  = ["admin_2000"].
Proof.
  pose proof
    (authenticate_on_existing_session calm (oracleAt 2000 "t1") 1%nat
       (authMsg "we17me78") aliceJoined
       {| id := "alice"; username := "Player_z8y"; socket := 1%nat;
          ip := "10.0.0.1"; status := online; isAdmin := false;
          token := None; lastSeen := 1000 |}
       eq_refl (proj1 usersOk_reachable _) eq_refl
       ltac:(discriminate)) as [HA HB].
  split.
  - exact (proj1 (proj2 HA)).
  - exact (f_equal JsMap.keys (proj1 HB)).
Defined.

(* ================================================================== *)
(** * Admin commands and tokens *)
(* ================================================================== *)

Lemma TokenServer_handleAdminCommand_run w o sock data h :
  TokenServer.handleAdminCommand w o sock data h =
  match tokenVerdict o data h with
  | Some why => send w sock (CommandResponse false why) h
  | None =>
      (TokenServer.runCommand w o sock data ;;
       send w sock
         (CommandResponse true
            ("Command " ++ dquote ++ commandName data ++ dquote
               ++ " executed"))) h
  end.
Proof.
  unfold TokenServer.handleAdminCommand, tokenVerdict.
  rewrite run_bind. unfold gets.
  destruct (TokenServer.getToken (Data.token data) h) as [td|]; [|reflexivity].
  destruct (expires td <? now o); [reflexivity|].
  rewrite run_bind.
  destruct (JsMap.get (userId td) (users h)) as [u|]; [|reflexivity].
  destruct (isAdmin u); reflexivity.
Qed.

Lemma verdict_executes w o sock data h :
  tokenVerdict o data h = None -> executes w o sock data h.
Proof.
  intros Hv. unfold executes.
  now rewrite TokenServer_handleAdminCommand_run, Hv.
Qed.

Lemma verdict_rejects w o sock data h why :
  tokenVerdict o data h = Some why -> rejects w o sock data h why.
Proof.
  intros Hv. unfold rejects.
  now rewrite TokenServer_handleAdminCommand_run, Hv.
Qed.

(** The words of the specification and the guards of the code agree. *)
Lemma unauthorized_iff_verdict o data h :
  Unauthorized o data h <-> exists why, tokenVerdict o data h = Some why.
Proof.
  unfold tokenVerdict, TokenServer.getToken. split.
  - intros [Ht | t Ht Hg | t td Ht Hg He | t td Ht Hg Hu]; rewrite Ht.
    + eauto.
    + rewrite Hg. eauto.
    + rewrite Hg. apply Z.ltb_lt in He. rewrite He. eauto.
    + rewrite Hg. destruct (expires td <? now o); [eauto|].
      destruct (JsMap.get (userId td) (users h)) as [u|]; [|eauto].
      rewrite (Hu u eq_refl). eauto.
  - intros [why Hv].
    destruct (Data.token data) as [t|] eqn:Ht; [|now apply TokenMissing].
    destruct (JsMap.get t (adminTokens h)) as [td|] eqn:Hg;
      [|now apply (TokenUnknown _ _ _ t)].
    destruct (Z.ltb_spec (expires td) (now o)) as [He|He];
      [now apply (TokenExpired _ _ _ t td)|].
    apply (NoAdminSession _ _ _ t td); auto.
    intros u Hu. rewrite Hu in Hv. now destruct (isAdmin u).
Qed.

Lemma get_In {V : Type} k (v : V) (m : JsMap.t V) :
  JsMap.get k m = Some v -> In (k, v) m.
Proof.
  induction m as [|[k0 v0] m IH]; simpl; [discriminate|].
  destruct (String.eqb_spec k k0) as [->|Hk].
  - intros [= ->]. now left.
  - intros H. right. now apply IH.
Qed.

Lemma In_get {V : Type} k (v : V) (m : JsMap.t V) :
  NoDup (JsMap.keys m) -> In (k, v) m -> JsMap.get k m = Some v.
Proof.
  induction m as [|[k0 v0] m IH]; simpl; intros Hd Hin; [contradiction|].
  inversion Hd; subst.
  destruct Hin as [[= -> ->]|Hin].
  - now rewrite String.eqb_refl.
  - destruct (String.eqb_spec k k0) as [->|Hk]; [|now apply IH].
    exfalso. match goal with Hn : ~ In _ _ |- _ => apply Hn end.
    apply in_map_iff. now exists (k0, v).
Qed.

(** A sweep keeps exactly the entries its test spares. *)
Lemma get_sweep_iff {V : Type} (p : string -> V -> bool) k v (m : JsMap.t V) :
  NoDup (JsMap.keys m) ->
  (JsMap.get k (JsMap.sweep p m) = Some v <->
   JsMap.get k m = Some v /\ p k v = false).
Proof.
  intros Hd. split.
  - intros H. apply get_In, sweep_entries in H as [Hin Hp].
    split; [now apply In_get | exact Hp].
  - intros [Hg Hp]. now apply sweep_get.
Qed.

Lemma verdict_of_token o cmd h t td a :
  Data.token cmd = Some t ->
  JsMap.get t (adminTokens h) = Some td ->
  JsMap.get (userId td) (users h) = Some a ->
  isAdmin a = true ->
  (now o <= expires td -> tokenVerdict o cmd h = None) /\
  (expires td < now o ->
   tokenVerdict o cmd h = Some "Invalid or expired token").
Proof.
  intros Ht Hg Hu Ha. unfold tokenVerdict, TokenServer.getToken.
  rewrite Ht, Hg. split; intros Hle.
  - destruct (Z.ltb_spec (expires td) (now o)); [lia|]. now rewrite Hu, Ha.
  - destruct (Z.ltb_spec (expires td) (now o)); [reflexivity|lia].
Qed.

Lemma validUntil_of_token w h t td a :
  JsMap.get t (adminTokens h) = Some td ->
  JsMap.get (userId td) (users h) = Some a ->
  isAdmin a = true ->
  validUntil w t (expires td) h.
Proof.
  intros Hg Hu Ha o sock cmd Ht.
  destruct (verdict_of_token o cmd h t td a Ht Hg Hu Ha) as [Hin Hout].
  split; intros Hle.
  - apply verdict_executes; auto.
  - apply verdict_rejects; auto.
Qed.

Lemma findValue_set_fresh {V : Type} (p : V -> bool) k v (m : JsMap.t V) :
  JsMap.findValue p m = None -> p v = true ->
  JsMap.findValue p (JsMap.set k v m) = Some v.
Proof.
  unfold JsMap.findValue, JsMap.values. intros Hnone Hp.
  induction m as [|[k0 v0] m IH]; simpl in *.
  - now rewrite Hp.
  - destruct (p v0) eqn:E0; [discriminate|].
    destruct (String.eqb k k0); simpl.
    + now rewrite Hp.
    + rewrite E0. now apply IH.
Qed.

Lemma findValue_mutateFirst {V : Type} (p : V -> bool) f (m : JsMap.t V) v :
  JsMap.findValue p m = Some v -> p (f v) = true ->
  JsMap.findValue p (JsMap.mutateFirst p f m) = Some (f v).
Proof.
  unfold JsMap.findValue, JsMap.values. intros Hfind Hp.
  induction m as [|[k0 v0] m IH]; simpl in *; [discriminate|].
  destruct (p v0) eqn:E0; simpl.
  - injection Hfind as ->. now rewrite Hp.
  - rewrite E0. now apply IH.
Qed.

(** What a sign-in leaves behind: the token, recorded for the identity
    of the admin session now registered on the socket. *)
Lemma TokenServer_issued w o sock data h :
  verifyAdminPassword (Data.password data) = true ->
  usersOk (users h) ->
  let h1 := exec (TokenServer.handleAdminAuth w o sock data) h in
  exists a,
    JsMap.get (newToken o) (adminTokens h1)
      = Some {| userId := id a; expires := now o + DAY_MS |} /\
    JsMap.get (id a) (users h1) = Some a /\
    JsMap.findValue (onSocket sock) (users h1) = Some a /\
    isAdmin a = true /\
    (forall t, t <> newToken o ->
       JsMap.get t (adminTokens h1) = JsMap.get t (adminTokens h)) /\
    (forall u, JsMap.findValue (onSocket sock) (users h) = Some u ->
       id a = id u).
Proof.
  intros Hpw Hok h1. unfold h1, exec.
  destruct (JsMap.findValue (onSocket sock) (users h)) as [u|] eqn:Hfind.
  - rewrite (TokenServer_handleAdminAuth_existing w o sock data h u Hpw Hfind).
    rewrite run_send. simpl.
    exists (TokenServer.upgrade (newToken o) u). simpl.
    assert (Hp : onSocket sock u = true).
    { unfold JsMap.findValue in Hfind. now apply find_some in Hfind. }
    repeat split.
    + apply get_set_same.
    + now apply usersOk_find_get_mutated.
    + now apply findValue_mutateFirst.
    + intros t Ht. now apply get_set_other.
    + now intros u' [= <-].
  - rewrite (TokenServer_handleAdminAuth_fresh w o sock data h Hpw Hfind).
    rewrite run_send. simpl.
    exists (adminSession o sock).
    repeat split.
    + apply get_set_same.
    + apply get_set_same.
    + apply findValue_set_fresh; [exact Hfind|].
      unfold onSocket. simpl. apply Nat.eqb_refl.
    + intros t Ht. now apply get_set_other.
    + discriminate.
Qed.

Lemma TokenServer_sweepTokens_keeps os h t td :
  JsMap.get t (adminTokens h) = Some td ->
  now os <= expires td ->
  JsMap.get t (adminTokens (exec (TokenServer.sweepTokens os) h)) = Some td /\
  users (exec (TokenServer.sweepTokens os) h) = users h.
Proof.
  intros Hg Hle. split; [|reflexivity].
  simpl. apply sweep_get; [exact Hg|].
  apply Z.ltb_ge. exact Hle.
Qed.

(** A sweep that comes after the expiry removes the token. *)
Lemma TokenServer_sweepTokens_removes os h t td :
  NoDup (JsMap.keys (adminTokens h)) ->
  JsMap.get t (adminTokens h) = Some td ->
  expires td < now os ->
  JsMap.get t (adminTokens (exec (TokenServer.sweepTokens os) h)) = None.
Proof.
  intros Hd Hg Hlt. simpl.
  apply get_None_keys. intros Hin.
  unfold JsMap.keys in Hin. apply in_map_iff in Hin as ([k v] & Hk & Hin).
  simpl in Hk. subst k.
  apply sweep_entries in Hin as [Hin Hp]. simpl in Hp.
  assert (Hv : JsMap.get t (adminTokens h) = Some v).
  { clear - Hd Hin. induction (adminTokens h) as [|[k0 v0] m IH];
      simpl in *; [contradiction|].
    inversion Hd; subst.
    destruct Hin as [[= -> ->]|Hin].
    - now rewrite String.eqb_refl.
    - destruct (String.eqb_spec t k0) as [->|_]; [|auto].
      exfalso. apply H1. apply in_map_iff. now exists (k0, v). }
  rewrite Hg in Hv. injection Hv as <-.
  apply Z.ltb_ge in Hp. lia.
Qed.

(** The token table along a run.  Only two things touch it: a sign-in
    sets the entry of the token it draws, the sweep deletes the entries
    that have expired. *)
Section TokenTable.
Variables (w : World) (o : Oracle) (t : string) (td : TokenData).
Hypothesis Hother : newToken o <> t.

Lemma TokenServer_step_token_kept (e : Event) :
  now o <= expires td ->
  Inv (fun h => JsMap.get t (adminTokens h) = Some td)
    (TokenServer.step w o e).
Proof.
  intros Hle.
  assert (Hmod : forall f : Hub -> Hub,
            (forall h, adminTokens (f h) = adminTokens h \/
                       adminTokens (f h)
                       = JsMap.sweep (fun _ value => expires value <? now o)
                           (adminTokens h) \/
                       exists v, adminTokens (f h)
                                 = JsMap.set (newToken o) v (adminTokens h)) ->
            Inv (fun h => JsMap.get t (adminTokens h) = Some td) (modify f)).
  { intros f Hf. apply Inv_modify. intros h Hh.
    destruct (Hf h) as [E|[E|(v & E)]]; rewrite E.
    - exact Hh.
    - apply sweep_get; [exact Hh|]. now apply Z.ltb_ge.
    - rewrite get_set_other by auto. exact Hh. }
  destruct e; simpl; try apply Inv_ret.
  - apply Inv_tryCatch.
    unfold TokenServer.handleWebSocketMessage, TokenServer.handleMarkNumber,
      TokenServer.handleCallNumber, TokenServer.handleAnnounceWin,
      TokenServer.handleAdminCommand, TokenServer.runCommand,
      TokenServer.broadcastGameState, TokenServer.broadcastMessage,
      TokenServer.handleUserJoin, TokenServer.handleAdminAuth.
    inv_auto; try talk; apply Hmod; intros h0; simpl; eauto.
  - unfold TokenServer.handleDisconnection. inv_auto; try talk.
    apply Hmod; intros h0; simpl; eauto.
  - apply Hmod; intros h0; simpl; eauto.
Qed.

Lemma TokenServer_step_token_fate (e : Event) :
  Inv (fun h => NoDup (JsMap.keys (adminTokens h)) /\
                (JsMap.get t (adminTokens h) = Some td \/
                 JsMap.get t (adminTokens h) = None))
    (TokenServer.step w o e).
Proof.
  assert (Hmod : forall f : Hub -> Hub,
            (forall h, adminTokens (f h) = adminTokens h \/
                       adminTokens (f h)
                       = JsMap.sweep (fun _ value => expires value <? now o)
                           (adminTokens h) \/
                       exists v, adminTokens (f h)
                                 = JsMap.set (newToken o) v (adminTokens h)) ->
            Inv (fun h => NoDup (JsMap.keys (adminTokens h)) /\
                          (JsMap.get t (adminTokens h) = Some td \/
                           JsMap.get t (adminTokens h) = None))
              (modify f)).
  { intros f Hf. apply Inv_modify. intros h [Hd Hh].
    destruct (Hf h) as [E|[E|(v & E)]]; rewrite E.
    - now split.
    - split; [now apply NoDup_keys_sweep|].
      destruct (JsMap.get t (JsMap.sweep _ (adminTokens h))) as [v|] eqn:Ev;
        [|now right].
      apply get_sweep_iff in Ev as [Ev _]; [|exact Hd].
      destruct Hh as [Hh|Hh]; rewrite Hh in Ev; [|discriminate].
      left. now rewrite Ev.
    - split; [now apply NoDup_keys_set|].
      rewrite get_set_other by auto. exact Hh. }
  destruct e; simpl; try apply Inv_ret.
  - apply Inv_tryCatch.
    unfold TokenServer.handleWebSocketMessage, TokenServer.handleMarkNumber,
      TokenServer.handleCallNumber, TokenServer.handleAnnounceWin,
      TokenServer.handleAdminCommand, TokenServer.runCommand,
      TokenServer.broadcastGameState, TokenServer.broadcastMessage,
      TokenServer.handleUserJoin, TokenServer.handleAdminAuth.
    inv_auto; try talk; apply Hmod; intros h0; simpl; eauto.
  - unfold TokenServer.handleDisconnection. inv_auto; try talk.
    apply Hmod; intros h0; simpl; eauto.
  - apply Hmod; intros h0; simpl; eauto.
Qed.

End TokenTable.

Lemma TokenServer_run_token_fate t td history h :
  notReissued t history ->
  NoDup (JsMap.keys (adminTokens h)) ->
  JsMap.get t (adminTokens h) = Some td \/ JsMap.get t (adminTokens h) = None ->
  JsMap.get t (adminTokens (TokenServer.run history h)) = Some td \/
  JsMap.get t (adminTokens (TokenServer.run history h)) = None.
Proof.
  intros Hn. revert h.
  induction Hn as [|[[w o] e] rest Hev Hn IH]; intros h Hd Hh; simpl;
    [exact Hh|].
  destruct (TokenServer_step_token_fate w o t td Hev e h (conj Hd Hh))
    as [Hd' Hh'].
  now apply IH.
Qed.

Lemma TokenServer_run_token_kept t td history h :
  notReissued t history ->
  noLaterThan (expires td) history ->
  JsMap.get t (adminTokens h) = Some td ->
  JsMap.get t (adminTokens (TokenServer.run history h)) = Some td.
Proof.
  intros Hn. revert h.
  induction Hn as [|[[w o] e] rest Hev Hn IH]; intros h Hl Hh; simpl;
    [exact Hh|].
  inversion Hl; subst. apply IH; [assumption|].
  now apply (TokenServer_step_token_kept w o t td Hev e).
Qed.

Lemma TokenServer_handleAdminAuth_tokens w o sock data :
  Inv (fun h => NoDup (JsMap.keys (adminTokens h)))
    (TokenServer.handleAdminAuth w o sock data).
Proof.
  unfold TokenServer.handleAdminAuth. inv_auto;
    apply Inv_modify; intros h0 Hd; simpl;
    first [exact Hd | now apply NoDup_keys_set].
Qed.

(** The verdict on a recorded token. *)
Lemma verdict_of_entry o cmd h t td :
  Data.token cmd = Some t ->
  JsMap.get t (adminTokens h) = Some td ->
  (expires td < now o ->
   tokenVerdict o cmd h = Some "Invalid or expired token") /\
  (now o <= expires td ->
   (adminRegistered (userId td) h = true -> tokenVerdict o cmd h = None) /\
   (adminRegistered (userId td) h = false ->
    tokenVerdict o cmd h = Some "Unauthorized")).
Proof.
  intros Ht Hg. unfold tokenVerdict, TokenServer.getToken, adminRegistered.
  rewrite Ht, Hg. split; intros Hle.
  - destruct (Z.ltb_spec (expires td) (now o)); [reflexivity|lia].
  - destruct (Z.ltb_spec (expires td) (now o)); [lia|].
    destruct (JsMap.get (userId td) (users h)) as [a|];
      [destruct (isAdmin a)|]; split; congruence.
Qed.

Lemma verdict_of_no_entry o cmd h t :
  Data.token cmd = Some t ->
  JsMap.get t (adminTokens h) = None ->
  tokenVerdict o cmd h = Some "Invalid or expired token".
Proof.
  intros Ht Hg. unfold tokenVerdict, TokenServer.getToken.
  now rewrite Ht, Hg.
Qed.

(** C4, as the code has it.  A sign-in records its token for the
    identity of the session it leaves on the socket, with an expiry 24
    hours later.  From then on, whatever the hub handles, as long as
    [generateToken] does not give the same token again: presented
    strictly after its expiry the token is refused as invalid or
    expired; presented at an instant up to its expiry, nothing having
    been handled at a later instant, it opens the admin commands exactly
    when the identity of its owner is at that moment registered as an
    admin session, and is refused as Unauthorized otherwise.  The owner is so registered right after the
    sign-in, also once the token sweep has run in between.  A second
    sign-in on the same socket records its token for the same owner and
    leaves the first token in place: both tokens are accepted, each up
    to its own expiry. *)
Theorem token_valid_until_expiry_not_superseded
    (w : World) (o1 o2 : Oracle) (sock : WebSocket) (data1 data2 : Data.t)
    (h : Hub)
    (Hpw1 : verifyAdminPassword (Data.password data1) = true)
    (Hpw2 : verifyAdminPassword (Data.password data2) = true)
    (Hok : usersOk (users h))
    (Htokens : NoDup (JsMap.keys (adminTokens h)))
    (Hfresh : newToken o2 <> newToken o1) :
  let h1 := exec (TokenServer.handleAdminAuth w o1 sock data1) h in
  let h2 := exec (TokenServer.handleAdminAuth w o2 sock data2) h1 in
  let t := newToken o1 in
  let deadline := now o1 + DAY_MS in
  (exists owner session,
     JsMap.get t (adminTokens h1)
       = Some {| userId := owner; expires := deadline |} /\
     JsMap.get owner (users h1) = Some session /\
     id session = owner /\ socket session = sock /\
     adminRegistered owner h1 = true /\
     forall (history : list (World * Oracle * Event)) (w' : World)
            (o : Oracle) (sender : WebSocket) (cmd : Data.t),
       notReissued t history ->
       Data.token cmd = Some t ->
       let h' := TokenServer.run history h1 in
       (deadline < now o ->
        rejects w' o sender cmd h' "Invalid or expired token") /\
       (now o <= deadline -> noLaterThan deadline history ->
        (adminRegistered owner h' = true -> executes w' o sender cmd h') /\
        (adminRegistered owner h' = false ->
         rejects w' o sender cmd h' "Unauthorized"))) /\
  validUntil w t deadline h1 /\
  (forall os, now os <= deadline ->
     validUntil w t deadline (exec (TokenServer.sweepTokens os) h1)) /\
  (exists owner,
     option_map userId (JsMap.get t (adminTokens h2)) = Some owner /\
     option_map userId (JsMap.get (newToken o2) (adminTokens h2)) = Some owner) /\
  validUntil w t deadline h2 /\
  validUntil w (newToken o2) (now o2 + DAY_MS) h2.
Proof.
  intros h1 h2 t deadline.
  destruct (TokenServer_issued w o1 sock data1 h Hpw1 Hok)
    as (a & Hg1 & Hu1 & Hf1 & Ha1 & _ & _).
  fold h1 in Hg1, Hu1, Hf1. fold t deadline in Hg1.
  assert (Hok1 : usersOk (users h1)).
  { now apply (TokenServer_handleAdminAuth_usersOk w o1 sock data1 h). }
  assert (Hd1 : NoDup (JsMap.keys (adminTokens h1))).
  { now apply (TokenServer_handleAdminAuth_tokens w o1 sock data1 h). }
  destruct (TokenServer_issued w o2 sock data2 h1 Hpw2 Hok1)
    as (b & Hg2 & Hu2 & Hf2 & Ha2 & Hkeep & Hsame).
  fold h2 in Hg2, Hu2, Hf2, Hkeep.
  assert (Eab : id b = id a) by now apply Hsame.
  assert (Hg12 : JsMap.get t (adminTokens h2)
                 = Some {| userId := id a; expires := deadline |}).
  { rewrite Hkeep by auto. exact Hg1. }
  split; [|split; [|split; [|split; [|split]]]].
  - exists (id a), a. split; [exact Hg1|]. split; [exact Hu1|].
    split; [reflexivity|]. split.
    { unfold JsMap.findValue in Hf1. apply find_some in Hf1 as [_ Hs].
      now apply Nat.eqb_eq. }
    split.
    { unfold adminRegistered. now rewrite Hu1. }
    intros history w' o sender cmd Hn Ht h'. split.
    + intros Hlate.
      destruct (TokenServer_run_token_fate t _ history h1 Hn Hd1
                  (or_introl Hg1)) as [Hg|Hg]; fold h' in Hg.
      * apply verdict_rejects.
        now apply (proj1 (verdict_of_entry o cmd h' t _ Ht Hg)).
      * apply verdict_rejects. now apply (verdict_of_no_entry o cmd h' t).
    + intros Hle Hl.
      pose proof (TokenServer_run_token_kept t
                    {| userId := id a; expires := deadline |} history h1
                    Hn Hl Hg1) as Hg.
      fold h' in Hg.
      destruct (proj2 (verdict_of_entry o cmd h' t _ Ht Hg) Hle)
        as [Hyes Hno].
      split; intros Hreg.
      * apply verdict_executes. now apply Hyes.
      * apply verdict_rejects. now apply Hno.
  - apply (validUntil_of_token w h1 _ _ a Hg1); auto.
  - intros os Hos.
    destruct (TokenServer_sweepTokens_keeps os h1 _ _ Hg1 Hos) as [Hg Hu].
    apply (validUntil_of_token w _ _ _ a Hg); auto.
  - exists (id a). rewrite Hg12, Hg2. simpl. now rewrite Eab.
  - apply (validUntil_of_token w h2 _ _ b Hg12); auto.
    simpl. rewrite <- Eab. exact Hu2.
  - apply (validUntil_of_token w h2 _ _ b Hg2); auto.
Qed.

(** C4 as stated fails in two places.  After two sign-ins of the same
    owner, the token of the first one is still accepted: alice holds t1
    and then t2; a [start_game] that presents t1 is acknowledged and the
    game starts.  And a token is not accepted at every instant up to its
    expiry: once alice's socket has closed, or once somebody else has
    joined as alice, the same command is refused as Unauthorized, a day
    before t1 expires. *)
Lemma second_token_does_not_supersede :
  let command sender :=
    TokenServer.handleAdminCommand calm (oracleAt 4000 "") sender
      (commandMsg (Some "t1") "start_game") in
  let cmd := command 1%nat in
  let closed :=
    TokenServer.run [(calm, oracleAt 3500 "", Closed 1%nat)]
      twiceAuthenticated in
  let overwritten :=
    TokenServer.run
      [(calm, oracleAt 3500 "", Inbound 2%nat (joinMsg "alice") "10.0.0.2")]
      twiceAuthenticated in
  option_map userId (JsMap.get "t1" (adminTokens twiceAuthenticated))
    = Some "alice" /\
  option_map userId (JsMap.get "t2" (adminTokens twiceAuthenticated))
    = Some "alice" /\
  active (gameState twiceAuthenticated) = false /\
  existsb (isCommandResponse true) (sentBy cmd twiceAuthenticated) = true /\
  active (gameState (exec cmd twiceAuthenticated)) = true /\
  option_map expires (JsMap.get "t1" (adminTokens closed))
    = Some (2000 + DAY_MS) /\
  sentBy (command 2%nat) closed
    = [(2%nat, CommandResponse false "Unauthorized")] /\
  active (gameState (exec (command 2%nat) closed)) = false /\
  option_map expires (JsMap.get "t1" (adminTokens overwritten))
    = Some (2000 + DAY_MS) /\
  sentBy (command 1%nat) overwritten
    = [(1%nat, CommandResponse false "Unauthorized")] /\
  active (gameState (exec (command 1%nat) overwritten)) = false.
Proof. repeat split. Qed.

Lemma token_valid_until_expiry_not_superseded_witness :
  validUntil calm "t1" (2000 + DAY_MS) twiceAuthenticated /\
  validUntil calm "t2" (3000 + DAY_MS) twiceAuthenticated.
Proof.
  pose proof
    (token_valid_until_expiry_not_superseded calm
       (oracleAt 2000 "t1") (oracleAt 3000 "t2") 1%nat
       (authMsg "we17me78") (authMsg "we17me78")
       (TokenServer.run
          [(calm, oracleAt 1000 "", Inbound 1%nat (joinMsg "alice") "10.0.0.1")]
          initialHub)
       eq_refl eq_refl (proj2 usersOk_reachable _) (NoDup_nil _)
       ltac:(discriminate))
    as (_ & _ & _ & _ & H1 & H2).
  split; [exact H1 | exact H2].
Defined.

(* ================================================================== *)
(** * Commands without authorization *)
(* ================================================================== *)

Lemma Server_handleAdminCommand_refused w o sock data h :
  (forall u, JsMap.findValue (onSocket sock) (users h) = Some u ->
             isAdmin u = false) ->
  Server.handleAdminCommand w o sock data h =
  send w sock (CommandResponse false "Unauthorized - Not an admin") h.
Proof.
  intros Hno. unfold Server.handleAdminCommand. rewrite run_bind. unfold gets.
  destruct (JsMap.findValue (onSocket sock) (users h)) as [u|]; [|reflexivity].
  now rewrite (Hno u eq_refl).
Qed.

(** C5, as the code has it.  In the token-checking variant
    (utilshelpers.ts) a command, [start_game] or any other, whose token
    is missing, unknown, expired, or not owned by a registered admin
    session is answered to the sender with a [command_response] whose
    [success] is false, and nothing else happens: the game, the registry
    and the tokens are unchanged, so a game that is not active stays so.
    In [server.ts] the same holds for a sender whose socket is not
    registered as an admin session; the token is not looked at. *)
Theorem unauthorized_command_rejected
    (w : World) (o : Oracle) (sock : WebSocket) (data : Data.t) (h : Hub) :
  (Unauthorized o data h ->
   let cmd := TokenServer.handleAdminCommand w o sock data in
   (exists why, sentBy cmd h = [(sock, CommandResponse false why)]) /\
   gameState (exec cmd h) = gameState h /\
   users (exec cmd h) = users h /\
   adminTokens (exec cmd h) = adminTokens h)
  /\
  ((forall u, JsMap.findValue (onSocket sock) (users h) = Some u ->
              isAdmin u = false) ->
   let cmd := Server.handleAdminCommand w o sock data in
   sentBy cmd h = [(sock, CommandResponse false "Unauthorized - Not an admin")] /\
   gameState (exec cmd h) = gameState h /\
   users (exec cmd h) = users h /\
   adminTokens (exec cmd h) = adminTokens h).
Proof.
  split.
  - intros Hun. apply unauthorized_iff_verdict in Hun as [why Hv].
    cbv zeta. unfold exec.
    split.
    + exists why. apply sentBy_app. unfold exec.
      now rewrite TokenServer_handleAdminCommand_run, Hv, run_send.
    + rewrite TokenServer_handleAdminCommand_run, Hv, run_send.
      repeat split.
  - intros Hno. cbv zeta. unfold exec.
    split.
    + apply sentBy_app. unfold exec.
      now rewrite Server_handleAdminCommand_refused, run_send.
    + rewrite Server_handleAdminCommand_refused, run_send by exact Hno.
      repeat split.
Qed.

(** C5 as stated fails on [server.ts]: the admin session on socket 1
    starts the game with no token at all, and again more than a day
    after the sign-in, with the token that has expired and has been
    swept. *)
Lemma command_without_valid_token_accepted :
  let noToken := Server.handleAdminCommand calm (oracleAt 3000 "") 1%nat
                   (commandMsg None "start_game") in
  let expired := Server.handleAdminCommand calm (oracleAt 90000001 "") 1%nat
                   (commandMsg (Some "t1") "start_game") in
  active (gameState aliceAdmin) = false /\
  existsb (isCommandResponse true) (sentBy noToken aliceAdmin) = true /\
  active (gameState (exec noToken aliceAdmin)) = true /\
  option_map expires (JsMap.get "t1" (adminTokens aliceAdmin))
    = Some 86402000 /\
  JsMap.get "t1" (adminTokens aliceAdminNextDay) = None /\
  active (gameState aliceAdminNextDay) = false /\
  existsb (isCommandResponse true) (sentBy expired aliceAdminNextDay) = true /\
  active (gameState (exec expired aliceAdminNextDay)) = true.
Proof. repeat split. Qed.

Lemma unauthorized_command_rejected_witness :
  gameState
    (exec (TokenServer.handleAdminCommand calm (oracleAt 3000 "") 1%nat
             (commandMsg None "start_game")) twiceAuthenticated)
  = gameState twiceAuthenticated /\
  gameState
    (exec (Server.handleAdminCommand calm (oracleAt 3000 "") 1%nat
             (commandMsg None "start_game")) aliceJoined)
  = gameState aliceJoined.
Proof.
  destruct
    (unauthorized_command_rejected calm (oracleAt 3000 "") 1%nat
       (commandMsg None "start_game") twiceAuthenticated) as [HT _].
  destruct
    (unauthorized_command_rejected calm (oracleAt 3000 "") 1%nat
       (commandMsg None "start_game") aliceJoined) as [_ HS].
  split.
  - apply HT. apply TokenMissing. reflexivity.
  - apply HS. intros u [= <-]. reflexivity.
Defined.

(* ================================================================== *)
(** * The admin controller *)
(* ================================================================== *)

(** C10. [AdminController.verifyToken] returns true for every string,
    in every state of the controller: no token is ever refused, whether
    [authenticate] handed it out or not. *)
Theorem verifyToken_accepts_everything
    (self : Admin.AdminController) (t : string) :
  Admin.verifyToken self t = true.
Proof. reflexivity. Qed.

(** A token that no sign-in returned, and a failed sign-in, change
    nothing to that. *)
Lemma verifyToken_after_failed_authenticate self uuid password t :
  Admin.success (Admin.authenticate self uuid password) = false ->
  Admin.token (Admin.authenticate self uuid password) = None /\
  Admin.verifyToken self t = true.
Proof.
  unfold Admin.authenticate.
  destruct (String.eqb password "we17me78"); simpl; [discriminate|auto].
Qed.

(* ================================================================== *)
(** * Instances *)
(* ================================================================== *)

Lemma broadcastToAll_isolates_failure_witness :
  delivered faulty2
    (sentBy (Server.broadcastToAll faulty2 (ErrorMsg "ping")) threeJoined)
  = [(1%nat, ErrorMsg "ping"); (3%nat, ErrorMsg "ping")] /\
  outcome (TokenServer.broadcastToAll faulty2 (ErrorMsg "ping")) threeJoined
  = Threw /\
  delivered faulty2
    (sentBy (TokenServer.broadcastToAll faulty2 (ErrorMsg "ping")) threeJoined)
  = [(1%nat, ErrorMsg "ping")].
Proof.
  pose proof
    (broadcastToAll_isolates_failure faulty2 (ErrorMsg "ping") threeJoined
       [("alice", guest "alice" 1%nat "10.0.0.1" 1000)]
       [("carol", guest "carol" 3%nat "10.0.0.3" 1002)]
       "bob" (guest "bob" 2%nat "10.0.0.2" 1001)
       eq_refl (or_intror eq_refl)
       ltac:(repeat constructor))
    as (_ & Hserver & _ & _ & _ & _ & _ & Hopen).
  destruct (Hopen eq_refl) as (Hthrew & _ & Hserved).
  split; [exact Hserver|]. split; [exact Hthrew | exact Hserved].
Defined.

(** The same registry with socket 2 closed instead. *)
Example broadcastToAll_skips_closed :
  sentBy (Server.broadcastToAll closed2 (ErrorMsg "ping")) threeJoined
  = [(1%nat, ErrorMsg "ping"); (3%nat, ErrorMsg "ping")].
Proof. reflexivity. Qed.

(** The broadcast of the token-checking variant, which has no [try]
    around [send]: a closed socket is skipped as well, but a [send] that
    raises ends the loop and carol, behind bob, is not served. *)
Example TokenServer_broadcastToAll_closed_and_failing :
  sentBy (TokenServer.broadcastToAll closed2 (ErrorMsg "ping")) threeJoinedT
  = [(1%nat, ErrorMsg "ping"); (3%nat, ErrorMsg "ping")] /\
  sentBy (TokenServer.broadcastToAll faulty2 (ErrorMsg "ping")) threeJoinedT
  = [(1%nat, ErrorMsg "ping"); (2%nat, ErrorMsg "ping")] /\
  outcome (TokenServer.broadcastToAll faulty2 (ErrorMsg "ping")) threeJoinedT
  = Threw.
Proof. repeat split. Qed.


Example gameStarted_calls_seven :
  calledNumbers
    (gameState
       (Server.run
          [(calm, oracleAt 4000 "", Inbound 1%nat (callMsg (Num.ofInt 7)) "10.0.0.1");
           (calm, oracleAt 4001 "", Inbound 1%nat (callMsg (Num.ofInt 7)) "10.0.0.1");
           (calm, oracleAt 4002 "", Inbound 1%nat (callMsg (Num.ofInt 91)) "10.0.0.1")]
          gameStarted))
  = [Num.ofInt 7].
Proof. reflexivity. Qed.

Lemma callValue_guarded_and_idempotent_witness :
  count_occ Z.eq_dec
    (calledNumbers
       (gameState
          (exec (Server.handleCallNumber calm 1%nat (callMsg (Num.ofInt 7)))
             (exec (Server.handleCallNumber calm 1%nat (callMsg (Num.ofInt 7)))
                gameStarted))))
    (Num.ofInt 7) = 1%nat.
Proof.
  refine (proj1 (proj2 (proj2
    (callValue_guarded_and_idempotent calm 1%nat (callMsg (Num.ofInt 7))
       gameStarted
       (Num.ofInt 7) _ _))) _ _).
  - reflexivity.
  - constructor.
  - reflexivity.
  - unfold Num.ofInt, Num.one. lia.
Defined.

Lemma rtc_relay_or_silent_drop_witness :
  sentBy (Server.handleRTCMessage calm 3%nat (offerMsg "bob")) threeJoined
  = [(2%nat, RtcForward (offerMsg "bob") (Some "carol"))] /\
  sentBy (Server.handleRTCMessage calm 3%nat (offerMsg "nonexistent"))
    threeJoined = [] /\
  sentBy (Server.handleRTCMessage closed2 3%nat (offerMsg "bob")) threeJoined
  = [] /\
  (exists u, JsMap.get "carol" (users threeJoined) = Some u /\
             id u = "carol" /\ socket u = 3%nat).
Proof.
  split; [|split; [|split]].
  - apply (proj1 (rtc_relay_or_silent_drop calm 3%nat (offerMsg "bob")
                    threeJoined) (guest "bob" 2%nat "10.0.0.2" 1001));
      reflexivity.
  - apply (proj1 (proj2 (rtc_relay_or_silent_drop calm 3%nat
                           (offerMsg "nonexistent") threeJoined))).
    left. reflexivity.
  - apply (proj1 (proj2 (rtc_relay_or_silent_drop closed2 3%nat
                           (offerMsg "bob") threeJoined))).
    right. exists (guest "bob" 2%nat "10.0.0.2" 1001). split; reflexivity.
  - apply (proj1 (proj2 (proj2 (proj2 (proj2
             (rtc_relay_or_silent_drop calm 3%nat (offerMsg "bob")
                threeJoined)))))).
    + exact (proj1 usersOk_reachable _).
    + reflexivity.
Defined.

(* ================================================================== *)
(** * The token-checking variant behaves alike *)
(* ================================================================== *)

(** The token sweep is the same function in both variants. *)
Remark sweepTokens_same o : TokenServer.sweepTokens o = Server.sweepTokens o.
Proof. reflexivity. Qed.

(** Its [handleCallNumber] leaves the same game behind, also when its
    broadcast raises. *)
Lemma TokenServer_handleCallNumber_game w sock data h n :
  Data.number data = Some n ->
  gameState (exec (TokenServer.handleCallNumber w sock data) h)
  = calledAfter n (gameState h).
Proof.
  intros Hn. unfold TokenServer.handleCallNumber, calledAfter.
  rewrite exec_gets_bind, Hn.
  destruct (active (gameState h)); simpl; [|reflexivity].
  destruct ((Num.ofInt 1 <=? n) && (n <=? Num.ofInt 90)
            && negb (includes (calledNumbers (gameState h)) n)); [|reflexivity].
  rewrite exec_modify_bind.
  etransitivity; [apply frame; intros x; inv_auto; talk | reflexivity].
Qed.

Lemma calledAfter_gameInv n g : gameInv g -> gameInv (calledAfter n g).
Proof.
  intros Hg.
  destruct (calledAfter_cases n g) as [(_ & Hr & Hn & ->) | (_ & ->)]; auto.
  now apply gameInv_callNumber.
Qed.

Lemma TokenServer_step_gameInv w o e : Inv gameOk (TokenServer.step w o e).
Proof.
  destruct e; simpl; try apply Inv_ret.
  - apply Inv_tryCatch.
    unfold TokenServer.handleWebSocketMessage, TokenServer.handleMarkNumber,
      TokenServer.handleAnnounceWin, TokenServer.handleAdminCommand,
      TokenServer.runCommand, TokenServer.broadcastGameState,
      TokenServer.broadcastMessage, TokenServer.handleUserJoin,
      TokenServer.handleAdminAuth.
    inv_auto; try talk;
      try (apply Inv_modify; intros h Hh; unfold gameOk in *; simpl; auto;
           first [ apply gameInv_startGame | apply gameInv_resetGame ]).
    intros h Hh. unfold gameOk in *.
    destruct (Data.number data) as [n|] eqn:Hn.
    + rewrite (TokenServer_handleCallNumber_game w sock data h n Hn).
      now apply calledAfter_gameInv.
    + unfold TokenServer.handleCallNumber. rewrite exec_gets_bind, Hn.
      now destruct (active (gameState h)).
  - unfold TokenServer.handleDisconnection. inv_auto; try talk.
    apply Inv_modify. auto.
  - apply Inv_modify. auto.
Qed.

(** Its [handleUserJoin] overwrites the entry of the identity in the
    same way. *)
Lemma TokenServer_handleUserJoin_users w o sock data ip_ h k :
  Data.userId data = Some k -> k <> "" ->
  exists u,
    users (exec (TokenServer.handleUserJoin w o sock data ip_) h)
      = JsMap.set k u (users h) /\
    id u = k /\ socket u = sock /\ isAdmin u = false.
Proof.
  intros Hid Hk. unfold TokenServer.handleUserJoin. cbv zeta.
  rewrite exec_modify_bind.
  assert (E : orElse (Data.userId data)
                ("user_" ++ show (now o) ++ "_" ++ substring 2 9 (random1 o))
              = k).
  { rewrite Hid. simpl. destruct (String.eqb_spec k ""); congruence. }
  rewrite E. eexists. split.
  - etransitivity; [apply frame; intros x; inv_auto; talk | reflexivity].
  - repeat split.
Qed.

(** Its [handleAnnounceWin] has the same guard. *)
Lemma TokenServer_announceWin_needs_pattern w sock data h :
  truthy (Data.pattern data) = false ->
  TokenServer.handleAnnounceWin w sock data h = (Returned tt, h).
Proof.
  intros Hp. unfold TokenServer.handleAnnounceWin.
  rewrite run_bind. unfold gets.
  destruct (JsMap.findValue (onSocket sock) (users h)); [|reflexivity].
  destruct (Data.pattern data) as [pat|]; [|reflexivity].
  now rewrite Hp.
Qed.

(* ================================================================== *)
(** * Regular expressions: the matcher decides the language *)
(* ================================================================== *)

Lemma Lang_nil_app r1 r2 :
  Regex.Lang (Regex.Seq r1 r2) [] -> Regex.Lang r1 [] /\ Regex.Lang r2 [].
Proof.
  intros H. inversion H; subst.
  match goal with
  | E : (_ ++ _)%list = [] |- _ => apply app_eq_nil in E as [-> ->]
  end.
  auto.
Qed.

Lemma nullable_Lang r : Regex.nullable r = true <-> Regex.Lang r [].
Proof.
  induction r as [| |p|r1 IH1 r2 IH2|r1 IH1 r2 IH2|r IH]; simpl.
  - split; [discriminate | intros H; inversion H].
  - split; [constructor | reflexivity].
  - split; [discriminate | intros H; inversion H].
  - rewrite andb_true_iff, IH1, IH2. split.
    + intros [H1 H2]. apply (Regex.LSeq _ _ [] []); assumption.
    + apply Lang_nil_app.
  - rewrite orb_true_iff, IH1, IH2. split.
    + intros [H|H]; [now apply Regex.LAltL | now apply Regex.LAltR].
    + intros H. inversion H; subst; auto.
  - split; [constructor | reflexivity].
Qed.

Lemma Lang_star_cons r c s :
  Regex.Lang (Regex.Star r) (c :: s) ->
  exists s1 s2,
    s = (s1 ++ s2)%list /\ Regex.Lang r (c :: s1) /\
    Regex.Lang (Regex.Star r) s2.
Proof.
  intros H. remember (Regex.Star r) as r' eqn:Er.
  remember (c :: s) as cs eqn:Ecs. revert c s Ecs.
  induction H as [| | | | | |r0 s1 s2 H1 _ H2 IH2]; try discriminate.
  injection Er as ->. intros c s Ecs.
  destruct s1 as [|c1 s1]; simpl in Ecs.
  - apply IH2; auto.
  - injection Ecs as -> <-. exists s1, s2. auto.
Qed.

Lemma deriv_Lang c r : forall s,
  Regex.Lang (Regex.deriv c r) s <-> Regex.Lang r (c :: s).
Proof.
  induction r as [| |p|r1 IH1 r2 IH2|r1 IH1 r2 IH2|r IH]; intros s; simpl.
  - split; intros H; inversion H.
  - split; intros H; inversion H.
  - destruct (p c) eqn:E; split; intros H; inversion H; subst.
    + now constructor.
    + constructor.
    + congruence.
  - assert (Hleft : Regex.Lang (Regex.Seq (Regex.deriv c r1) r2) s ->
                    Regex.Lang (Regex.Seq r1 r2) (c :: s)).
    { intros H. inversion H; subst.
      apply (Regex.LSeq r1 r2 (c :: s1) s2); [now apply IH1 | assumption]. }
    assert (Hback : Regex.Lang (Regex.Seq r1 r2) (c :: s) ->
                    Regex.Lang (Regex.Seq (Regex.deriv c r1) r2) s \/
                    (Regex.Lang r1 [] /\ Regex.Lang (Regex.deriv c r2) s)).
    { intros H. inversion H; subst.
      match goal with
      | E : (?a ++ _)%list = c :: s |- _ =>
          destruct a as [|c1 a1]; simpl in E
      end.
      - right. subst. split; [assumption | now apply IH2].
      - match goal with
        | E : _ :: _ = c :: s |- _ => injection E as -> <-
        end.
        left. apply Regex.LSeq; [now apply IH1 | assumption]. }
    destruct (Regex.nullable r1) eqn:En.
    + split.
      * intros H. inversion H; subst; [now apply Hleft|].
        apply (Regex.LSeq r1 r2 [] (c :: s));
          [now apply nullable_Lang | now apply IH2].
      * intros H. destruct (Hback H) as [H1 | [_ H2]];
          [now apply Regex.LAltL | now apply Regex.LAltR].
    + split; [exact Hleft|].
      intros H. destruct (Hback H) as [H1 | [H1 _]]; [exact H1|].
      apply nullable_Lang in H1. congruence.
  - split.
    + intros H. inversion H; subst;
        [apply Regex.LAltL | apply Regex.LAltR]; firstorder.
    + intros H. inversion H; subst;
        [apply Regex.LAltL | apply Regex.LAltR]; firstorder.
  - split.
    + intros H. inversion H; subst.
      apply (Regex.LStarCons r (c :: s1) s2); [now apply IH | assumption].
    + intros H. apply Lang_star_cons in H as (s1 & s2 & -> & H1 & H2).
      apply Regex.LSeq; [now apply IH | assumption].
Qed.

(** The matcher accepts exactly the strings of the language. *)
Lemma matches_Lang s : forall r,
  Regex.matches r s = true <-> Regex.Lang r s.
Proof.
  induction s as [|c s IH]; intros r; simpl.
  - apply nullable_Lang.
  - rewrite IH. apply deriv_Lang.
Qed.

Lemma Lang_star_class p s :
  Regex.Lang (Regex.Star (Regex.Class p)) s <-> Forall (fun c => p c = true) s.
Proof.
  split.
  - intros H. remember (Regex.Star (Regex.Class p)) as r eqn:Er.
    induction H as [| | | | | |r0 s1 s2 H1 _ H2 IH2]; try discriminate.
    + constructor.
    + injection Er as ->. inversion H1; subst. simpl.
      constructor; auto.
  - induction 1 as [|c s Hc _ IH]; [constructor|].
    apply (Regex.LStarCons _ [c] s); [now constructor | assumption].
Qed.

Lemma Lang_plus_class p s :
  Regex.Lang (Regex.Plus (Regex.Class p)) s <->
  s <> [] /\ Forall (fun c => p c = true) s.
Proof.
  unfold Regex.Plus. split.
  - intros H. inversion H; subst.
    match goal with
    | H1 : Regex.Lang (Regex.Class p) _ |- _ => inversion H1; subst
    end.
    simpl. split; [discriminate|].
    constructor; [assumption | now apply Lang_star_class].
  - intros [Hne Hall]. destruct s as [|c s]; [congruence|].
    inversion Hall; subst.
    apply (Regex.LSeq _ _ [c] s); [now constructor | now apply Lang_star_class].
Qed.

Lemma Lang_chr ch s : Regex.Lang (Regex.Chr ch) s <-> s = [ch].
Proof.
  unfold Regex.Chr. split.
  - intros H. inversion H; subst. f_equal. symmetry. now apply Ascii.eqb_eq.
  - intros ->. constructor. apply Ascii.eqb_refl.
Qed.

Lemma Lang_seq r1 r2 s :
  Regex.Lang (Regex.Seq r1 r2) s <->
  exists s1 s2, s = (s1 ++ s2)%list /\ Regex.Lang r1 s1 /\ Regex.Lang r2 s2.
Proof.
  split.
  - intros H. inversion H; subst. eauto.
  - intros (s1 & s2 & -> & H1 & H2). now constructor.
Qed.

(** [/r/.test(s)] for a single class: some character is in the class. *)
Lemma test_class p s :
  Regex.test (Regex.Class p) s = existsb p (list_ascii_of_string s).
Proof.
  unfold Regex.test.
  apply eq_true_iff_eq. rewrite matches_Lang, existsb_exists.
  rewrite Lang_seq. split.
  - intros (s1 & s23 & E & _ & H23).
    apply Lang_seq in H23 as (s2 & s3 & -> & H2 & _).
    inversion H2; subst. exists c. split; [|assumption].
    rewrite E. apply in_or_app. right. now left.
  - intros (c & Hin & Hc). apply in_split in Hin as (s1 & s3 & E).
    exists s1, (c :: s3). split; [exact E|]. split.
    + apply Lang_star_class. apply Forall_forall. reflexivity.
    + apply (Regex.LSeq _ _ [c] s3); [now constructor|].
      apply Lang_star_class. apply Forall_forall. reflexivity.
Qed.

Lemma list_ascii_app s1 s2 :
  list_ascii_of_string (s1 ++ s2)
  = (list_ascii_of_string s1 ++ list_ascii_of_string s2)%list.
Proof. induction s1 as [|c s1 IH]; simpl; congruence. Qed.

Lemma string_of_list_app l1 l2 :
  string_of_list_ascii (l1 ++ l2)
  = string_of_list_ascii l1 ++ string_of_list_ascii l2.
Proof. induction l1 as [|c l1 IH]; simpl; congruence. Qed.

Lemma list_ascii_nonempty s : s <> "" <-> list_ascii_of_string s <> [].
Proof. destruct s; simpl; split; congruence. Qed.

(* ================================================================== *)
(** * [Helpers.validateEmail] *)
(* ================================================================== *)

Lemma emailRegex_Lang l :
  Regex.Lang Helpers.emailRegex l <->
  exists a b c,
    l = (a ++ "@"%char :: b ++ "."%char :: c)%list /\
    a <> [] /\ b <> [] /\ c <> [] /\
    Forall (fun x => Helpers.plain x = true) a /\
    Forall (fun x => Helpers.plain x = true) b /\
    Forall (fun x => Helpers.plain x = true) c.
Proof.
  unfold Helpers.emailRegex. split.
  - intros H.
    apply Lang_seq in H as (a & r1 & -> & Ha & H).
    apply Lang_seq in H as (at_ & r2 & -> & Hat & H).
    apply Lang_seq in H as (b & r3 & -> & Hb & H).
    apply Lang_seq in H as (dot & c & -> & Hdot & Hc).
    apply Lang_chr in Hat, Hdot. subst.
    apply Lang_plus_class in Ha as [Ha1 Ha2], Hb as [Hb1 Hb2], Hc as [Hc1 Hc2].
    exists a, b, c. simpl. auto 10.
  - intros (a & b & c & -> & Ha & Hb & Hc & Pa & Pb & Pc).
    apply Regex.LSeq; [now apply Lang_plus_class|].
    apply (Regex.LSeq _ _ ["@"%char]); [now apply Lang_chr|].
    apply Regex.LSeq; [now apply Lang_plus_class|].
    apply (Regex.LSeq _ _ ["."%char]); [now apply Lang_chr|].
    now apply Lang_plus_class.
Qed.

Lemma length_list_ascii s :
  List.length (list_ascii_of_string s) = String.length s.
Proof. induction s as [|c s IH]; simpl; congruence. Qed.

Lemma plain_not_at_not_space x :
  Helpers.plain x = true -> x <> "@"%char /\ isSpace x = false.
Proof.
  unfold Helpers.plain. rewrite negb_true_iff, orb_false_iff.
  intros [Hs Ha]. split; [|exact Hs].
  intros ->. discriminate.
Qed.

Lemma count_at_plain l :
  Forall (fun x => Helpers.plain x = true) l ->
  count_occ ascii_dec l "@"%char = 0%nat.
Proof.
  intros H. apply count_occ_not_In. intros Hin.
  rewrite Forall_forall in H. apply H in Hin.
  now apply plain_not_at_not_space in Hin as [Hne _].
Qed.

(** X1. [validateEmail] accepts exactly the strings of the shape
    local@domain.tld in which the three parts are not empty and contain
    neither white space nor [@] (the domain and the tld may contain
    further dots). *)
Theorem validateEmail_shape (email : string) :
  Helpers.validateEmail email = true <->
  exists local domain tld,
    email = local ++ "@" ++ domain ++ "." ++ tld /\
    local <> "" /\ domain <> "" /\ tld <> "" /\
    allPlain local /\ allPlain domain /\ allPlain tld.
Proof.
  unfold Helpers.validateEmail, Regex.testAnchored, allPlain.
  rewrite matches_Lang, emailRegex_Lang. split.
  - intros (a & b & c & E & Ha & Hb & Hc & Pa & Pb & Pc).
    exists (string_of_list_ascii a), (string_of_list_ascii b),
      (string_of_list_ascii c).
    rewrite !list_ascii_of_string_of_list_ascii.
    repeat split; auto.
    + rewrite <- (string_of_list_ascii_of_string email), E.
      rewrite string_of_list_app. simpl. f_equal. f_equal.
      rewrite string_of_list_app. reflexivity.
    + apply list_ascii_nonempty.
      now rewrite list_ascii_of_string_of_list_ascii.
    + apply list_ascii_nonempty.
      now rewrite list_ascii_of_string_of_list_ascii.
    + apply list_ascii_nonempty.
      now rewrite list_ascii_of_string_of_list_ascii.
  - intros (a & b & c & -> & Ha & Hb & Hc & Pa & Pb & Pc).
    exists (list_ascii_of_string a), (list_ascii_of_string b),
      (list_ascii_of_string c).
    repeat split; auto; try (now apply list_ascii_nonempty).
    rewrite list_ascii_app. simpl. f_equal. f_equal.
    rewrite list_ascii_app. reflexivity.
Qed.

(** X2. An address [validateEmail] accepts contains exactly one [@], no
    white space, and at least five characters. *)
Theorem validateEmail_accepted_properties (email : string)
    (Hvalid : Helpers.validateEmail email = true) :
  countChar "@" email = 1%nat /\
  (forall c, In c (list_ascii_of_string email) -> isSpace c = false) /\
  (5 <= String.length email)%nat.
Proof.
  unfold Helpers.validateEmail, Regex.testAnchored in Hvalid.
  apply matches_Lang, emailRegex_Lang in Hvalid
    as (a & b & c & E & Ha & Hb & Hc & Pa & Pb & Pc).
  unfold countChar. rewrite <- length_list_ascii, E.
  split; [|split].
  - rewrite count_occ_app. simpl.
    destruct (ascii_dec "@" "@") as [_|Hne]; [|congruence].
    rewrite count_occ_app. simpl.
    destruct (ascii_dec "." "@") as [Hd|_]; [discriminate|].
    rewrite !count_at_plain by assumption. reflexivity.
  - intros x Hin.
    apply in_app_or in Hin as [Hin|[<-|Hin]]; [| reflexivity |].
    + rewrite Forall_forall in Pa. now apply plain_not_at_not_space, Pa.
    + apply in_app_or in Hin as [Hin|[<-|Hin]]; [| reflexivity |].
      * rewrite Forall_forall in Pb. now apply plain_not_at_not_space, Pb.
      * rewrite Forall_forall in Pc. now apply plain_not_at_not_space, Pc.
  - rewrite length_app. simpl. rewrite length_app. simpl.
    destruct a; [congruence|]. destruct b; [congruence|].
    destruct c; [congruence|]. simpl. lia.
Qed.

Lemma validateEmail_accepted_properties_witness :
  countChar "@" "alice@example.com" = 1%nat.
Proof.
  exact (proj1 (validateEmail_accepted_properties "alice@example.com" eq_refl)).
Defined.

(* ================================================================== *)
(** * [AuthUtils.validatePassword] *)
(* ================================================================== *)

Lemma validatePassword_unfold password :
  AuthUtils.validatePassword password
  = (8 <=? String.length password)%nat
    && existsb isUpper (list_ascii_of_string password)
    && existsb isLower (list_ascii_of_string password)
    && existsb isDigit (list_ascii_of_string password).
Proof. unfold AuthUtils.validatePassword. now rewrite !test_class. Qed.

(** X3. [validatePassword] accepts exactly the passwords of at least
    eight characters that contain an upper-case letter, a lower-case
    letter and a digit. *)
Theorem validatePassword_requirements (password : string) :
  AuthUtils.validatePassword password = true <->
  (8 <= String.length password)%nat /\
  (exists c, In c (list_ascii_of_string password) /\ isUpper c = true) /\
  (exists c, In c (list_ascii_of_string password) /\ isLower c = true) /\
  (exists c, In c (list_ascii_of_string password) /\ isDigit c = true).
Proof.
  rewrite validatePassword_unfold, !andb_true_iff, !existsb_exists.
  rewrite Nat.leb_le. tauto.
Qed.

(** X4. Characters added in front of or behind an accepted password
    never make it unacceptable. *)
Theorem validatePassword_extension (before password after : string)
    (Hvalid : AuthUtils.validatePassword password = true) :
  AuthUtils.validatePassword (before ++ password ++ after) = true.
Proof.
  apply validatePassword_requirements in Hvalid
    as (Hlen & (u & Hu & Pu) & (l & Hl & Pl) & (d & Hd & Pd)).
  apply validatePassword_requirements.
  assert (Hin : forall c, In c (list_ascii_of_string password) ->
                In c (list_ascii_of_string (before ++ password ++ after))).
  { intros c Hc. rewrite !list_ascii_app.
    apply in_or_app. right. apply in_or_app. now left. }
  split; [|repeat split; [exists u | exists l | exists d]; auto].
  rewrite <- length_list_ascii, !list_ascii_app, !length_app.
  rewrite !length_list_ascii. lia.
Qed.

Lemma validatePassword_extension_witness :
  AuthUtils.validatePassword ("my " ++ "Passw0rd" ++ "!") = true.
Proof.
  exact (validatePassword_extension "my " "Passw0rd" "!" eq_refl).
Defined.

(* ================================================================== *)
(** * Tokens: hexadecimal bytes and the base-36 instant *)
(* ================================================================== *)

Lemma below_256 (P : N -> bool) :
  forallb P (map N.of_nat (seq 0 256)) = true ->
  forall b, (b < 256)%N -> P b = true.
Proof.
  intros Hall b Hb. rewrite forallb_forall in Hall. apply Hall.
  apply in_map_iff. exists (N.to_nat b). split; [apply N2Nat.id|].
  apply in_seq. lia.
Qed.

(** A byte is written as exactly two digits, which read back as the
    byte. *)
Lemma byteHex_shape b :
  (b < 256)%N ->
  exists c1 c2,
    byteHex b = String c1 (String c2 "") /\
    (digitVal c1 * 16 + digitVal c2)%N = b.
Proof.
  intros Hb.
  pose proof
    (below_256
       (fun b =>
          match byteHex b with
          | String c1 (String c2 EmptyString) =>
              N.eqb (digitVal c1 * 16 + digitVal c2) b
          | _ => false
          end)) as Hcheck.
  specialize (Hcheck ltac:(vm_compute; reflexivity) b Hb).
  cbv beta in Hcheck.
  destruct (byteHex b) as [|c1 [|c2 [|]]]; try discriminate.
  exists c1, c2. split; [reflexivity|]. now apply N.eqb_eq.
Qed.

Lemma concat_empty_separator x xs :
  String.concat "" (x :: xs) = x ++ String.concat "" xs.
Proof.
  destruct xs as [|y ys]; simpl; [|reflexivity].
  induction x as [|c x IH]; simpl; congruence.
Qed.

Lemma hexOfBytes_cons b bs : hexOfBytes (b :: bs) = byteHex b ++ hexOfBytes bs.
Proof. unfold hexOfBytes. simpl map. apply concat_empty_separator. Qed.

Lemma append_empty_r s : s ++ "" = s.
Proof. induction s as [|c s IH]; simpl; congruence. Qed.

Lemma string_length_app s1 s2 :
  String.length (s1 ++ s2) = (String.length s1 + String.length s2)%nat.
Proof. induction s1 as [|c s1 IH]; simpl; congruence. Qed.

Lemma hexOfBytes_length array :
  allBytes array -> String.length (hexOfBytes array) = (2 * List.length array)%nat.
Proof.
  induction 1 as [|b bs Hb _ IH]; [reflexivity|].
  rewrite hexOfBytes_cons, string_length_app, IH.
  destruct (byteHex_shape b Hb) as (c1 & c2 & -> & _). simpl. lia.
Qed.

(** Reading the digits back gives the bytes, whatever follows them. *)
Lemma bytesOfHex_hexOfBytes array rest :
  allBytes array ->
  bytesOfHex (List.length array) (hexOfBytes array ++ rest) = array.
Proof.
  induction 1 as [|b bs Hb _ IH]; [reflexivity|].
  rewrite hexOfBytes_cons.
  destruct (byteHex_shape b Hb) as (c1 & c2 & -> & Hv). simpl.
  now rewrite Hv, IH.
Qed.

Lemma hex_prefix_cancel a1 : forall a2 r1 r2,
  allBytes a1 -> allBytes a2 -> List.length a1 = List.length a2 ->
  hexOfBytes a1 ++ r1 = hexOfBytes a2 ++ r2 ->
  a1 = a2 /\ r1 = r2.
Proof.
  induction a1 as [|b1 a1 IH]; intros [|b2 a2] r1 r2 H1 H2 Hlen E;
    try discriminate.
  - auto.
  - inversion H1; subst. inversion H2; subst.
    rewrite !hexOfBytes_cons in E.
    destruct (byteHex_shape b1) as (c1 & c2 & E1 & V1); [assumption|].
    destruct (byteHex_shape b2) as (d1 & d2 & E2 & V2); [assumption|].
    rewrite E1, E2 in E. simpl in E. injection E as -> -> E.
    destruct (IH a2 r1 r2) as [-> ->]; auto.
    split; [|reflexivity]. congruence.
Qed.

(** X5. [generateSessionToken] writes each byte as two characters, so
    32 bytes give 64 characters, and the bytes can be read back from the
    token: it loses nothing of the randomness it is given. *)
Theorem generateSessionToken_roundtrip (array : list N)
    (Hbytes : allBytes array) :
  String.length (AuthUtils.generateSessionToken array)
    = (2 * List.length array)%nat /\
  bytesOfHex (List.length array) (AuthUtils.generateSessionToken array)
    = array.
Proof.
  unfold AuthUtils.generateSessionToken. split.
  - now apply hexOfBytes_length.
  - pose proof (bytesOfHex_hexOfBytes array "" Hbytes) as H.
    now rewrite append_empty_r in H.
Qed.

Lemma generateSessionToken_roundtrip_witness :
  bytesOfHex 4 (AuthUtils.generateSessionToken [0; 9; 171; 255]%N)
  = [0; 9; 171; 255]%N.
Proof.
  refine (proj2 (generateSessionToken_roundtrip [0; 9; 171; 255]%N _)).
  repeat constructor.
Defined.

(** The digits of [toString] read back as the number. *)
Lemma digitVal_digitChar d : (d < 36)%N -> digitVal (digitChar d) = d.
Proof.
  intros Hd. unfold digitVal, digitChar.
  destruct (N.ltb_spec d 10).
  - rewrite N_ascii_embedding by lia.
    destruct (N.ltb_spec (48 + d) 58); lia.
  - rewrite N_ascii_embedding by lia.
    destruct (N.ltb_spec (87 + d) 58); lia.
Qed.

Lemma valueOf_snoc radix digits c :
  valueOf radix (digits ++ String c "")
  = (valueOf radix digits * radix + digitVal c)%N.
Proof.
  unfold valueOf. rewrite list_ascii_app, fold_left_app. reflexivity.
Qed.

Lemma append_assoc_snoc s c acc : (s ++ String c "") ++ acc = s ++ String c acc.
Proof. induction s as [|x s IH]; simpl; congruence. Qed.

Lemma toStringFuel_value radix :
  (2 <= radix <= 36)%N ->
  forall fuel n acc,
    (n < 2 ^ N.of_nat fuel)%N ->
    exists digits,
      toStringFuel fuel radix n acc = digits ++ acc /\
      valueOf radix digits = n.
Proof.
  intros Hr. induction fuel as [|fuel IH]; intros n acc Hn.
  - exists "". simpl in *. split; [reflexivity|]. unfold valueOf. simpl. lia.
  - simpl toStringFuel.
    assert (Hmod : (n mod radix < 36)%N).
    { pose proof (N.mod_upper_bound n radix). lia. }
    destruct (N.ltb_spec n radix) as [Hlt|Hge].
    + exists (String (digitChar (n mod radix)) ""). split; [reflexivity|].
      unfold valueOf. simpl. rewrite digitVal_digitChar by exact Hmod.
      rewrite N.mod_small by exact Hlt. lia.
    + destruct (IH (n / radix)%N (String (digitChar (n mod radix)) acc))
        as (digits & E & V).
      { rewrite Nnat.Nat2N.inj_succ, N.pow_succ_r' in Hn.
        apply N.Div0.div_lt_upper_bound.
        apply N.lt_le_trans with (1 := Hn).
        apply N.mul_le_mono_r. lia. }
      exists (digits ++ String (digitChar (n mod radix)) ""). split.
      * rewrite E. symmetry. apply append_assoc_snoc.
      * rewrite valueOf_snoc, V, digitVal_digitChar by exact Hmod.
        rewrite N.mul_comm. symmetry. apply N.Div0.div_mod.
Qed.

Lemma valueOf_toString radix n :
  (2 <= radix <= 36)%N -> valueOf radix (toString radix n) = n.
Proof.
  intros Hr. unfold toString.
  destruct (toStringFuel_value radix Hr (S (N.to_nat (N.log2 n))) n "")
    as (digits & E & V).
  - rewrite Nnat.Nat2N.inj_succ, N2Nat.id.
    destruct (N.eq_dec n 0) as [->|Hn]; [reflexivity|].
    apply N.log2_spec. lia.
  - rewrite E. now rewrite append_empty_r.
Qed.

(** X6. [generateToken] of [server.ts] never gives the same token for
    two different contents of its 32 random bytes, nor for two different
    instants: from the token, the bytes and the instant are determined. *)
Theorem generateToken_injective (o1 o2 : Oracle) (a1 a2 : list N)
    (Hb1 : allBytes a1) (Hb2 : allBytes a2)
    (Hl1 : List.length a1 = 32%nat) (Hl2 : List.length a2 = 32%nat)
    (Ht1 : 0 <= now o1) (Ht2 : 0 <= now o2)
    (Hsame : Server.generateToken o1 a1 = Server.generateToken o2 a2) :
  a1 = a2 /\ now o1 = now o2.
Proof.
  unfold Server.generateToken in Hsame.
  apply hex_prefix_cancel in Hsame as [Ha Hrest]; auto; [|congruence].
  split; [exact Ha|].
  simpl in Hrest. injection Hrest as Hrest.
  apply (f_equal (valueOf 36)) in Hrest.
  rewrite !valueOf_toString in Hrest by lia. lia.
Qed.

Lemma generateToken_injective_witness :
  repeat 7%N 32 = repeat 7%N 32 /\ 1700000000000 = 1700000000000.
Proof.
  refine (generateToken_injective (oracleAt 1700000000000 "")
            (oracleAt 1700000000000 "") (repeat 7%N 32) (repeat 7%N 32)
            _ _ _ _ _ _ _).
  - apply Forall_forall. intros b Hb. apply repeat_spec in Hb. subst.
    reflexivity.
  - apply Forall_forall. intros b Hb. apply repeat_spec in Hb. subst.
    reflexivity.
  - reflexivity.
  - reflexivity.
  - simpl. lia.
  - simpl. lia.
  - reflexivity.
Defined.

(* ================================================================== *)
(** * [AdminController]: the set of admins *)
(* ================================================================== *)

Lemma has_filter u v l :
  existsb (String.eqb v) (filter (fun x => negb (String.eqb u x)) l)
  = negb (String.eqb u v) && existsb (String.eqb v) l.
Proof.
  induction l as [|x l IH]; simpl; [now rewrite andb_false_r|].
  destruct (String.eqb_spec u x) as [->|Hux]; simpl.
  - rewrite IH. destruct (String.eqb_spec v x) as [->|Hvx]; simpl; auto.
    now rewrite String.eqb_refl.
  - rewrite IH. destruct (String.eqb_spec v x) as [->|Hvx]; simpl; auto.
    destruct (String.eqb_spec u x); [contradiction|reflexivity].
Qed.

(** X7. The admin set behaves as a set: after [grantAdmin(u)] the
    admins are [u] and those before, after [revokeAdmin(u)] they are
    those before except [u]; granting twice is granting once, and
    revoking what was just granted to a non-admin restores the set. *)
Theorem adminSet_laws (self : Admin.AdminController) (u v : string) :
  Admin.isAdmin (Admin.grantAdmin self u) v
    = String.eqb u v || Admin.isAdmin self v /\
  Admin.isAdmin (Admin.revokeAdmin self u) v
    = negb (String.eqb u v) && Admin.isAdmin self v /\
  Admin.grantAdmin (Admin.grantAdmin self u) u = Admin.grantAdmin self u /\
  (Admin.isAdmin self u = false ->
   Admin.revokeAdmin (Admin.grantAdmin self u) u = self).
Proof.
  destruct self as [l].
  assert (Hgrant : Admin.adminUsers (Admin.grantAdmin {| Admin.adminUsers := l |} u)
                   = if existsb (String.eqb u) l then l else (l ++ [u])%list).
  { unfold Admin.grantAdmin, Admin.has. simpl.
    now destruct (existsb (String.eqb u) l). }
  unfold Admin.isAdmin, Admin.has. repeat split.
  - rewrite Hgrant. simpl.
    destruct (existsb (String.eqb u) l) eqn:E.
    + destruct (String.eqb_spec u v) as [<-|Huv]; simpl; auto.
    + rewrite existsb_app. simpl. rewrite orb_false_r.
      rewrite (String.eqb_sym v u). apply orb_comm.
  - apply has_filter.
  - unfold Admin.grantAdmin at 1. unfold Admin.has. rewrite Hgrant.
    destruct (existsb (String.eqb u) l) eqn:E.
    + unfold Admin.grantAdmin, Admin.has. simpl. now rewrite E.
    + rewrite existsb_app. simpl. rewrite String.eqb_refl.
      rewrite orb_true_r. unfold Admin.grantAdmin, Admin.has. simpl.
      now rewrite E.
  - simpl. intros E. unfold Admin.revokeAdmin. rewrite Hgrant, E.
    f_equal. rewrite filter_app. simpl. rewrite String.eqb_refl. simpl.
    rewrite app_nil_r.
    clear - E. induction l as [|x l IH]; simpl in *; [reflexivity|].
    apply orb_false_iff in E as [Ex El].
    rewrite Ex. simpl. now rewrite IH.
Qed.

Lemma adminUsers_NoDup_grant self u :
  NoDup (Admin.adminUsers self) ->
  NoDup (Admin.adminUsers (Admin.grantAdmin self u)).
Proof.
  intros Hd. unfold Admin.grantAdmin, Admin.has.
  destruct (existsb (String.eqb u) (Admin.adminUsers self)) eqn:E;
    [exact Hd|].
  simpl. apply NoDup_app; [exact Hd | repeat constructor; simpl; tauto|].
  intros x Hx [->|[]].
  assert (Ht : existsb (String.eqb x) (Admin.adminUsers self) = true).
  { apply existsb_exists. exists x. split; [exact Hx|apply String.eqb_refl]. }
  congruence.
Qed.

(** X8. [getAdminStats] counts every admin once: from a set without
    duplicates, [grantAdmin] adds one to [totalAdmins] for a new admin
    and nothing for an old one, [revokeAdmin] takes one off for an admin
    and nothing off otherwise, and the set stays without duplicates. *)
Theorem adminStats_counts (self : Admin.AdminController) (u : string)
    (Hset : NoDup (Admin.adminUsers self)) :
  let total s := Admin.totalAdmins (Admin.getAdminStats s) in
  total (Admin.grantAdmin self u)
    = (total self + if Admin.isAdmin self u then 0 else 1)%nat /\
  (total (Admin.revokeAdmin self u)
     + if Admin.isAdmin self u then 1 else 0)%nat = total self /\
  NoDup (Admin.adminUsers (Admin.grantAdmin self u)) /\
  NoDup (Admin.adminUsers (Admin.revokeAdmin self u)).
Proof.
  cbv zeta. split; [|split; [|split]].
  - unfold Admin.grantAdmin, Admin.isAdmin, Admin.getAdminStats. simpl.
    destruct (Admin.has self u); simpl; [lia|].
    rewrite length_app. simpl. lia.
  - unfold Admin.revokeAdmin, Admin.isAdmin, Admin.has, Admin.getAdminStats.
    simpl. destruct self as [l]. simpl in *.
    induction Hset as [|x l Hx Hl IH]; simpl; [reflexivity|].
    rewrite (String.eqb_sym u x).
    destruct (String.eqb_spec x u) as [->|Hxu]; simpl.
    + assert (E : existsb (String.eqb u) l = false).
      { apply not_true_is_false. intros Ht.
        apply existsb_exists in Ht as (y & Hy & Ey).
        apply String.eqb_eq in Ey. now subst. }
      rewrite E in IH. lia.
    + destruct (existsb (String.eqb u) l); lia.
  - now apply adminUsers_NoDup_grant.
  - unfold Admin.revokeAdmin. simpl. now apply NoDup_filter.
Qed.

Lemma adminStats_counts_witness :
  Admin.totalAdmins
    (Admin.getAdminStats
       (Admin.grantAdmin (Admin.grantAdmin Admin.create "alice") "alice"))
  = 1%nat.
Proof.
  refine (proj1 (adminStats_counts (Admin.grantAdmin Admin.create "alice")
                   "alice" _)).
  repeat constructor. simpl. tauto.
Defined.

(* ================================================================== *)
(** * [SignalingController]: connections *)
(* ================================================================== *)

Lemma keys_set_In {V : Type} k (v : V) (m : JsMap.t V) :
  In k (JsMap.keys (JsMap.set k v m)).
Proof.
  induction m as [|[k0 v0] m IH]; simpl; [now left|].
  destruct (String.eqb_spec k k0) as [->|Hk]; simpl; auto.
Qed.

(** X9. After [registerConnection(u, ws)] a signal for [u] goes to [ws]
    and nowhere else when [ws] is open, and is dropped when it is not;
    after [unregisterConnection(u)] a signal for [u] is dropped; signals
    for other users are handled as before in both cases. *)
Theorem signaling_register_unregister
    (w : World) (self : Signaling.SignalingController) (u : string)
    (ws sender : WebSocket) (signal : RTCSignal)
    (Hkeys : NoDup (JsMap.keys (Signaling.connections self))) :
  (target signal = u ->
   Signaling.handleSignal w (Signaling.registerConnection self u ws) sender
     signal
   = if socketOpen w ws then [(ws, RtcSignalMsg signal)] else []) /\
  (target signal = u ->
   Signaling.handleSignal w (Signaling.unregisterConnection self u) sender
     signal = []) /\
  (target signal <> u ->
   Signaling.handleSignal w (Signaling.registerConnection self u ws) sender
     signal
   = Signaling.handleSignal w self sender signal /\
   Signaling.handleSignal w (Signaling.unregisterConnection self u) sender
     signal
   = Signaling.handleSignal w self sender signal) /\
  In u (Signaling.getConnectedUsers (Signaling.registerConnection self u ws)) /\
  ~ In u (Signaling.getConnectedUsers (Signaling.unregisterConnection self u)).
Proof.
  unfold Signaling.handleSignal, Signaling.registerConnection,
    Signaling.unregisterConnection, Signaling.getConnectedUsers. simpl.
  split; [|split; [|split; [|split]]].
  - intros ->. now rewrite get_set_same.
  - intros ->. now rewrite get_delete_same.
  - intros Hne. now rewrite get_set_other, get_delete_other.
  - apply keys_set_In.
  - apply get_None_keys. now apply get_delete_same.
Qed.

Lemma signaling_register_unregister_witness :
  Signaling.handleSignal calm
    (Signaling.registerConnection
       {| Signaling.connections := JsMap.empty |} "bob" 2%nat)
    1%nat
    {| signalType := offer; sdp := Some "v=0"; iceCandidate := None;
       target := "bob"; source := "alice" |}
  = [(2%nat,
      RtcSignalMsg
        {| signalType := offer; sdp := Some "v=0"; iceCandidate := None;
           target := "bob"; source := "alice" |})].
Proof.
  refine (proj1 (signaling_register_unregister calm
                   {| Signaling.connections := JsMap.empty |} "bob" 2%nat
                   1%nat _ _) _).
  - constructor.
  - reflexivity.
Defined.

(* ================================================================== *)
(** * Messages the hub refuses *)
(* ================================================================== *)

Lemma switch_default {A : Type} x (cases : list (string * A)) (default : A) :
  Forall (fun c => isCase x (fst c) = false) cases ->
  switch x cases default = default.
Proof.
  induction 1 as [|[k body] rest Hk _ IH]; simpl; auto.
  simpl in Hk. now rewrite Hk.
Qed.

Lemma isCase_false x k : x <> Some k -> isCase x k = false.
Proof.
  destruct x as [s|]; simpl; [|reflexivity].
  intros Hne. destruct (String.eqb_spec s k); congruence.
Qed.

(** X10. An envelope whose type is none of the known ones, or that has
    no type, changes nothing: [server.ts] answers the sender with the
    error message and nothing else, the token-checking variant ignores
    it without any answer. *)
Theorem unknown_message_type
    (w : World) (o : Oracle) (sock : WebSocket) (data : Data.t)
    (ip_ : string) (h : Hub)
    (Hunknown : forall k, In k knownTypes -> Data.type data <> Some k) :
  let handle := Server.handleWebSocketMessage w o sock data ip_ in
  sentBy handle h = [(sock, ErrorMsg "Unknown message type")] /\
  users (exec handle h) = users h /\
  adminTokens (exec handle h) = adminTokens h /\
  gameState (exec handle h) = gameState h /\
  TokenServer.handleWebSocketMessage w o sock data ip_ h = (Returned tt, h).
Proof.
  assert (Hcase : forall k, In k knownTypes ->
                            isCase (Data.type data) k = false).
  { intros k Hk. apply isCase_false. now apply Hunknown. }
  assert (ES : Server.handleWebSocketMessage w o sock data ip_
               = send w sock (ErrorMsg "Unknown message type")).
  { unfold Server.handleWebSocketMessage. apply switch_default.
    repeat (apply Forall_cons; [apply Hcase; simpl; tauto|]).
    apply Forall_nil. }
  assert (ET : TokenServer.handleWebSocketMessage w o sock data ip_ = ret tt).
  { unfold TokenServer.handleWebSocketMessage. apply switch_default.
    repeat (apply Forall_cons; [apply Hcase; simpl; tauto|]).
    apply Forall_nil. }
  cbv zeta. rewrite ES, ET. unfold exec. rewrite run_send. simpl.
  repeat split. apply sentBy_app. unfold exec. now rewrite run_send.
Qed.

Lemma unknown_message_type_witness :
  sentBy (Server.handleWebSocketMessage calm (oracleAt 5000 "") 1%nat
            pingMsg "10.0.0.1") aliceJoined
  = [(1%nat, ErrorMsg "Unknown message type")].
Proof.
  refine (proj1 (unknown_message_type calm (oracleAt 5000 "") 1%nat pingMsg
                   "10.0.0.1" aliceJoined _)).
  intros k Hk. simpl in Hk.
  repeat (destruct Hk as [<-|Hk]; [discriminate|]). contradiction.
Defined.

Lemma verifyAdminPassword_false password :
  password <> Some ADMIN_PASSWORD -> verifyAdminPassword password = false.
Proof.
  destruct password as [p|]; simpl; [|reflexivity].
  intros Hne. destruct (String.eqb_spec p ADMIN_PASSWORD); congruence.
Qed.

(** X11. A sign-in with a wrong or missing password is answered with an
    [auth_response] whose [success] is false and no token, and leaves the
    registry, the tokens and the game as they are, in both variants: no
    session is created and none is upgraded. *)
Theorem wrong_password_rejected
    (w : World) (o : Oracle) (sock : WebSocket) (data : Data.t) (h : Hub)
    (Hwrong : Data.password data <> Some ADMIN_PASSWORD) :
  (let auth := Server.handleAdminAuth w o sock data in
   sentBy auth h = [(sock, AuthResponse false None "Invalid password")] /\
   users (exec auth h) = users h /\
   adminTokens (exec auth h) = adminTokens h /\
   gameState (exec auth h) = gameState h) /\
  (let auth := TokenServer.handleAdminAuth w o sock data in
   sentBy auth h = [(sock, AuthResponse false None "Invalid password")] /\
   users (exec auth h) = users h /\
   adminTokens (exec auth h) = adminTokens h /\
   gameState (exec auth h) = gameState h).
Proof.
  apply verifyAdminPassword_false in Hwrong.
  unfold Server.handleAdminAuth, TokenServer.handleAdminAuth.
  rewrite Hwrong. cbv zeta. unfold exec. rewrite run_send. simpl.
  repeat split; apply sentBy_app; unfold exec; now rewrite run_send.
Qed.

Lemma wrong_password_rejected_witness :
  users (exec (Server.handleAdminAuth calm (oracleAt 5000 "t9") 1%nat
                 (authMsg "we17me79")) aliceJoined)
  = users aliceJoined.
Proof.
  refine (proj1 (proj2 (proj1
    (wrong_password_rejected calm (oracleAt 5000 "t9") 1%nat
       (authMsg "we17me79") aliceJoined _)))).
  discriminate.
Defined.

(* ================================================================== *)
(** * Closing a socket *)
(* ================================================================== *)

Lemma size_delete {V : Type} k (m : JsMap.t V) v :
  JsMap.get k m = Some v ->
  (JsMap.size (JsMap.delete k m) + 1 = JsMap.size m)%nat.
Proof.
  unfold JsMap.size.
  induction m as [|[k0 v0] m IH]; simpl; [discriminate|].
  destruct (String.eqb_spec k k0) as [->|Hk]; simpl; [lia|].
  intros H. specialize (IH H). lia.
Qed.

Lemma Server_handleDisconnection_run sock h :
  Server.handleDisconnection sock h =
  (Returned tt,
   match JsMap.findKey (onSocket sock) (users h) with
   | Some k => if truthy (Some k) then withUsers (JsMap.delete k) h else h
   | None => h
   end).
Proof.
  unfold Server.handleDisconnection. rewrite run_bind. unfold gets.
  destruct (JsMap.findKey (onSocket sock) (users h)) as [k|]; [|reflexivity].
  now destruct (truthy (Some k)).
Qed.

Lemma truthy_nonempty k : k <> "" -> truthy (Some k) = true.
Proof.
  intros Hk. simpl. destruct (String.eqb_spec k ""); [congruence | reflexivity].
Qed.

(** X12. [handleDisconnection] of [server.ts]: when the closed socket
    has no session, nothing changes at all; when it has one, the session
    [find] picks for the socket is removed and only that one -- its
    identity is free again, the registry is one session shorter, the
    sessions of all other identities are as before.  The tokens, the
    game and the wire are untouched: no token is removed with its owner
    and nothing is sent from the handler itself. *)
Theorem disconnection_removes_one_session
    (sock : WebSocket) (h : Hub)
    (Hok : usersOk (users h)) :
  let h' := exec (Server.handleDisconnection sock) h in
  (JsMap.findValue (onSocket sock) (users h) = None -> h' = h) /\
  (forall u,
      JsMap.findValue (onSocket sock) (users h) = Some u -> id u <> "" ->
      JsMap.get (id u) (users h') = None /\
      (forall k, k <> id u -> JsMap.get k (users h') = JsMap.get k (users h)) /\
      (JsMap.size (users h') + 1 = JsMap.size (users h))%nat) /\
  adminTokens h' = adminTokens h /\
  gameState h' = gameState h /\
  wire h' = wire h.
Proof.
  cbv zeta. unfold exec. rewrite Server_handleDisconnection_run. cbn [snd].
  split; [|split].
  - intros Hnone. apply findValue_findKey_None in Hnone. now rewrite Hnone.
  - intros u Hu Hid.
    rewrite (usersOk_findKey _ _ _ Hok Hu), (truthy_nonempty _ Hid). simpl.
    split; [apply get_delete_same, Hok|].
    split; [intros k Hk; now apply get_delete_other|].
    apply (size_delete _ _ u). now apply (usersOk_find_get (onSocket sock)).
  - destruct (JsMap.findKey (onSocket sock) (users h)) as [k|]; [|auto].
    destruct (truthy (Some k)); auto.
Qed.

Lemma disconnection_removes_one_session_witness :
  JsMap.get "bob" (users (exec (Server.handleDisconnection 2%nat) threeJoined))
  = None.
Proof.
  refine (proj1 (proj1 (proj2
    (disconnection_removes_one_session 2%nat threeJoined
       (proj1 usersOk_reachable _)))
    (guest "bob" 2%nat "10.0.0.2" 1001) _ _)).
  - reflexivity.
  - discriminate.
Defined.



(* ================================================================== *)
(** * The periodic sweeps *)
(* ================================================================== *)

(** X14. The token sweep removes exactly the tokens whose expiry lies
    strictly before the instant of the sweep: a token is there afterwards
    if and only if it was there before and has not expired; a token at
    its very instant of expiry is kept, as [handleAdminCommand] still
    accepts it.  Nothing else changes. *)
Theorem token_sweep_exact (o : Oracle) (h : Hub)
    (Hkeys : NoDup (JsMap.keys (adminTokens h))) :
  let h' := exec (Server.sweepTokens o) h in
  (forall t td,
      JsMap.get t (adminTokens h') = Some td <->
      JsMap.get t (adminTokens h) = Some td /\ now o <= expires td) /\
  NoDup (JsMap.keys (adminTokens h')) /\
  users h' = users h /\
  gameState h' = gameState h /\
  wire h' = wire h.
Proof.
  cbv zeta. simpl. split; [|split; [now apply NoDup_keys_sweep | auto]].
  intros t td. rewrite get_sweep_iff by exact Hkeys.
  now rewrite Z.ltb_ge.
Qed.

Lemma token_sweep_exact_witness :
  JsMap.get "t1"
    (adminTokens (exec (Server.sweepTokens (oracleAt 86402000 "")) aliceAdmin))
  = Some {| userId := "admin_2000"; expires := 86402000 |}.
Proof.
  refine (proj2 (proj1 (token_sweep_exact (oracleAt 86402000 "") aliceAdmin _)
                   "t1" {| userId := "admin_2000"; expires := 86402000 |}) _).
  - repeat constructor. simpl. tauto.
  - split; [reflexivity | simpl; lia].
Defined.



(* ================================================================== *)
(** * Presence: who is listed *)
(* ================================================================== *)

Lemma usersOk_get_id m k u :
  usersOk m -> JsMap.get k m = Some u -> id u = k.
Proof.
  intros [_ Hk] Hg. apply get_In in Hg.
  rewrite Forall_forall in Hk. symmetry. exact (Hk _ Hg).
Qed.

Lemma usersOk_ids_keys m : usersOk m -> map id (JsMap.values m) = JsMap.keys m.
Proof.
  intros [_ Hk]. unfold JsMap.values, JsMap.keys.
  induction Hk as [|[k u] m Hu _ IH]; simpl; [reflexivity|].
  simpl in Hu. now rewrite IH, Hu.
Qed.

Lemma NoDup_map_filter {A B : Type} (f : A -> B) (q : A -> bool) l :
  NoDup (map f l) -> NoDup (map f (filter q l)).
Proof.
  induction l as [|x l IH]; simpl; intros Hd; [constructor|].
  inversion Hd; subst.
  destruct (q x); simpl; auto.
  constructor; auto.
  intros Hin. apply in_map_iff in Hin as (y & Ey & Hy).
  apply filter_In in Hy as [Hy _].
  match goal with Hn : ~ In _ _ |- _ => apply Hn end.
  apply in_map_iff. now exists y.
Qed.

Lemma filter_values_set (q : User -> bool) k v (m : JsMap.t User) :
  q v = false ->
  (forall v', JsMap.get k m = Some v' -> q v' = false) ->
  filter q (JsMap.values (JsMap.set k v m)) = filter q (JsMap.values m).
Proof.
  unfold JsMap.values. intros Hv Hold.
  induction m as [|[k0 v0] m IH]; simpl in *.
  - now rewrite Hv.
  - destruct (String.eqb_spec k k0) as [->|Hk]; simpl.
    + rewrite Hv, (Hold v0 eq_refl). reflexivity.
    + rewrite IH by exact Hold. reflexivity.
Qed.

(** X16. The user list of [server.ts] ([broadcastUserList],
    [sendUserList]) names every session whose identity does not start
    with [temp_], once, and no session whose identity does, whether it
    is a guest or joined under such an identity; and [calculateRevenue]
    is 25 for each listed session. *)
Theorem presence_list_properties (h : Hub)
    (Hok : usersOk (users h)) :
  NoDup (map info_id (Server.userList h)) /\
  (forall i, In i (Server.userList h) ->
     Server.isTemp (info_id i) = false /\
     exists u, JsMap.get (info_id i) (users h) = Some u /\
               i = Server.toInfo u) /\
  (forall k u, JsMap.get k (users h) = Some u -> Server.isTemp k = false ->
     In (Server.toInfo u) (Server.userList h)) /\
  Server.calculateRevenue h = 25 * Z.of_nat (List.length (Server.userList h)).
Proof.
  unfold Server.userList, Server.calculateRevenue.
  split; [|split; [|split]].
  - rewrite map_map. simpl.
    apply (NoDup_map_filter id). rewrite usersOk_ids_keys by exact Hok.
    apply Hok.
  - intros i Hi. apply in_map_iff in Hi as (u & <- & Hu).
    apply filter_In in Hu as [Hu Hq]. simpl.
    split; [now apply negb_true_iff|].
    exists u. split; [|reflexivity].
    unfold JsMap.values in Hu. apply in_map_iff in Hu as ([k u'] & E & Hin).
    simpl in E. subst u'.
    assert (Ek : k = id u).
    { destruct Hok as [_ Hk]. rewrite Forall_forall in Hk. exact (Hk _ Hin). }
    subst k. apply In_get; [apply Hok | exact Hin].
  - intros k u Hg Ht. apply in_map. apply filter_In. split.
    + unfold JsMap.values. apply in_map_iff. exists (k, u).
      split; [reflexivity | now apply get_In].
    + rewrite (usersOk_get_id _ _ _ Hok Hg), Ht. reflexivity.
  - rewrite length_map. lia.
Qed.

Lemma presence_list_properties_witness :
  map info_id (Server.userList threeJoined) = ["alice"; "bob"; "carol"] /\
  Server.calculateRevenue threeJoined = 75.
Proof.
  destruct (presence_list_properties threeJoined (proj1 usersOk_reachable _))
    as (_ & _ & _ & Hrev).
  split; [reflexivity | exact Hrev].
Defined.

Lemma isTemp_temp rest : Server.isTemp ("temp_" ++ rest) = true.
Proof.
  unfold Server.isTemp. simpl.
  repeat match goal with
         | |- context [ascii_dec ?a ?b] =>
             destruct (ascii_dec a b); [|congruence]
         end.
  now destruct rest.
Qed.

(** X17. A [client_connected] envelope registers a temporary guest
    session on the socket and answers nothing; the temporary session
    does not show in the user list and does not count in the revenue,
    which are as before. *)
Theorem client_connected_is_invisible
    (w : World) (o : Oracle) (sock : WebSocket) (data : Data.t)
    (ip_ : string) (h : Hub)
    (Htype : Data.type data = Some "client_connected")
    (Hok : usersOk (users h)) :
  let handle := Server.handleWebSocketMessage w o sock data ip_ in
  let tempId := "temp_" ++ show (now o) ++ "_" ++ substring 2 7 (random1 o) in
  JsMap.get tempId (users (exec handle h))
    = Some {| id := tempId; username := "Guest"; socket := sock; ip := ip_;
              status := online; isAdmin := false; token := None;
              lastSeen := now o |} /\
  Server.userList (exec handle h) = Server.userList h /\
  Server.calculateRevenue (exec handle h) = Server.calculateRevenue h /\
  sentBy handle h = [] /\
  adminTokens (exec handle h) = adminTokens h /\
  gameState (exec handle h) = gameState h.
Proof.
  cbv zeta.
  set (tempId := "temp_" ++ show (now o) ++ "_" ++ substring 2 7 (random1 o)).
  set (tempUser := {| id := tempId; username := "Guest"; socket := sock;
                      ip := ip_; status := online; isAdmin := false;
                      token := None; lastSeen := now o |}).
  assert (E : Server.handleWebSocketMessage w o sock data ip_
              = modify (withUsers (JsMap.set tempId tempUser))).
  { unfold Server.handleWebSocketMessage. rewrite Htype. reflexivity. }
  rewrite E.
  assert (Hfilter :
    filter (fun user => negb (Server.isTemp (id user)))
      (JsMap.values (JsMap.set tempId tempUser (users h)))
    = filter (fun user => negb (Server.isTemp (id user)))
        (JsMap.values (users h))).
  { apply filter_values_set.
    - simpl. unfold tempId. now rewrite isTemp_temp.
    - intros v' Hv'. rewrite (usersOk_get_id _ _ _ Hok Hv').
      unfold tempId. now rewrite isTemp_temp. }
  unfold Server.userList, Server.calculateRevenue. simpl.
  rewrite Hfilter.
  repeat split.
  - apply get_set_same.
  - apply sentBy_nothing. reflexivity.
Qed.

Lemma client_connected_is_invisible_witness :
  Server.userList
    (exec (Server.handleWebSocketMessage calm (oracleAt 5000 "") 4%nat
             connectedMsg "10.0.0.4") threeJoined)
  = Server.userList threeJoined.
Proof.
  refine (proj1 (proj2
    (client_connected_is_invisible calm (oracleAt 5000 "") 4%nat connectedMsg
       "10.0.0.4" threeJoined _ _))).
  - reflexivity.
  - exact (proj1 usersOk_reachable _).
Defined.

(* ================================================================== *)
(** * Admin commands and the game *)
(* ================================================================== *)

(** What follows a computation does not matter for a component it
    leaves alone. *)
Lemma exec_bind_frame {A B C : Type} (F : Hub -> C) (m : M A) (k : A -> M B) h :
  (forall a h1, F (exec (k a) h1) = F h1) ->
  F (exec (bind m k) h) = F (exec m h).
Proof.
  intros Hk. unfold exec, bind in *.
  destruct (m h) as [[a|] h1]; simpl; auto.
Qed.

Lemma Server_runCommand_effect w o sock data h :
  gameState (exec (Server.runCommand w o sock data) h)
    = commandEffect (Data.command data) (gameState h) /\
  users (exec (Server.runCommand w o sock data) h) = users h /\
  adminTokens (exec (Server.runCommand w o sock data) h) = adminTokens h.
Proof.
  unfold Server.runCommand, commandEffect, Server.broadcastGameState,
    Server.broadcastMessage. simpl.
  repeat match goal with
         | |- context [if isCase ?x ?k then _ else _] =>
             destruct (isCase x k)
         end;
    rewrite ?exec_modify_bind;
    repeat split;
    (etransitivity; [apply frame; intros x; inv_auto; talk | reflexivity]).
Qed.

Lemma Server_handleAdminCommand_admin w o sock data h u :
  JsMap.findValue (onSocket sock) (users h) = Some u -> isAdmin u = true ->
  Server.handleAdminCommand w o sock data h =
  (Server.runCommand w o sock data ;;
   send w sock
     (CommandResponse true
        ("Command " ++ dquote ++ commandName data ++ dquote
           ++ " executed successfully"))) h.
Proof.
  intros Hu Ha. unfold Server.handleAdminCommand.
  rewrite run_bind. unfold gets. now rewrite Hu, Ha.
Qed.

Lemma Server_handleAdminCommand_effect w o sock data h u :
  JsMap.findValue (onSocket sock) (users h) = Some u -> isAdmin u = true ->
  gameState (exec (Server.handleAdminCommand w o sock data) h)
    = commandEffect (Data.command data) (gameState h) /\
  users (exec (Server.handleAdminCommand w o sock data) h) = users h /\
  adminTokens (exec (Server.handleAdminCommand w o sock data) h)
    = adminTokens h.
Proof.
  intros Hu Ha.
  destruct (Server_runCommand_effect w o sock data h) as (Eg & Eu & Et).
  assert (E : exec (Server.handleAdminCommand w o sock data) h
              = exec (Server.runCommand w o sock data ;;
                      send w sock
                        (CommandResponse true
                           ("Command " ++ dquote ++ commandName data ++ dquote
                              ++ " executed successfully"))) h).
  { unfold exec.
    now rewrite (Server_handleAdminCommand_admin w o sock data h u Hu Ha). }
  rewrite E, <- Eg, <- Eu, <- Et.
  repeat split; apply exec_bind_frame; intros a h1;
    unfold exec; now rewrite run_send.
Qed.

(** X18. The admin commands of [server.ts] on the game, for a sender
    whose socket is an admin session: [start_game] gives a fresh active
    game, [reset_game] a fresh inactive one, [pause_game] only clears
    the active flag, every other command leaves the game as it is; the
    registry and the tokens are never touched.  Hence [reset_game] is
    [start_game] followed by [pause_game], and starting or pausing twice
    is starting or pausing once. *)
Theorem admin_commands_on_game
    (w : World) (o : Oracle) (sock : WebSocket) (h : Hub) (u : User)
    (Hsender : JsMap.findValue (onSocket sock) (users h) = Some u)
    (Hadmin : isAdmin u = true) :
  let run c h := exec (Server.handleAdminCommand w o sock (commandMsg None c)) h in
  (forall data,
      gameState (exec (Server.handleAdminCommand w o sock data) h)
        = commandEffect (Data.command data) (gameState h) /\
      users (exec (Server.handleAdminCommand w o sock data) h) = users h /\
      adminTokens (exec (Server.handleAdminCommand w o sock data) h)
        = adminTokens h) /\
  gameState (run "start_game" h)
    = {| active := true; currentNumber := None; calledNumbers := [];
         players := players (gameState h); winner := None |} /\
  gameState (run "pause_game" h)
    = {| active := false; currentNumber := currentNumber (gameState h);
         calledNumbers := calledNumbers (gameState h);
         players := players (gameState h); winner := winner (gameState h) |} /\
  gameState (run "reset_game" h)
    = gameState (run "pause_game" (run "start_game" h)) /\
  gameState (run "start_game" (run "start_game" h))
    = gameState (run "start_game" h) /\
  gameState (run "pause_game" (run "pause_game" h))
    = gameState (run "pause_game" h).
Proof.
  cbv zeta.
  assert (Heff : forall c h1,
            users h1 = users h ->
            gameState (exec (Server.handleAdminCommand w o sock
                               (commandMsg None c)) h1)
              = commandEffect (Some c) (gameState h1) /\
            users (exec (Server.handleAdminCommand w o sock
                           (commandMsg None c)) h1) = users h).
  { intros c h1 Hu1.
    destruct (Server_handleAdminCommand_effect w o sock (commandMsg None c)
                h1 u) as (Eg & Eu & _); [now rewrite Hu1 | exact Hadmin |].
    split; [exact Eg | congruence]. }
  split; [intros data; now apply (Server_handleAdminCommand_effect _ _ _ _ _ u)|].
  destruct (Heff "start_game" h eq_refl) as [Es Us].
  destruct (Heff "pause_game" h eq_refl) as [Ep Up].
  destruct (Heff "reset_game" h eq_refl) as [Er _].
  destruct (Heff "pause_game" _ Us) as [Esp _].
  destruct (Heff "start_game" _ Us) as [Ess _].
  destruct (Heff "pause_game" _ Up) as [Epp _].
  rewrite Er, Esp, Ess, Epp, Es, Ep. repeat split.
Qed.

Lemma admin_commands_on_game_witness :
  active
    (gameState
       (exec (Server.handleAdminCommand calm (oracleAt 6000 "") 1%nat
                (commandMsg None "pause_game")) gameStarted))
  = false.
Proof.
  pose proof
    (admin_commands_on_game calm (oracleAt 6000 "") 1%nat gameStarted
       {| id := "admin_2000"; username := "Admin"; socket := 1%nat;
          ip := "admin"; status := online; isAdmin := true;
          token := Some "t1"; lastSeen := 2000 |}
       eq_refl eq_refl) as (_ & _ & Hp & _).
  cbv zeta in Hp. now rewrite Hp.
Defined.

(** X19. A command that is none of the known ones, or a missing
    command, sent by an admin session, is acknowledged with [success]
    true and does nothing else: no broadcast, no change. *)
Theorem unknown_command_acknowledged
    (w : World) (o : Oracle) (sock : WebSocket) (data : Data.t) (h : Hub)
    (u : User)
    (Hsender : JsMap.findValue (onSocket sock) (users h) = Some u)
    (Hadmin : isAdmin u = true)
    (Hunknown : forall k, In k knownCommands -> Data.command data <> Some k) :
  let cmd := Server.handleAdminCommand w o sock data in
  sentBy cmd h
    = [(sock,
        CommandResponse true
          ("Command " ++ dquote ++ commandName data ++ dquote
             ++ " executed successfully"))] /\
  users (exec cmd h) = users h /\
  adminTokens (exec cmd h) = adminTokens h /\
  gameState (exec cmd h) = gameState h.
Proof.
  assert (Hrun : Server.runCommand w o sock data = ret tt).
  { unfold Server.runCommand. apply switch_default.
    repeat (apply Forall_cons;
            [apply isCase_false, Hunknown; simpl; tauto|]).
    apply Forall_nil. }
  cbv zeta. unfold exec.
  rewrite (Server_handleAdminCommand_admin w o sock data h u Hsender Hadmin).
  rewrite Hrun, run_bind. unfold ret. rewrite run_send. simpl.
  repeat split. apply sentBy_app. unfold exec.
  rewrite (Server_handleAdminCommand_admin w o sock data h u Hsender Hadmin).
  rewrite Hrun, run_bind. unfold ret. now rewrite run_send.
Qed.

Lemma unknown_command_acknowledged_witness :
  gameState
    (exec (Server.handleAdminCommand calm (oracleAt 6000 "") 1%nat
             (commandMsg None "shuffle")) gameStarted)
  = gameState gameStarted.
Proof.
  refine (proj2 (proj2 (proj2
    (unknown_command_acknowledged calm (oracleAt 6000 "") 1%nat
       (commandMsg None "shuffle") gameStarted
       {| id := "admin_2000"; username := "Admin"; socket := 1%nat;
          ip := "admin"; status := online; isAdmin := true;
          token := Some "t1"; lastSeen := 2000 |}
       eq_refl eq_refl _)))).
  intros k Hk. simpl in Hk.
  repeat (destruct Hk as [<-|Hk]; [discriminate|]). contradiction.
Defined.

(* ================================================================== *)
(** * A called number on the wire *)
(* ================================================================== *)

(** X20. [handleCallNumber] with number [n]: when the call is accepted
    (active game, [n] within 1..90 and not called yet) every session
    with an open socket is sent one [number_called] message carrying [n]
    and the list with [n] at its end, [n] becomes the current number and
    the handler returns normally; when it is not accepted nothing at all
    happens: no message, not even to the caller, and no change. *)
Theorem callNumber_broadcast_or_silence
    (w : World) (sock : WebSocket) (data : Data.t) (h : Hub) (n : Num.t)
    (Hn : Data.number data = Some n) :
  let call := Server.handleCallNumber w sock data in
  (active (gameState h) = true -> Num.ofInt 1 <= n <= Num.ofInt 90 ->
   ~ In n (calledNumbers (gameState h)) ->
   sentBy call h
     = fanout w (NumberCalled n (calledNumbers (gameState h) ++ [n])%list)
         (users h) /\
   currentNumber (gameState (exec call h)) = Some n /\
   users (exec call h) = users h /\
   outcome call h = Returned tt) /\
  (active (gameState h) = false \/ n < Num.ofInt 1 \/ Num.ofInt 90 < n \/
   In n (calledNumbers (gameState h)) ->
   call h = (Returned tt, h)).
Proof.
  cbv zeta. unfold outcome, exec.
  split.
  - intros Ha Hr Hnew.
    assert (Hguard : active (gameState h) && (Num.ofInt 1 <=? n) && (n <=? Num.ofInt 90)
                     && negb (includes (calledNumbers (gameState h)) n)
                     = true).
    { rewrite Ha. simpl.
      destruct (Z.leb_spec (Num.ofInt 1) n); [|lia]. destruct (Z.leb_spec n (Num.ofInt 90)); [|lia].
      simpl. apply negb_true_iff. now apply includes_false. }
    rewrite Server_handleCallNumber_run, Hn, Hguard. simpl.
    repeat split. apply sentBy_app. unfold exec.
    now rewrite Server_handleCallNumber_run, Hn, Hguard.
  - intros Hno.
    rewrite Server_handleCallNumber_run, Hn.
    destruct (calledAfter_cases n (gameState h))
      as [(Ha & Hr & Hnew & _) | (_ & E)].
    + exfalso. destruct Hno as [H|[H|[H|H]]]; [congruence|lia|lia|tauto].
    + unfold calledAfter in E.
      destruct (active (gameState h) && (Num.ofInt 1 <=? n) && (n <=? Num.ofInt 90)
                && negb (includes (calledNumbers (gameState h)) n));
        [|reflexivity].
      exfalso. apply (f_equal calledNumbers) in E. simpl in E.
      apply (f_equal (@List.length Z)) in E. rewrite length_app in E.
      simpl in E. lia.
Qed.

Lemma callNumber_broadcast_or_silence_witness :
  sentBy (Server.handleCallNumber calm 1%nat (callMsg (Num.ofInt 7))) gameStarted
  = [(1%nat, NumberCalled (Num.ofInt 7) [Num.ofInt 7])].
Proof.
  refine (proj1 (proj1 (callNumber_broadcast_or_silence calm 1%nat (callMsg (Num.ofInt 7))
                          gameStarted (Num.ofInt 7) eq_refl) _ _ _)).
  - reflexivity.
  - unfold Num.ofInt, Num.one. lia.
  - simpl. tauto.
Defined.

(* ================================================================== *)
(** * Sessions and their tokens *)
(* ================================================================== *)

Lemma sessionsOk_set k u m :
  sessionOk u ->
  Forall (fun e => sessionOk (snd e)) m ->
  Forall (fun e => sessionOk (snd e)) (JsMap.set k u m).
Proof.
  intros Hu Hm. apply Forall_forall. intros e He.
  apply entries_set in He as [-> | He]; [exact Hu|].
  revert e He. now apply Forall_forall.
Qed.

Lemma sessionsOk_delete k (m : JsMap.t User) :
  Forall (fun e => sessionOk (snd e)) m ->
  Forall (fun e => sessionOk (snd e)) (JsMap.delete k m).
Proof.
  intros Hm. apply Forall_forall. intros e He.
  apply entries_delete_subset in He. revert e He. now apply Forall_forall.
Qed.

Lemma sessionsOk_sweep p (m : JsMap.t User) :
  Forall (fun e => sessionOk (snd e)) m ->
  Forall (fun e => sessionOk (snd e)) (JsMap.sweep p m).
Proof.
  intros Hm. apply Forall_forall. intros e He.
  apply sweep_entries in He as [He _]. revert e He. now apply Forall_forall.
Qed.

Lemma sessionsOk_upgrade p t (m : JsMap.t User) :
  Forall (fun e => sessionOk (snd e)) m ->
  Forall (fun e => sessionOk (snd e))
    (JsMap.mutateFirst p (TokenServer.upgrade t) m).
Proof.
  induction 1 as [|[k u] m Hu Hm IH]; simpl; [constructor|].
  destruct (p u); constructor; auto.
  simpl. unfold sessionOk. simpl. split; [discriminate | reflexivity].
Qed.

Lemma sessionOk_guest i n s a t :
  sessionOk {| id := i; username := n; socket := s; ip := a;
               status := online; isAdmin := false; token := None;
               lastSeen := t |}.
Proof. unfold sessionOk. simpl. split; [discriminate | congruence]. Qed.

Lemma sessionOk_admin i n s a tok t :
  sessionOk {| id := i; username := n; socket := s; ip := a;
               status := online; isAdmin := true; token := Some tok;
               lastSeen := t |}.
Proof. unfold sessionOk. simpl. split; [discriminate | reflexivity]. Qed.

Ltac sessions_modify :=
  apply Inv_modify; intros ? ?; unfold sessionsOk in *; simpl;
  first
    [ assumption
    | apply sessionsOk_set; [first [apply sessionOk_guest | apply sessionOk_admin] | assumption]
    | apply sessionsOk_delete; assumption
    | apply sessionsOk_sweep; assumption
    | apply sessionsOk_upgrade; assumption ].

Lemma Server_step_sessionsOk w o e : Inv sessionsOk (Server.step w o e).
Proof.
  destruct e; simpl.
  - unfold Server.onopen. inv_auto.
  - apply Inv_tryCatch.
    unfold Server.handleWebSocketMessage, Server.handleMarkNumber,
      Server.handleCallNumber, Server.handleAnnounceWin,
      Server.handleAdminCommand, Server.runCommand,
      Server.broadcastGameState, Server.broadcastMessage,
      Server.handleUserJoin, Server.handleAdminAuth.
    inv_auto; try talk; sessions_modify.
  - unfold Server.handleDisconnection. inv_auto. sessions_modify.
  - talk.
  - sessions_modify.
  - sessions_modify.
Qed.

Lemma TokenServer_step_sessionsOk w o e : Inv sessionsOk (TokenServer.step w o e).
Proof.
  destruct e; simpl; try apply Inv_ret.
  - apply Inv_tryCatch.
    unfold TokenServer.handleWebSocketMessage, TokenServer.handleMarkNumber,
      TokenServer.handleCallNumber, TokenServer.handleAnnounceWin,
      TokenServer.handleAdminCommand, TokenServer.runCommand,
      TokenServer.broadcastGameState, TokenServer.broadcastMessage,
      TokenServer.handleUserJoin, TokenServer.handleAdminAuth.
    inv_auto; try talk; sessions_modify.
  - unfold TokenServer.handleDisconnection. inv_auto; try talk.
    sessions_modify.
  - sessions_modify.
Qed.

Lemma Server_run_sessionsOk history :
  forall h, sessionsOk h -> sessionsOk (Server.run history h).
Proof.
  induction history as [|[[w o] e] rest IH]; intros h Hh; simpl; auto.
  apply IH. now apply Server_step_sessionsOk.
Qed.

Lemma TokenServer_run_sessionsOk history :
  forall h, sessionsOk h -> sessionsOk (TokenServer.run history h).
Proof.
  induction history as [|[[w o] e] rest IH]; intros h Hh; simpl; auto.
  apply IH. now apply TokenServer_step_sessionsOk.
Qed.

(** X21. In every state either server can reach, a registered session
    carries a token exactly when it is an admin session: guests never
    hold a token and admin sessions always do. *)
Theorem admin_sessions_hold_tokens
    (history : list (World * Oracle * Event)) (k : string) (u : User) :
  (JsMap.get k (users (Server.run history initialHub)) = Some u ->
   (isAdmin u = true <-> token u <> None)) /\
  (JsMap.get k (users (TokenServer.run history initialHub)) = Some u ->
   (isAdmin u = true <-> token u <> None)).
Proof.
  pose proof (Server_run_sessionsOk history) as HS.
  pose proof (TokenServer_run_sessionsOk history) as HT.
  assert (H0 : sessionsOk initialHub) by constructor.
  split; intros Hg; apply get_In in Hg.
  - specialize (HS _ H0). unfold sessionsOk in HS.
    rewrite Forall_forall in HS. exact (HS _ Hg).
  - specialize (HT _ H0). unfold sessionsOk in HT.
    rewrite Forall_forall in HT. exact (HT _ Hg).
Qed.

Lemma admin_sessions_hold_tokens_witness :
  isAdmin (guest "alice" 1%nat "10.0.0.1" 1000) = true <->
  token (guest "alice" 1%nat "10.0.0.1" 1000) <> None.
Proof.
  refine (proj1
    (admin_sessions_hold_tokens
       [(calm, oracleAt 1000 "", Inbound 1%nat (joinMsg "alice") "10.0.0.1")]
       "alice" (guest "alice" 1%nat "10.0.0.1" 1000)) _).
  reflexivity.
Defined.

(* ================================================================== *)
(** * How long a game can get *)
(* ================================================================== *)

Lemma Num_one_pos : 0 < Num.one.
Proof. reflexivity. Qed.

Lemma Num_ofInt_le a b : Num.ofInt a <= Num.ofInt b <-> a <= b.
Proof.
  unfold Num.ofInt. pose proof Num_one_pos.
  split; intros Hle; [|now apply Z.mul_le_mono_nonneg_r; [lia|]].
  now apply Z.mul_le_mono_pos_r in Hle.
Qed.

(** An integer is the number of its quotient by [Num.one]. *)
Lemma Num_isInteger_ofInt n :
  Num.isInteger n = true -> n = Num.ofInt (n / Num.one).
Proof.
  unfold Num.isInteger, Num.ofInt. pose proof Num_one_pos.
  intros Hi. apply andb_prop in Hi as [Hi _]. apply Z.eqb_eq in Hi.
  rewrite Z.mul_comm. apply Z.div_exact; [lia|exact Hi].
Qed.

Lemma distinct_integers_in_range_bounded (l : list Z) :
  NoDup l -> Forall (fun n => Num.ofInt 1 <= n <= Num.ofInt 90) l ->
  (List.length (filter Num.isInteger l) <= 90)%nat.
Proof.
  intros Hd Hr.
  set (q := fun n => Z.to_nat (n / Num.one)).
  assert (Hq : forall n, In n (filter Num.isInteger l) ->
                         n = Num.ofInt (n / Num.one) /\ 1 <= n / Num.one <= 90).
  { intros n Hn. apply filter_In in Hn as [Hn Hi].
    pose proof (Num_isInteger_ofInt n Hi) as En. split; [exact En|].
    rewrite Forall_forall in Hr. pose proof (Hr n Hn) as Hrange.
    rewrite En in Hrange. now rewrite !Num_ofInt_le in Hrange. }
  assert (Hn : NoDup (map q (filter Num.isInteger l))).
  { assert (Hf : NoDup (filter Num.isInteger l)) by now apply NoDup_filter.
    revert Hq. induction Hf as [|x m Hx Hf IH]; intros Hq; simpl;
      [constructor|].
    constructor.
    - intros Hin. apply in_map_iff in Hin as (y & Ey & Hy).
      destruct (Hq x (or_introl eq_refl)) as [Ex Hxr].
      destruct (Hq y (or_intror Hy)) as [Ey' Hyr].
      unfold q in Ey. assert (Eq : y / Num.one = x / Num.one) by lia.
      apply Hx. rewrite Ex, <- Eq, <- Ey'. exact Hy.
    - apply IH. intros n Hin. apply Hq. now right. }
  assert (Hi : incl (map q (filter Num.isInteger l)) (seq 1 90)).
  { intros x Hx. apply in_map_iff in Hx as (z & <- & Hz).
    destruct (Hq z Hz) as [_ Hzr]. apply in_seq. unfold q. lia. }
  pose proof (NoDup_incl_length Hn Hi) as Hlen.
  now rewrite length_map, length_seq in Hlen.
Qed.

(** X22. However long the hub runs and whatever it receives, at most 90
    of the called numbers are integers.  The list itself is not bounded
    by 90, since fractions are called as well: after the 179 calls of
    1, 1.5, 2, ..., 90 in a game just started it holds 179 numbers. *)
Theorem called_integers_at_most_ninety :
  (forall history : list (World * Oracle * Event),
     (List.length
        (filter Num.isInteger
           (calledNumbers (gameState (Server.run history initialHub))))
      <= 90)%nat) /\
  List.length
    (calledNumbers (gameState (Server.run (startHistory ++ halfCalls) initialHub)))
  = 179%nat.
Proof.
  split; [|now vm_compute].
  intros history.
  destruct (game_invariant_reachable history) as (Hd & Hr & _).
  now apply distinct_integers_in_range_bounded.
Qed.

(* ================================================================== *)
(** * Who can be the winner *)
(* ================================================================== *)

Lemma isCase_true x k : isCase x k = true -> x = Some k.
Proof.
  destruct x as [s|]; simpl; [|discriminate].
  intros E. apply String.eqb_eq in E. now subst.
Qed.

(** Whatever holds of every case whose label is the scrutinee, and of the
    default, holds of the [switch]. *)
Lemma switch_elim {A : Type} (P : A -> Prop) x (cases : list (string * A))
    (default : A) :
  Forall (fun c => x = Some (fst c) -> P (snd c)) cases ->
  P default ->
  P (switch x cases default).
Proof.
  intros Hc Hd. induction Hc as [|[k body] rest Hk _ IH]; simpl; auto.
  destruct (isCase x k) eqn:E; auto.
  apply Hk. now apply isCase_true.
Qed.

Ltac winner_modify :=
  apply Inv_modify; intros ? HQ; simpl;
  first [ exact HQ | intros Hw; simpl in Hw; discriminate Hw ].

(** X23. The winner is never a name that was not registered: whatever
    event [server.ts] handles, if afterwards the winner is [who], then
    either [who] was the winner before, or the event is an
    [announce_win] envelope and [who] is the identity of the session the
    sender's socket was registered under at that moment. *)
Theorem winner_is_a_registered_sender
    (w : World) (o : Oracle) (e : Event) (h : Hub) (who : string)
    (Hwinner : winner (gameState (exec (Server.step w o e) h)) = Some who) :
  winner (gameState h) = Some who \/
  exists sock data ip_ u,
    e = Inbound sock data ip_ /\
    Data.type data = Some "announce_win" /\
    JsMap.findValue (onSocket sock) (users h) = Some u /\
    id u = who.
Proof.
  revert Hwinner.
  set (W := winner (gameState h) = Some who \/
            exists sock data ip_ u,
              e = Inbound sock data ip_ /\
              Data.type data = Some "announce_win" /\
              JsMap.findValue (onSocket sock) (users h) = Some u /\
              id u = who).
  set (Q := fun h' : Hub => winner (gameState h') = Some who -> W).
  change (Q (exec (Server.step w o e) h)).
  assert (Q0 : Q h) by (intros Hw; left; exact Hw).
  assert (Hgen : forall m : M unit, Inv Q m -> Q (exec m h)).
  { intros m Hm. now apply Hm. }
  destruct e as [sock|sock data ip_|sock| | |]; cbn [Server.step].
  - apply Hgen. unfold Server.onopen. inv_auto.
  - unfold Server.onmessage. rewrite exec_tryCatch.
    unfold Server.handleWebSocketMessage.
    apply (switch_elim (fun m : M unit => Q (exec m h)));
      [repeat (apply Forall_cons; [simpl; intros Htype|]);
       try apply Forall_nil|].
    + apply Hgen. unfold Server.handleUserJoin. inv_auto; try talk.
      winner_modify.
    + apply Hgen. unfold Server.handleAdminAuth. inv_auto; try talk;
        winner_modify.
    + apply Hgen. talk.
    + apply Hgen.
      unfold Server.handleAdminCommand, Server.runCommand,
        Server.broadcastGameState, Server.broadcastMessage.
      inv_auto; try talk; winner_modify.
    + apply Hgen. talk.
    + apply Hgen. talk.
    + apply Hgen. talk.
    + apply Hgen. unfold Server.handleCallNumber. inv_auto; try talk.
      winner_modify.
    + apply Hgen. unfold Server.handleMarkNumber. inv_auto.
    + intros Hw. unfold exec in Hw.
      rewrite Server_handleAnnounceWin_run in Hw. cbn [snd] in Hw.
      destruct (JsMap.findValue (onSocket sock) (users h)) as [u|] eqn:Hu;
        [|left; exact Hw].
      destruct (Data.pattern data) as [pat|]; [|left; exact Hw].
      destruct (truthy (Some pat)); [|left; exact Hw].
      simpl in Hw. injection Hw as Hw.
      right. exists sock, data, ip_, u. auto.
    + apply Hgen. winner_modify.
    + apply Hgen. inv_auto.
  - apply Hgen. unfold Server.handleDisconnection. inv_auto. winner_modify.
  - apply Hgen. talk.
  - apply Hgen. winner_modify.
  - apply Hgen. winner_modify.
Qed.

Lemma winner_is_a_registered_sender_witness :
  winner (gameState aliceJoined) = Some "alice" \/
  exists sock data ip_ u,
    Inbound 1%nat (winMsg (Some "row")) "10.0.0.1" = Inbound sock data ip_ /\
    Data.type data = Some "announce_win" /\
    JsMap.findValue (onSocket sock) (users aliceJoined) = Some u /\
    id u = "alice".
Proof.
  exact (winner_is_a_registered_sender calm (oracleAt 5000 "")
           (Inbound 1%nat (winMsg (Some "row")) "10.0.0.1") aliceJoined
           "alice" eq_refl).
Defined.

(* ================================================================== *)
(** * Joining without an identity *)
(* ================================================================== *)

Lemma isTemp_user rest : Server.isTemp ("user_" ++ rest) = false.
Proof.
  unfold Server.isTemp. simpl.
  destruct (ascii_dec "t" "u"); [discriminate | reflexivity].
Qed.

Lemma orElse_default o d : truthy o = false -> orElse o d = d.
Proof.
  destruct o as [s|]; simpl; [|reflexivity].
  now destruct (String.eqb s "").
Qed.

(** X24. A join that names no identity (none, or the empty string) is
    given one by [server.ts], made of [user_], the instant and the
    characters 2 to 8 of a random number written in base 36 (seven
    characters, or as many as there are when the expansion is shorter).
    The joiner is registered and welcomed under it; the identity does
    not start with [temp_], so the session shows in the user list; and
    when the identity was free the registry grows by one session. *)
Theorem join_without_identity
    (w : World) (o : Oracle) (sock : WebSocket) (data : Data.t)
    (ip_ : string) (h : Hub)
    (Hnone : truthy (Data.userId data) = false) :
  let join := Server.handleUserJoin w o sock data ip_ in
  let assigned := "user_" ++ show (now o) ++ "_" ++ substring 2 7 (random1 o) in
  let session :=
    {| id := assigned;
       username := orElse (Data.username data)
                     ("Player_" ++ substring 2 3 (random2 o));
       socket := sock; ip := ip_; status := online; isAdmin := false;
       token := None; lastSeen := now o |} in
  JsMap.get assigned (users (exec join h)) = Some session /\
  In (Server.toInfo session) (Server.userList (exec join h)) /\
  (exists rest,
     sentBy join h
     = (sock, Welcome "Welcome to Assefa Digital Bingo!" assigned (gameState h))
         :: rest) /\
  (JsMap.get assigned (users h) = None ->
   JsMap.size (users (exec join h)) = S (JsMap.size (users h))).
Proof.
  cbv zeta.
  set (assigned := "user_" ++ show (now o) ++ "_" ++ substring 2 7 (random1 o)).
  assert (Eu : joinedUser o sock data ip_
               = {| id := assigned;
                    username := orElse (Data.username data)
                                  ("Player_" ++ substring 2 3 (random2 o));
                    socket := sock; ip := ip_; status := online;
                    isAdmin := false; token := None; lastSeen := now o |}).
  { unfold joinedUser. now rewrite (orElse_default _ _ Hnone). }
  pose proof (Server_handleUserJoin_users w o sock data ip_ h) as Husers.
  pose proof (Server_handleUserJoin_run w o sock data ip_ h) as Hrun.
  cbv zeta in Hrun. rewrite Eu in Husers, Hrun. simpl id in Husers, Hrun.
  split; [rewrite Husers; apply get_set_same|].
  split; [|split].
  - unfold Server.userList. apply in_map. apply filter_In. split.
    + unfold JsMap.values. rewrite Husers.
      apply in_map_iff. eexists (assigned, _). split; [reflexivity|].
      apply get_In, get_set_same.
    + cbn [id]. unfold assigned. now rewrite isTemp_user.
  - destruct (sendThrows w sock).
    + exists []. apply sentBy_app. unfold exec. now rewrite Hrun.
    + eexists. apply sentBy_app. unfold exec. rewrite Hrun. simpl.
      rewrite <- app_assoc. reflexivity.
  - intros Hfree. rewrite Husers. unfold JsMap.size.
    rewrite <- !(length_map fst). fold (@JsMap.keys User).
    change (map fst ?m) with (JsMap.keys m).
    rewrite keys_set_absent by exact Hfree.
    rewrite length_app. simpl. lia.
Qed.

Lemma join_without_identity_witness :
  JsMap.get "user_1234_k3j5h2x"
    (users (exec (Server.handleUserJoin calm (oracleAt 1234 "") 1%nat
                    (joinMsg "") "10.0.0.1") initialHub))
  = Some {| id := "user_1234_k3j5h2x"; username := "Player_z8y";
            socket := 1%nat; ip := "10.0.0.1"; status := online;
            isAdmin := false; token := None; lastSeen := 1234 |}.
Proof.
  exact (proj1 (join_without_identity calm (oracleAt 1234 "") 1%nat
                  (joinMsg "") "10.0.0.1" initialHub eq_refl)).
Defined.

(* ================================================================== *)
(** * Statistics *)
(* ================================================================== *)

Lemma Server_handleGetStats_run w o sock h :
  sendThrows w sock = false ->
  Server.handleGetStats w o sock h =
  (Returned tt,
   withWire
     (fun l =>
        (l ++ [(sock, StatsUpdate (JsMap.size (users h))
                        (if active (gameState h) then 1 else 0)
                        (Server.calculateRevenue h) (Some (now o)));
               (sock, UsersList (Server.userList h))])%list) h).
Proof.
  intros Hok. unfold Server.handleGetStats, Server.sendUserList.
  rewrite run_bind. unfold gets. rewrite run_bind, run_bind, run_send, Hok.
  rewrite run_bind, run_send, Hok.
  destruct h. unfold withWire. simpl. now rewrite <- app_assoc.
Qed.

Lemma TokenServer_handleGetStats_run w sock data h :
  sendThrows w sock = false ->
  TokenServer.handleGetStats w sock data h =
  (Returned tt,
   withWire
     (fun l =>
        (l ++ [(sock, StatsUpdate (JsMap.size (users h))
                        (if active (gameState h) then 1 else 0)
                        (TokenServer.calculateRevenue h) None)])%list) h).
Proof.
  intros Hok. unfold TokenServer.handleGetStats.
  rewrite run_bind. unfold gets. now rewrite run_send, Hok.
Qed.

(** X25. [get_stats] needs no authority and changes nothing; it writes
    to the asker only.  In [server.ts] the statistics are followed by the
    user list and the two agree: the revenue is 25 for every session of
    that list, which leaves the temporary sessions out, so it is at most
    25 times [totalUsers].  In the token-checking server the statistics
    come alone and the revenue is 25 times [totalUsers], temporary
    sessions included. *)
Theorem stats_agree_with_user_list
    (w : World) (o : Oracle) (sock : WebSocket) (data : Data.t) (h : Hub)
    (Hok : sendThrows w sock = false) :
  let stats := Server.handleGetStats w o sock in
  let stats' := TokenServer.handleGetStats w sock data in
  (users (exec stats h) = users h /\
   gameState (exec stats h) = gameState h /\
   adminTokens (exec stats h) = adminTokens h /\
   exists revenue,
     sentBy stats h
     = [(sock, StatsUpdate (JsMap.size (users h))
                 (if active (gameState h) then 1 else 0)
                 revenue (Some (now o)));
        (sock, UsersList (Server.userList h))] /\
     revenue = 25 * Z.of_nat (List.length (Server.userList h)) /\
     revenue <= 25 * Z.of_nat (JsMap.size (users h))) /\
  (users (exec stats' h) = users h /\
   gameState (exec stats' h) = gameState h /\
   adminTokens (exec stats' h) = adminTokens h /\
   sentBy stats' h
   = [(sock, StatsUpdate (JsMap.size (users h))
               (if active (gameState h) then 1 else 0)
               (25 * Z.of_nat (JsMap.size (users h))) None)]).
Proof.
  cbv zeta. split.
  - unfold exec. rewrite (Server_handleGetStats_run w o sock h Hok).
    repeat (split; [now destruct h|]).
    exists (Server.calculateRevenue h).
    split; [apply sentBy_app; unfold exec;
            rewrite (Server_handleGetStats_run w o sock h Hok);
            now destruct h|].
    unfold Server.calculateRevenue, Server.userList.
    rewrite length_map. split; [lia|].
    assert (List.length
              (filter (fun user => negb (Server.isTemp (id user)))
                 (JsMap.values (users h)))
            <= JsMap.size (users h))%nat; [|lia].
    unfold JsMap.size, JsMap.values.
    etransitivity; [apply filter_length_le|]. now rewrite length_map.
  - unfold exec. rewrite (TokenServer_handleGetStats_run w sock data h Hok).
    repeat (split; [now destruct h|]).
    apply sentBy_app. unfold exec.
    rewrite (TokenServer_handleGetStats_run w sock data h Hok).
    unfold TokenServer.calculateRevenue. rewrite (Z.mul_comm 25).
    now destruct h.
Qed.

Lemma stats_agree_with_user_list_witness :
  sentBy (TokenServer.handleGetStats calm 1%nat pingMsg) aliceJoined
  = [(1%nat, StatsUpdate 1 0 25 None)].
Proof.
  exact (proj2 (proj2 (proj2 (proj2
           (stats_agree_with_user_list calm (oracleAt 5000 "") 1%nat pingMsg
              aliceJoined eq_refl))))).
Defined.
